(** * The FDA document downloader of [app.py]

    A shallow embedding of [download_pdf] and [download_fda_pdfs], and the
    properties of identifier normalisation, URL construction, error
    capture and batch reporting that hold of them.

    The program runs in a state monad with exceptions.  The state holds
    the file system, the server, the thread scheduler and the executor;
    the server, the scheduler and the refusals of the operating system
    (permissions, the length of a name, ...) are arbitrary, so that what
    is proved holds for every answer of the network, every order in
    which the pool runs its tasks and every file the system refuses to
    open.  What is left out: links in the file system, the meaning of
    [..] (a name like another here; the statements that depend on where
    a name leads exclude it), and the interleaving of the steps of two
    fetches (a fetch acts on the state at once, when it completes; no
    statement below is about the order of the steps of two fetches that
    run at the same time). *)

From Stdlib Require Import String Ascii DecimalString NArith ZArith Lia.
From stdpp Require Import base option list gmap.

(** ** Python strings

    A Python [str] is a sequence of Unicode code points.  A code point is
    a number, a string is a list of them. *)

Abbreviation char := N (only parsing).
Abbreviation str := (list char) (only parsing).

(** A string literal of the source (ASCII). *)
Definition py (s : string) : str :=
  map N_of_ascii (list_ascii_of_string s).
Arguments py s%_string.

(** [str.isspace] of one character: the code points CPython treats as
    whitespace, which are the ones [str.strip()] removes. *)
Definition isspace (c : char) : bool :=
  ((0x09 <=? c) && (c <=? 0x0D) || (0x1C <=? c) && (c <=? 0x20)
   || (c =? 0x85) || (c =? 0xA0) || (c =? 0x1680)
   || (0x2000 <=? c) && (c <=? 0x200A)
   || (c =? 0x2028) || (c =? 0x2029) || (c =? 0x202F)
   || (c =? 0x205F) || (c =? 0x3000))%N.

Fixpoint lstrip (s : str) : str :=
  match s with
  | [] => []
  | c :: s' => if isspace c then lstrip s' else s
  end.

Fixpoint rstrip (s : str) : str :=
  match s with
  | [] => []
  | c :: s' =>
      match rstrip s' with
      | [] => if isspace c then [] else [c]
      | r => c :: r
      end
  end.

(** [s.strip()] *)
Definition strip (s : str) : str := rstrip (lstrip s).

(** [s.startswith(p)] *)
Fixpoint startswith (s p : str) {struct p} : bool :=
  match p, s with
  | [], _ => true
  | _ :: _, [] => false
  | a :: p', c :: s' => (c =? a)%N && startswith s' p'
  end.

(** [s[start:stop]] for constant indices [0 <= start <= stop]: the
    characters at the positions [start, ..., stop - 1] that exist. *)
Definition slice (s : str) (start stop : nat) : str :=
  take (stop - start) (drop start s).

(** The parts of Python's library the downloader calls and whose tables
    or algorithms are not part of the repository. *)
Class Library := {
  (** [str.upper] of one code point outside ASCII (the Unicode full case
      mapping: one character may map to several) *)
  unicode_upper : char → str;
  (** [urllib.parse.urljoin] *)
  urljoin : str → str → str;
}.

Section Identifier.
Context `{Library}.

(** [str.upper] of one character: ASCII letters are mapped by the fixed
    rule, the rest by the Unicode table. *)
Definition upper_char (c : char) : str :=
  if (c <? 128)%N then
    if ((0x61 <=? c) && (c <=? 0x7A))%N then [(c - 32)%N] else [c]
  else unicode_upper c.

(** [s.upper()] *)
Definition upper (s : str) : str := flat_map upper_char s.

(** Lines 20-22 of [download_pdf]:
    [k_number = k_number.strip().upper()], then the prefix test. *)
Definition normalize (k_number : str) : str :=
  let k_number := upper (strip k_number) in
  if negb (startswith k_number (py "K")) then py "K" ++ k_number
  else k_number.

(** Line 25: [year = k_number[1:3]] *)
Definition year_of (k_number : str) : str := slice k_number 1 3.

(** Line 26: the relative path handed to [urljoin] *)
Definition pdf_path (k_number : str) : str :=
  py "pdf" ++ year_of k_number ++ py "/" ++ k_number ++ py ".pdf".

(** Line 26: [url = urljoin(base_url, f"pdf{year}/{k_number}.pdf")] *)
Definition pdf_url (base_url k_number : str) : str :=
  urljoin base_url (pdf_path k_number).
End Identifier.

(** A small excerpt of the Unicode table, exact on Latin-1 (further
    characters are left as they are): it is the instance at which
    statements about the library are exercised. *)
Definition latin1_upper (c : char) : str :=
  if (c =? 0xB5)%N then [0x39C%N]
  else if (c =? 0xDF)%N then py "SS"
  else if (c =? 0xFF)%N then [0x178%N]
  else if ((0xE0 <=? c) && (c <=? 0xFE) && negb (c =? 0xF7))%N
       then [(c - 32)%N]
  else [c].

(** Joining a relative path without scheme, query or dot segments to a
    base that ends in a slash appends it. *)
Definition urljoin_append (base rel : str) : str := base ++ rel.

Definition latin1_library : Library :=
  {| unicode_upper := latin1_upper; urljoin := urljoin_append |}.

(** ** Exceptions, results and the machine state *)

(** The exception classes the downloader can meet.  A
    [RequestException] stands for [requests.exceptions.RequestException]
    and its subclasses (connection errors, timeouts, [HTTPError], broken
    streams); an [OSError] for the errors of the file system
    ([FileNotFoundError], [IsADirectoryError], [FileExistsError], ...),
    none of which is a [RequestException]; [ValueError] is what
    [ThreadPoolExecutor] raises for a pool without workers, and what
    [open] and [os.mkdir] raise for a name with a null character;
    [UnicodeEncodeError] is what they raise for a name that cannot be
    encoded; [RuntimeError] marks the one place where the program would
    block for ever, which is never reached.  Each one carries its text,
    [str(e)]; the text of an [OSError] is cut down to its first part,
    that of a [UnicodeEncodeError] to its last. *)
Inductive exn :=
| RequestException (msg : str)
| OSError (msg : str)
| ValueError (msg : str)
| UnicodeEncodeError (msg : str)
| RuntimeError (msg : str).

Definition exn_str (e : exn) : str :=
  match e with
  | RequestException m | OSError m | ValueError m | UnicodeEncodeError m
  | RuntimeError m => m
  end.

(** [isinstance(e, requests.exceptions.RequestException)] *)
Definition is_RequestException (e : exn) : bool :=
  match e with RequestException _ => true | _ => false end.

Inductive result (A : Type) :=
| Returned (a : A)
| Raised (e : exn).
Arguments Returned {A} a.
Arguments Raised {A} e.

Definition bytes := list Byte.byte.

(** What the server sends back for one request.  With [stream=True] the
    body is read after the headers, chunk by chunk, and the connection
    may break after some of the chunks. *)
Record response := {
  status_code : Z;
  reason : str;
  url : str;
  content : list bytes;
  broken : option str;
}.

Inductive reply :=
| NoResponse (msg : str)
| Response (r : response).

(** The file system: a path is the list of its components, each one the
    bytes of a name (a byte is a number below 256, so that an ASCII name
    is its own bytes); the root is the working directory, and absolute
    names are read from there too.  There are no links, and [..] is not
    interpreted. *)
Abbreviation path := (list str) (only parsing).

Inductive node :=
| Dir
| File (data : bytes).

(** [download_pdf]'s return value [(k_number, success, result)] *)
Definition outcome := (str * bool * str)%type.

(** A [Future] of the executor.  Only [download_pdf] is ever submitted,
    so a pending future holds its arguments. *)
Inductive future :=
| Pending (k_number base_url output_dir : str)
| Done (r : result outcome).

Inductive event :=
| EvMakedirs (name : str)
| EvGet (u : str)
| EvOpen (name : str)
| EvDone (i : nat)
| EvPrint (line : str).

(** The state the program runs in.  [free] is the space left on the
    disk for the content of files, in bytes; [denied p] is the error,
    if any, with which the operating system refuses to enter, make or
    open the entry at [p] for a reason that is not in the tree
    (permissions, a name that is too long, a file system that is
    read-only or has no room for a new entry);
    [net n u] is the server's answer to a request for [u] when [n]
    requests were made before; [sched] lists the choices the thread
    scheduler is going to make; [trace] records what happened, oldest
    event first; [workers] and [futures] are the state of the
    executor. *)
Record world := {
  fs : gmap path node;
  free : N;
  denied : path → option str;
  net : nat → str → reply;
  sched : list nat;
  trace : list event;
  workers : Z;
  futures : list future;
}.

Definition set_disk (f : gmap path node) (n : N) (w : world) : world :=
  {| fs := f; free := n; denied := denied w; net := net w; sched := sched w;
     trace := trace w; workers := workers w; futures := futures w |}.

Definition set_sched (s : list nat) (w : world) : world :=
  {| fs := fs w; free := free w; denied := denied w; net := net w; sched := s;
     trace := trace w; workers := workers w; futures := futures w |}.

Definition log (e : event) (w : world) : world :=
  {| fs := fs w; free := free w; denied := denied w; net := net w;
     sched := sched w;
     trace := trace w ++ [e]; workers := workers w; futures := futures w |}.

Definition set_executor (n : Z) (l : list future) (w : world) : world :=
  {| fs := fs w; free := free w; denied := denied w; net := net w;
     sched := sched w;
     trace := trace w; workers := n; futures := l |}.

(** The URLs requested so far, and the tasks completed so far. *)
Definition sent (w : world) : list str :=
  omap (λ e, match e with EvGet u => Some u | _ => None end) (trace w).

Definition completed (w : world) : list nat :=
  omap (λ e, match e with EvDone i => Some i | _ => None end) (trace w).

Definition stdout (w : world) : list str :=
  omap (λ e, match e with EvPrint l => Some l | _ => None end) (trace w).

(** ** The monad of the embedding: state and exceptions *)

Definition M (A : Type) : Type := world → result A * world.

#[global] Instance M_ret : MRet M := λ A a w, (Returned a, w).

#[global] Instance M_bind : MBind M := λ A B f m w,
  match m w with
  | (Returned a, w') => f a w'
  | (Raised e, w') => (Raised e, w')
  end.

Definition raise {A} (e : exn) : M A := λ w, (Raised e, w).

(** [try: body except C as e: handler]: the handler says which
    exceptions it takes. *)
Definition try_except {A} (body : M A) (handler : exn → option (M A)) : M A :=
  λ w, match body w with
       | (Returned a, w') => (Returned a, w')
       | (Raised e, w') =>
           match handler e with
           | Some h => h w'
           | None => (Raised e, w')
           end
       end.

(** [try: body finally: cleanup] *)
Definition try_finally {A} (body : M A) (cleanup : M unit) : M A :=
  λ w, match body w with
       | (r, w') =>
           match cleanup w' with
           | (Returned _, w'') => (r, w'')
           | (Raised e, w'') => (Raised e, w'')
           end
       end.

Definition get {A} (f : world → A) : M A := λ w, (Returned (f w), w).
Definition modify (f : world → world) : M unit := λ w, (Returned tt, f w).

(** ** The file system: [os.path.join], [os.makedirs], [open], [write] *)

(** [posixpath.join(a, b)] *)
Definition path_join (a b : str) : str :=
  if startswith b (py "/") then b
  else if bool_decide (a = []) || bool_decide (last a = Some 0x2F%N)
       then a ++ b
  else a ++ py "/" ++ b.

(** The pieces of a string between slashes. *)
Fixpoint split_slash (s : str) : list str :=
  match s with
  | [] => [[]]
  | c :: s' =>
      if (c =? 0x2F)%N then [] :: split_slash s'
      else match split_slash s' with
           | [] => [[c]]
           | p :: ps => (c :: p) :: ps
           end
  end.

(** The pieces of a path name: empty pieces and [.] do not count. *)
Definition pieces (name : str) : list str :=
  filter (λ c, c ≠ [] ∧ c ≠ py ".") (split_slash name).

(** [os.fsencode] on one character: UTF-8, with the error handler
    [surrogateescape], under which the code points U+DC80 to U+DCFF
    stand for the bytes 128 to 255 and no other surrogate can be
    encoded. *)
Definition fs_encodable (c : char) : bool :=
  ((c <? 0xD800) || (0xDC80 <=? c) && (c <=? 0xDCFF)
   || (0xE000 <=? c) && (c <=? 0x10FFFF))%N.

Definition fsencode_char (c : char) : str :=
  (if c <? 0x80 then [c]
   else if c <? 0x800 then [0xC0 + c / 0x40; 0x80 + c mod 0x40]
   else if (0xDC80 <=? c) && (c <=? 0xDCFF) then [c - 0xDC00]
   else if c <? 0x10000 then
     [0xE0 + c / 0x1000; 0x80 + (c / 0x40) mod 0x40; 0x80 + c mod 0x40]
   else
     [0xF0 + c / 0x40000; 0x80 + (c / 0x1000) mod 0x40;
      0x80 + (c / 0x40) mod 0x40; 0x80 + c mod 0x40])%N.

(** The bytes of a name *)
Definition fsencode (s : str) : str := flat_map fsencode_char s.

(** What Python refuses in a file name before the system is asked: a
    name that cannot be encoded, then a name with a null character. *)
Definition name_error (name : str) : option exn :=
  if negb (forallb fs_encodable name) then
    Some (UnicodeEncodeError (py "surrogates not allowed"))
  else if existsb (λ c, c =? 0)%N name then
    Some (ValueError (py "embedded null byte"))
  else None.

(** The components of a path name: the bytes of its pieces. *)
Definition components (name : str) : path := fsencode <$> pieces name.

(** The root always is a directory. *)
Definition is_dir (f : gmap path node) (p : path) : bool :=
  match p with
  | [] => true
  | _ => match f !! p with Some Dir => true | _ => false end
  end.

(** Going down from the directory [at_] through the directories
    [todo]: the error of the first one that cannot be entered. *)
Fixpoint descend (d : path → option str) (f : gmap path node)
    (at_ todo : path) : option exn :=
  match todo with
  | [] => None
  | c :: todo' =>
      let p := at_ ++ [c] in
      match d p with
      | Some msg => Some (OSError msg)
      | None =>
          match f !! p with
          | Some Dir => descend d f p todo'
          | Some (File _) => Some (OSError (py "[Errno 20] Not a directory"))
          | None => Some (OSError (py "[Errno 2] No such file or directory"))
          end
      end
  end.

(** [os.path.isdir(name)]: the name leads to a directory. *)
Definition isdir (w : world) (name : str) : bool :=
  match name_error name with
  | Some _ => false
  | None =>
      negb (bool_decide (name = []))
      && match descend (denied w) (fs w) [] (components name) with
         | None => true
         | Some _ => false
         end
  end.

(** Walks down from the directory [at_], making the directories of
    [todo] that are missing, as far as it gets: it stops at a name that
    Python refuses, at an entry that the system refuses, and at a file
    ([os.mkdir] fails with [FileExistsError] for the last piece, which
    [exist_ok] forgives for a directory only, and with
    [NotADirectoryError] below a file). *)
Fixpoint mkdirs (d : path → option str) (at_ : path) (todo : list str)
    (f : gmap path node) : gmap path node * option exn :=
  match todo with
  | [] => (f, None)
  | c :: todo' =>
      match name_error c with
      | Some e => (f, Some e)
      | None =>
          let p := at_ ++ [fsencode c] in
          match d p with
          | Some msg => (f, Some (OSError msg))
          | None =>
              match f !! p with
              | Some Dir => mkdirs d p todo' f
              | Some (File _) =>
                  (f, Some (OSError
                              match todo' with
                              | [] => py "[Errno 17] File exists"
                              | _ => py "[Errno 20] Not a directory"
                              end))
              | None => mkdirs d p todo' (<[p := Dir]> f)
              end
          end
      end
  end.

(** [os.makedirs(name, exist_ok=True)]; the directories made before an
    error stay. *)
Definition makedirs (name : str) : M unit := λ w,
  let w := log (EvMakedirs name) w in
  if bool_decide (name = []) then
    (Raised (OSError (py "[Errno 2] No such file or directory")), w)
  else
    match mkdirs (denied w) [] (pieces name) (fs w) with
    | (f, None) => (Returned tt, set_disk f (free w) w)
    | (f, Some e) => (Raised e, set_disk f (free w) w)
    end.

(** The size of the file at [p], if there is one. *)
Definition size_at (f : gmap path node) (p : path) : N :=
  match f !! p with
  | Some (File data) => N.of_nat (length data)
  | _ => 0%N
  end.

(** [open(name, "wb")]: the file is created or emptied; the open file is
    known by its path.  Python checks the name, the system goes down the
    directories above the file, and a name that ends in a slash or leads
    to a directory is not the name of a file. *)
Definition open_wb (name : str) : M path := λ w,
  let w := log (EvOpen name) w in
  let p := components name in
  match name_error name with
  | Some e => (Raised e, w)
  | None =>
      if bool_decide (name = []) then
        (Raised (OSError (py "[Errno 2] No such file or directory")), w)
      else
        match descend (denied w) (fs w) [] (removelast p) with
        | Some e => (Raised e, w)
        | None =>
            if bool_decide (p = []) || bool_decide (last name = Some 0x2F%N)
               || is_dir (fs w) p
            then (Raised (OSError (py "[Errno 21] Is a directory")), w)
            else
              match denied w p with
              | Some msg => (Raised (OSError msg), w)
              | None =>
                  (Returned p,
                   set_disk (<[p := File []]> (fs w))
                     (free w + size_at (fs w) p)%N w)
              end
        end
  end.

(** [f.write(chunk)], the buffer of the file being flushed at once: when
    the disk is full the bytes for which there is room are stored and
    the [OSError] is raised.  (With the buffer the error may come at a
    later [write] or when the file is closed; the [with] block raises it
    all the same, and the file holds the same bytes.) *)
Definition write (f : path) (chunk : bytes) : M unit := λ w,
  match fs w !! f with
  | Some (File data) =>
      if (free w <? N.of_nat (length chunk))%N then
        (Raised (OSError (py "[Errno 28] No space left on device")),
         set_disk (<[f := File (data ++ take (N.to_nat (free w)) chunk)]> (fs w))
           0%N w)
      else
        (Returned tt,
         set_disk (<[f := File (data ++ chunk)]> (fs w))
                (free w - N.of_nat (length chunk))%N w)
  | _ => (Returned tt, w)
  end.

(** ** The [requests] library *)

(** [str(n)] for an integer *)
Definition str_of_Z (n : Z) : str := py (NilZero.string_of_int (Z.to_int n)).

(** [requests.get(url, stream=True, timeout=30)] *)
Definition requests_get (u : str) : M response := λ w,
  let n := length (sent w) in
  let w' := log (EvGet u) w in
  match net w n u with
  | NoResponse msg => (Raised (RequestException msg), w')
  | Response r => (Returned r, w')
  end.

(** [response.raise_for_status()] *)
Definition raise_for_status (r : response) : M unit :=
  if bool_decide (400 ≤ status_code r < 500)%Z then
    raise (RequestException
             (str_of_Z (status_code r) ++ py " Client Error: " ++ reason r
              ++ py " for url: " ++ url r))
  else if bool_decide (500 ≤ status_code r < 600)%Z then
    raise (RequestException
             (str_of_Z (status_code r) ++ py " Server Error: " ++ reason r
              ++ py " for url: " ++ url r))
  else mret tt.

(** [for chunk in chunks: f.write(chunk)] *)
Fixpoint write_chunks (f : path) (chunks : list bytes) : M unit :=
  match chunks with
  | [] => mret tt
  | chunk :: chunks' => write f chunk;; write_chunks f chunks'
  end.

(** [for chunk in response.iter_content(chunk_size=8192): f.write(chunk)]:
    the chunks that arrive are written, then the stream ends or breaks. *)
Definition save_content (f : path) (r : response) : M unit :=
  write_chunks f (content r);;
  match broken r with
  | Some msg => raise (RequestException msg)
  | None => mret tt
  end.

(** ** The fetcher *)

Section Fetcher.
Context `{Library}.

Definition download_pdf (k_number base_url output_dir : str) : M outcome :=
  let k_number := normalize k_number in
  let year := year_of k_number in
  let url := urljoin base_url (py "pdf" ++ year ++ py "/" ++ k_number ++ py ".pdf") in
  let output_path := path_join output_dir (k_number ++ py ".pdf") in
  try_except
    (response ← requests_get url;
     raise_for_status response;;
     f ← open_wb output_path;
     save_content f response;;
     mret (k_number, true, output_path))
    (λ e, if is_RequestException e
          then Some (mret (k_number, false, exn_str e))
          else None).
End Fetcher.

(** ** Dictionaries

    A Python [dict] keeps its keys in insertion order, and assigning to a
    key that is present replaces its value in place. *)
Fixpoint dict_set {K V} `{EqDecision K} (d : list (K * V)) (k : K) (v : V)
  : list (K * V) :=
  match d with
  | [] => [(k, v)]
  | (k', v') :: d' =>
      if decide (k = k') then (k, v) :: d' else (k', v') :: dict_set d' k v
  end.

(** [for key in d] *)
Definition dict_keys {K V} (d : list (K * V)) : list K := map fst d.

(** An entry of the report: [{"k_number": ..., "filepath": ...}] or
    [{"k_number": ..., "error": ...}]. *)
Definition entry := list (string * str).

(** [e[key]] *)
Fixpoint entry_get (key : string) (e : entry) : option str :=
  match e with
  | [] => None
  | (k, v) :: e' => if String.eqb k key then Some v else entry_get key e'
  end.

(** The report: [{"successful": [...], "failed": [...]}] *)
Record report := {
  successful : list entry;
  failed : list entry;
}.

(** ** The thread pool *)

(** [ThreadPoolExecutor(max_workers=n)] *)
Definition ThreadPoolExecutor (max_workers : Z) : M unit :=
  if bool_decide (max_workers ≤ 0)%Z then
    raise (ValueError (py "max_workers must be greater than 0"))
  else modify (set_executor max_workers []).

(** [executor.submit(download_pdf, k, base_url, output_dir)]: the new
    future is known by its number in submission order. *)
Definition submit (k base_url output_dir : str) : M nat := λ w,
  (Returned (length (futures w)),
   set_executor (workers w) (futures w ++ [Pending k base_url output_dir]) w).

(** The numbers of the futures that are not done, from number [i] on. *)
Fixpoint pending_from (i : nat) (l : list future) : list nat :=
  match l with
  | [] => []
  | Pending _ _ _ :: l' => i :: pending_from (S i) l'
  | Done _ :: l' => pending_from (S i) l'
  end.

(** The workers take the tasks in submission order, so the tasks being
    run are the first [workers] ones that are not done. *)
Definition running (w : world) : list nat :=
  take (Z.to_nat (workers w)) (pending_from 0 (futures w)).

Definition next_choice : M nat := λ w,
  match sched w with
  | [] => (Returned 0, w)
  | c :: s => (Returned c, set_sched s w)
  end.

Section Coordinator.
Context `{Library}.

(** A worker runs the task of future [i] and stores what it returned or
    raised in the future.  A fetch takes effect in one step, when it
    completes. *)
Definition run_task (i : nat) : M unit := λ w,
  match futures w !! i with
  | Some (Pending k base_url output_dir) =>
      let '(r, w') := download_pdf k base_url output_dir w in
      (Returned tt,
       log (EvDone i)
           (set_executor (workers w') (<[i := Done r]> (futures w')) w'))
  | _ => (Returned tt, w)
  end.

(** The next completion: the scheduler chooses among the running
    tasks. *)
Definition complete_one : M unit :=
  run ← get running;
  match run with
  | [] => mret tt
  | _ =>
      c ← next_choice;
      match run !! (c mod length run) with
      | Some i => run_task i
      | None => mret tt
      end
  end.

(** Blocks until future [i] is done; other tasks may complete
    meanwhile. *)
Fixpoint wait (fuel i : nat) : M unit :=
  match fuel with
  | 0 => mret tt
  | S fuel' =>
      l ← get futures;
      match l !! i with
      | Some (Pending _ _ _) => complete_one;; wait fuel' i
      | _ => mret tt
      end
  end.

(** [future.result()]: the value the task returned, or the exception it
    raised, raised again.  Each completion finishes one task, so the
    number of futures bounds the wait. *)
Definition future_result (i : nat) : M outcome :=
  n ← get (λ w, length (futures w));
  wait n i;;
  l ← get futures;
  match l !! i with
  | Some (Done (Returned o)) => mret o
  | Some (Done (Raised e)) => raise e
  | _ => raise (RuntimeError (py "future is not done"))
  end.

(** [executor.shutdown(wait=True)], which leaving the [with] block
    calls: every submitted task is run to its end. *)
Fixpoint drain (fuel : nat) : M unit :=
  match fuel with
  | 0 => mret tt
  | S fuel' => complete_one;; drain fuel'
  end.

Definition shutdown : M unit :=
  n ← get (λ w, length (futures w));
  drain n.

(** ** The batch coordinator *)

(** Lines 65-67: [{executor.submit(download_pdf, k, base_url,
    output_dir): k for k in k_numbers}] *)
Fixpoint submit_all (k_numbers : list str) (base_url output_dir : str)
    (future_to_k : list (nat * str)) : M (list (nat * str)) :=
  match k_numbers with
  | [] => mret future_to_k
  | k :: k_numbers' =>
      future ← submit k base_url output_dir;
      submit_all k_numbers' base_url output_dir (dict_set future_to_k future k)
  end.

(** Lines 69-74: the loop over the futures *)
Fixpoint collect (keys : list nat) (results : report) : M report :=
  match keys with
  | [] => mret results
  | future :: keys' =>
      '(k_number, success, result) ← future_result future;
      if success : bool then
        collect keys'
          {| successful := successful results
               ++ [[("k_number"%string, k_number); ("filepath"%string, result)]];
             failed := failed results |}
      else
        collect keys'
          {| successful := successful results;
             failed := failed results
               ++ [[("k_number"%string, k_number); ("error"%string, result)]] |}
  end.

Definition print (line : str) : M unit := modify (log (EvPrint line)).

Definition download_fda_pdfs (k_numbers : list str) (output_dir : str)
    (max_workers : Z) : M report :=
  let base_url := py "https://www.accessdata.fda.gov/cdrh_docs/" in
  makedirs output_dir;;
  let results := {| successful := []; failed := [] |} in
  ThreadPoolExecutor max_workers;;
  results ← try_finally
    (future_to_k ← submit_all k_numbers base_url output_dir [];
     collect (dict_keys future_to_k) results)
    shutdown;
  print (py "Download complete: "
         ++ str_of_Z (Z.of_nat (length (successful results)))
         ++ py " successful, "
         ++ str_of_Z (Z.of_nat (length (failed results)))
         ++ py " failed");;
  mret results.
End Coordinator.

(** The defaults of [download_fda_pdfs]'s optional arguments *)
Definition default_output_dir : str := py "fda_pdfs".
Definition default_max_workers : Z := 5.


(** ** What the properties below assume of the Unicode table

    Uppercasing is stable: a character that [str.upper] produces is
    mapped to itself.  And it keeps the end of a string clear of
    whitespace: a character that is not whitespace becomes a string that
    is not empty and does not end in whitespace.  Both hold of the
    Unicode case mapping. *)
Definition upper_stable `{Library} : Prop :=
  ∀ c d, (128 ≤ c)%N → d ∈ unicode_upper c → upper_char d = [d].

Definition upper_keeps_end `{Library} : Prop :=
  ∀ c, (128 ≤ c)%N → isspace c = false →
       ∃ d, last (unicode_upper c) = Some d ∧ isspace d = false.

(** ** Relations between the states of a run *)

(** The parts of the state a fetch does not touch. *)
Definition same_pool (w w' : world) : Prop :=
  net w' = net w ∧ sched w' = sched w
  ∧ workers w' = workers w ∧ futures w' = futures w.

(** No directory has gone. *)
Definition keeps_dirs (w w' : world) : Prop :=
  ∀ p, is_dir (fs w) p = true → is_dir (fs w') p = true.

(** The text of the [HTTPError] that [raise_for_status] raises for a
    response with an error status. *)
Definition http_error_text (r : response) : str :=
  str_of_Z (status_code r)
  ++ (if bool_decide (400 ≤ status_code r < 500)%Z
      then py " Client Error: " else py " Server Error: ")
  ++ reason r ++ py " for url: " ++ url r.

(** The ways the network makes a fetch fail, with the error text: the
    request gets no response; the response has an error status; the body
    breaks off. *)
Inductive network_failure : reply → str → Prop :=
| nf_no_response msg :
    network_failure (NoResponse msg) msg
| nf_status r :
    (400 ≤ status_code r < 600)%Z →
    network_failure (Response r) (http_error_text r)
| nf_broken r msg :
    ¬ (400 ≤ status_code r < 600)%Z → broken r = Some msg →
    network_failure (Response r) msg.

(** The response that lets a fetch succeed. *)
Definition good_reply (rep : reply) : Prop :=
  ∃ r, rep = Response r ∧ ¬ (400 ≤ status_code r < 600)%Z ∧ broken r = None.

(** ** Concrete servers and states, for the runs evaluated below *)

Definition base_url : str := py "https://www.accessdata.fda.gov/cdrh_docs/".

(** A response with status 200 and a small body. *)
Definition found (u : str) : response :=
  {| status_code := 200; reason := py "OK"; url := u;
     content := [[Byte.x25; Byte.x50; Byte.x44; Byte.x46]]; broken := None |}.

(** A response with status 404. *)
Definition not_found (u : str) : response :=
  {| status_code := 404; reason := py "Not Found"; url := u;
     content := []; broken := None |}.

(** A server that has every document. *)
Definition generous_server (n : nat) (u : str) : reply := Response (found u).

(** A server that has the document K241380 and nothing else. *)
Definition mock_server (n : nat) (u : str) : reply :=
  if bool_decide (u = base_url ++ py "pdf24/K241380.pdf")
  then Response (found u) else Response (not_found u).

(** A server that answers the first request and not the second. *)
Definition flaky_server (n : nat) (u : str) : reply :=
  match n with
  | 0 => Response (found u)
  | _ => NoResponse (py "Connection refused")
  end.

(** A machine with an empty working directory. *)
Definition fresh (server : nat → str → reply) (choices : list nat) : world :=
  {| fs := ∅; free := 1000000; denied := λ _, None; net := server;
     sched := choices; trace := []; workers := 0; futures := [] |}.

(** ** The invariant of the pool *)

Section PoolInvariant.
Context `{Library}.

(** [r] is what a fetch of [k] gave, in some state of the machine. *)
Definition fetched (base dir k : str) (r : result outcome) : Prop :=
  ∃ w w', download_pdf k base dir w = (r, w').

(** A future of identifier [k] holds the arguments of its fetch, or
    what that fetch gave. *)
Definition future_of (base dir k : str) (f : future) : Prop :=
  f = Pending k base dir ∨ ∃ r, f = Done r ∧ fetched base dir k r.

(** The futures of the executor are those of the identifiers [ks], in
    submission order. *)
Definition pool_of (base dir : str) (ks : list str) (w : world) : Prop :=
  Forall2 (future_of base dir) ks (futures w).

(** What the steps of the pool keep. *)
Definition evolves (w w' : world) : Prop :=
  workers w' = workers w
  ∧ length (futures w') = length (futures w)
  ∧ keeps_dirs w w'
  ∧ (∃ t, trace w' = trace w ++ t)
  ∧ ∀ base dir ks, pool_of base dir ks w → pool_of base dir ks w'.
End PoolInvariant.

(** The number of futures that are not done. *)
Definition npending (l : list future) : nat := length (pending_from 0 l).

(** The entry an outcome adds to the list of successes, and to the list
    of failures. *)
Definition success_entry (o : outcome) : option entry :=
  let '(k_number, success, result) := o in
  if success : bool
  then Some [("k_number"%string, k_number); ("filepath"%string, result)]
  else None.

Definition failure_entry (o : outcome) : option entry :=
  let '(k_number, success, result) := o in
  if success : bool
  then None
  else Some [("k_number"%string, k_number); ("error"%string, result)].

(** The identifier of an outcome. *)
Definition outcome_id (o : outcome) : str := o.1.1.

(** The identifiers of the entries of a list of the report. *)
Definition ids (l : list entry) : list (option str) :=
  entry_get "k_number" <$> l.

(** The identifiers of the fetches in the order in which they completed,
    [ks] being the identifiers in submission order. *)
Definition completion_order `{Library} (ks : list str) (w : world)
  : list (option str) :=
  (λ i, normalize <$> ks !! i) <$> completed w.

(** Why a batch raises [e] instead of returning its report: the output
    directory cannot be made; the pool is given no worker; or one of the
    fetches raised [e]. *)
Definition fatal `{Library} (ks : list str) (dir : str) (m : Z) (w : world)
    (e : exn) : Prop :=
  (makedirs dir w).1 = Raised e
  ∨ ((m ≤ 0)%Z ∧ e = ValueError (py "max_workers must be greater than 0"))
  ∨ ∃ k, k ∈ ks ∧ fetched base_url dir k (Raised e).

(** The same within one run: [e] is what making the directory raised,
    or what the executor raised, the directory made, for a number of
    workers that is not positive, or, the directory made and the pool
    started, what the fetch of one of the identifiers raised in a state
    of the run: on the same network and system, [p] requests of the
    batch made before its own. *)
Definition raised_in_run `{Library} (ks : list str) (dir : str) (m : Z)
    (w : world) (e : exn) : Prop :=
  (makedirs dir w).1 = Raised e
  ∨ ((makedirs dir w).1 = Returned tt ∧ (m ≤ 0)%Z
     ∧ e = ValueError (py "max_workers must be greater than 0"))
  ∨ ((makedirs dir w).1 = Returned tt ∧ (0 < m)%Z
     ∧ ∃ p i k v,
         p < length ks ∧ ks !! i = Some k
         ∧ net v = net w ∧ denied v = denied w
         ∧ length (sent v) = length (sent w) + p
         ∧ (download_pdf k base_url dir v).1 = Raised e).

(** ** The fetch, step by step *)

(** The number of bytes of a body. *)
Definition total (chunks : list bytes) : N := N.of_nat (length (concat chunks)).

(** The state with the thread scheduler and the executor replaced: a
    fetch neither reads nor writes them. *)
Definition reframe (s : list nat) (n : Z) (l : list future) (w : world)
  : world :=
  {| fs := fs w; free := free w; denied := denied w; net := net w; sched := s;
     trace := trace w; workers := n; futures := l |}.

(** Two states with the same disk, the same system, the same server and
    the same past. *)
Definition disk_eq (w v : world) : Prop :=
  fs w = fs v ∧ free w = free v ∧ denied w = denied v ∧ net w = net v
  ∧ trace w = trace v.

Section FetchSteps.
Context `{Library}.

(** [download_pdf] with its monad unfolded: the request; on a good
    status the file is opened and the chunks are written; the exceptions
    of [open] and [write] pass through the [except] clause. *)
Definition fetch_steps (k_number base_url output_dir : str) (w : world)
  : result outcome * world :=
  let k_number := normalize k_number in
  let u := pdf_url base_url k_number in
  let output_path := path_join output_dir (k_number ++ py ".pdf") in
  let w1 := log (EvGet u) w in
  match net w (length (sent w)) u with
  | NoResponse msg => (Returned (k_number, false, msg), w1)
  | Response r =>
      if bool_decide (400 ≤ status_code r < 600)%Z then
        (Returned (k_number, false, http_error_text r), w1)
      else
        match open_wb output_path w1 with
        | (Raised e, w2) => (Raised e, w2)
        | (Returned f, w2) =>
            match write_chunks f (content r) w2 with
            | (Raised e, w3) => (Raised e, w3)
            | (Returned _, w3) =>
                match broken r with
                | Some msg => (Returned (k_number, false, msg), w3)
                | None => (Returned (k_number, true, output_path), w3)
                end
            end
        end
  end.
End FetchSteps.

(** A machine whose working directory holds the directory [out], with
    an older copy of a document in it. *)
Definition ready (server : nat → str → reply) (space : N) : world :=
  {| fs := {[ [py "out"] := Dir;
              [py "out"; py "K241380.pdf"] := File [Byte.x6f; Byte.x6c; Byte.x64] ]};
     free := space; denied := λ _, None; net := server; sched := [];
     trace := []; workers := 0; futures := [] |}.

(** A response with status 200 whose body breaks off after one chunk. *)
Definition cut_off (u : str) : response :=
  {| status_code := 200; reason := py "OK"; url := u;
     content := [[Byte.x25; Byte.x50]];
     broken := Some (py "Connection broken") |}.

Definition breaking_server (n : nat) (u : str) : reply := Response (cut_off u).

Definition dead_server (n : nat) (u : str) : reply :=
  NoResponse (py "Connection refused").

(** The small letter of an ASCII capital; other characters are kept. *)
Definition ascii_lower (c : char) : char :=
  if ((0x41 <=? c) && (c <=? 0x5A))%N then (c + 32)%N else c.

(** ** The batch as a sequence of fetches *)

Section Sequential.
Context `{Library}.

(** The fetch of future [i] runs to its end: what a worker does, without
    the scheduler. *)
Definition seq_step (st : list future * world) (i : nat)
  : list future * world :=
  match st.1 !! i with
  | Some (Pending k base_url output_dir) =>
      (<[i := Done (download_pdf k base_url output_dir st.2).1]> st.1,
       log (EvDone i) (download_pdf k base_url output_dir st.2).2)
  | _ => st
  end.

(** The fetches run one after another, in the given order. *)
Definition run_in_order (order : list nat) (l : list future) (w : world)
  : list future * world :=
  foldl seq_step (l, w) order.

(** The futures of a batch when nothing has run. *)
Definition submitted (ks : list str) (base dir : str) : list future :=
  (λ k, Pending k base dir) <$> ks.

(** The pool has completed the fetches of [order], in this order, since
    the state [w0] in which the tasks were submitted: its futures and
    its disk are those of the fetches run one after another, and every
    task that completed was among the first [workers] ones that were
    not done. *)
Definition tracks (ks : list str) (base dir : str) (w0 : world)
    (order : list nat) (w : world) : Prop :=
  NoDup order
  ∧ futures w = (run_in_order order (submitted ks base dir) w0).1
  ∧ disk_eq w (run_in_order order (submitted ks base dir) w0).2
  ∧ workers w = workers w0
  ∧ ∀ p i, order !! p = Some i →
           i < length ks ∧ (Z.of_nat i < Z.of_nat p + workers w0)%Z.
End Sequential.

(** The number of futures that are done. *)
Fixpoint ndone (l : list future) : nat :=
  match l with
  | [] => 0
  | Pending _ _ _ :: l' => ndone l'
  | Done _ :: l' => S (ndone l')
  end.

(** The results that are in [l] are in [l'] too. *)
Definition extends (l l' : list future) : Prop :=
  ∀ i r, l !! i = Some (Done r) → l' !! i = Some (Done r).

(** Lines 69-74 on futures that are done: the report, or the exception
    of the first future that holds one. *)
Fixpoint gather (l : list future) (results : report) : result report :=
  match l with
  | [] => Returned results
  | Done (Returned (k_number, success, result)) :: l' =>
      if success : bool then
        gather l'
          {| successful := successful results
               ++ [[("k_number"%string, k_number);
                    ("filepath"%string, result)]];
             failed := failed results |}
      else
        gather l'
          {| successful := successful results;
             failed := failed results
               ++ [[("k_number"%string, k_number); ("error"%string, result)]] |}
  | Done (Raised e) :: _ => Raised e
  | Pending _ _ _ :: _ => Raised (RuntimeError (py "future is not done"))
  end.

(** Lines 77-79: the line that is printed *)
Definition summary_line (results : report) : str :=
  py "Download complete: "
  ++ str_of_Z (Z.of_nat (length (successful results)))
  ++ py " successful, "
  ++ str_of_Z (Z.of_nat (length (failed results)))
  ++ py " failed".

(** A machine with an empty working directory and a small disk. *)
Definition cramped (server : nat → str → reply) (choices : list nat)
    (space : N) : world :=
  {| fs := ∅; free := space; denied := λ _, None; net := server;
     sched := choices; trace := []; workers := 0; futures := [] |}.

(** ** The script (lines 85-101) *)

(** How the script ends: at its last line, with an exception of the
    batch, or with the [KeyError] of an entry that lacks a key. *)
Inductive exit :=
  | Finished
  | Uncaught (e : exn)
  | KeyError (key : string).

(** [f"  - {item[a]}: {item[b]}"], or the key that is missing *)
Definition item_line (a b : string) (item : entry) : string + str :=
  match entry_get a item with
  | None => inl a
  | Some x =>
      match entry_get b item with
      | None => inl b
      | Some y => inr (py "  - " ++ x ++ py ": " ++ y)
      end
  end.

(** [for item in items: print(f"  - {item[a]}: {item[b]}")] *)
Fixpoint print_items (a b : string) (items : list entry) (w : world)
  : exit * world :=
  match items with
  | [] => (Finished, w)
  | item :: items' =>
      match item_line a b item with
      | inl key => (KeyError key, w)
      | inr line => print_items a b items' (log (EvPrint line) w)
      end
  end.

(** Lines 92-101, for the list of line 87 *)
Definition script `{Library} (k_numbers : list str) (w : world)
  : exit * world :=
  match download_fda_pdfs k_numbers default_output_dir default_max_workers w
  with
  | (Raised e, w) => (Uncaught e, w)
  | (Returned results, w) =>
      let w := log (EvPrint (10%N :: py "Successful downloads:")) w in
      match print_items "k_number" "filepath" (successful results) w with
      | (Finished, w) =>
          let w := log (EvPrint (10%N :: py "Failed downloads:")) w in
          print_items "k_number" "error" (failed results) w
      | stop => stop
      end
  end.

Definition main `{Library} : world → exit * world := script [py "K241380"].

(** The line of the listing for an outcome with the flag [a]. *)
Definition listed (a : bool) (o : outcome) : option str :=
  let '(k_number, success, result) := o in
  if Bool.eqb success a
  then Some (py "  - " ++ k_number ++ py ": " ++ result)
  else None.

Definition print_all (lines : list str) (w : world) : world :=
  foldl (λ w line, log (EvPrint line) w) w lines.

(** ** The outcome that a reply of the server leads to *)

(** Lines 30-41: what a fetch returns, when it returns, for the reply
    to its request. *)
Definition reply_outcome (k_number output_path : str) (rep : reply)
  : outcome :=
  match rep with
  | NoResponse msg => (k_number, false, msg)
  | Response r =>
      if bool_decide (400 ≤ status_code r < 600)%Z
      then (k_number, false, http_error_text r)
      else match broken r with
           | Some msg => (k_number, false, msg)
           | None => (k_number, true, output_path)
           end
  end.

(** The outcome for the identifier [k] of a batch, the server answering
    the request for a URL with [server url]. *)
Definition expected `{Library} (server : str → reply) (dir k : str)
  : outcome :=
  reply_outcome (normalize k) (path_join dir (normalize k ++ py ".pdf"))
    (server (pdf_url base_url (normalize k))).

(** ** When the output directory can be made *)

(** [os.makedirs(name, exist_ok=True)] has what it needs: a name that is
    not empty and that Python takes, no [..] in it (which is a name like
    another here), and on the way down no entry that the system refuses
    and no file. *)
Definition creatable (w : world) (name : str) : Prop :=
  name ≠ [] ∧ name_error name = None ∧ (py ".." ∉ pieces name)
  ∧ ∀ pre, pre ≠ [] → pre `prefix_of` components name →
           denied w pre = None ∧ ∀ data, fs w !! pre ≠ Some (File data).

(** A machine with an empty working directory in which nothing may be
    made. *)
Definition read_only (server : nat → str → reply) : world :=
  {| fs := ∅; free := 1000000;
     denied := λ _, Some (py "[Errno 13] Permission denied");
     net := server; sched := []; trace := []; workers := 0; futures := [] |}.
(** * Properties *)

(** ** Strings *)

Lemma isspace_iff (c : char) :
  isspace c = true ↔
  (0x09 ≤ c ≤ 0x0D ∨ 0x1C ≤ c ≤ 0x20 ∨ c = 0x85 ∨ c = 0xA0 ∨ c = 0x1680
   ∨ 0x2000 ≤ c ≤ 0x200A ∨ c = 0x2028 ∨ c = 0x2029 ∨ c = 0x202F
   ∨ c = 0x205F ∨ c = 0x3000)%N.
Proof.
  unfold isspace.
  rewrite !orb_true_iff, !andb_true_iff, !N.leb_le, !N.eqb_eq. tauto.
Qed.

Lemma isspace_false_iff (c : char) :
  isspace c = false ↔
  ¬ (0x09 ≤ c ≤ 0x0D ∨ 0x1C ≤ c ≤ 0x20 ∨ c = 0x85 ∨ c = 0xA0 ∨ c = 0x1680
     ∨ 0x2000 ≤ c ≤ 0x200A ∨ c = 0x2028 ∨ c = 0x2029 ∨ c = 0x202F
     ∨ c = 0x205F ∨ c = 0x3000)%N.
Proof. rewrite <- isspace_iff. destruct (isspace c); intuition congruence. Qed.

(** [lstrip] removes a run of whitespace in front, and all of it. *)
Lemma lstrip_spec (s : str) :
  ∃ l, s = l ++ lstrip s ∧ Forall (λ c, isspace c = true) l
       ∧ ∀ c, head (lstrip s) = Some c → isspace c = false.
Proof.
  induction s as [|a s (l & Hs & Hl & Hh)]; simpl.
  - exists []. repeat split; [constructor | discriminate].
  - destruct (isspace a) eqn:Ha.
    + exists (a :: l). repeat split; [by rewrite Hs at 1 | by constructor | done].
    + exists []. repeat split; [constructor | simpl; congruence].
Qed.

(** [rstrip] removes a run of whitespace at the end, and all of it. *)
Lemma rstrip_spec (s : str) :
  ∃ r, s = rstrip s ++ r ∧ Forall (λ c, isspace c = true) r
       ∧ ∀ c, last (rstrip s) = Some c → isspace c = false.
Proof.
  induction s as [|a s (r & Hs & Hr & Hl)]; simpl.
  - exists []. repeat split; [constructor | discriminate].
  - destruct (rstrip s) as [|b t] eqn:Ht.
    + destruct (isspace a) eqn:Ha.
      * exists (a :: r). simpl in Hs. subst s.
        repeat split; [by constructor | discriminate].
      * exists r. simpl in Hs. subst s.
        repeat split; [done | simpl; congruence].
    + exists r. repeat split; [by rewrite Hs at 1 | done |].
      intros c Hc. apply Hl. by rewrite last_cons_cons in Hc.
Qed.

Lemma lstrip_id (s : str) :
  (∀ c, head s = Some c → isspace c = false) → lstrip s = s.
Proof.
  destruct s as [|a s]; [done|]. simpl. intros Hh.
  by rewrite (Hh a eq_refl).
Qed.

Lemma rstrip_id (s : str) :
  (∀ c, last s = Some c → isspace c = false) → rstrip s = s.
Proof.
  induction s as [|a s IH]; [done|]. intros Hl. simpl.
  destruct s as [|b t].
  - simpl. by rewrite (Hl a eq_refl).
  - rewrite IH; [done|]. intros c Hc. apply Hl. by rewrite last_cons_cons.
Qed.

Lemma head_rstrip (s : str) (c : char) :
  head (rstrip s) = Some c → head s = Some c.
Proof.
  destruct s as [|a s]; [done|]. simpl.
  destruct (rstrip s); [destruct (isspace a)|]; simpl; congruence.
Qed.

(** What [strip] returns has no whitespace at either end. *)
Lemma strip_ends (s : str) (c : char) :
  head (strip s) = Some c ∨ last (strip s) = Some c → isspace c = false.
Proof.
  unfold strip. intros [Hc|Hc].
  - destruct (lstrip_spec s) as (l & _ & _ & Hh). by apply Hh, head_rstrip.
  - destruct (rstrip_spec (lstrip s)) as (r & _ & _ & Hl). by apply Hl.
Qed.

Lemma strip_id (s : str) :
  (∀ c, head s = Some c ∨ last s = Some c → isspace c = false) →
  strip s = s.
Proof.
  intros Hs. unfold strip.
  rewrite lstrip_id by (intros; apply Hs; by left).
  apply rstrip_id. intros; apply Hs; by right.
Qed.

(** [strip] cuts whitespace, and only whitespace, off both ends. *)
Lemma strip_spec (s : str) :
  ∃ l r, s = l ++ strip s ++ r
         ∧ Forall (λ c, isspace c = true) l
         ∧ Forall (λ c, isspace c = true) r.
Proof.
  destruct (lstrip_spec s) as (l & Hs & Hl & _).
  destruct (rstrip_spec (lstrip s)) as (r & Hs' & Hr & _).
  exists l, r. unfold strip. by rewrite <- Hs'.
Qed.

Lemma strip_all_space (s : str) :
  Forall (λ c, isspace c = true) s → strip s = [].
Proof.
  intros Hs. unfold strip.
  assert (lstrip s = []) as ->; [|done].
  induction Hs as [|c s Hc _ IH]; simpl; [done|]. by rewrite Hc.
Qed.

Lemma startswith_K (s : str) :
  startswith s (py "K") = true ↔ head s = Some 0x4B%N.
Proof.
  change (py "K") with [0x4B%N].
  destruct s as [|c s]; simpl; [split; discriminate|].
  rewrite andb_true_r, N.eqb_eq. split; [by intros ->|by intros [= ->]].
Qed.

(** ** Uppercasing *)

Section Upper.
Context `{Library}.

Lemma upper_char_ascii (c : char) :
  (c < 128)%N →
  upper_char c = [if ((0x61 <=? c) && (c <=? 0x7A))%N then (c - 32)%N else c].
Proof.
  intros Hc. unfold upper_char.
  destruct (N.ltb_spec c 128) as [_|?]; [|lia].
  by destruct ((0x61 <=? c) && (c <=? 0x7A))%N.
Qed.

Lemma upper_app (s t : str) : upper (s ++ t) = upper s ++ upper t.
Proof. unfold upper. apply flat_map_app. Qed.

Lemma upper_char_stable (c d : char) :
  upper_stable → d ∈ upper_char c → upper_char d = [d].
Proof.
  intros Hst Hd. destruct (N.lt_ge_cases c 128) as [Hc|Hc].
  - rewrite upper_char_ascii in Hd by done.
    apply list_elem_of_singleton in Hd. subst d.
    destruct (N.leb_spec 0x61 c), (N.leb_spec c 0x7A); simpl;
      rewrite upper_char_ascii by lia.
    + destruct (N.leb_spec 0x61 (c - 32)); simpl; [lia | done].
    + destruct (N.leb_spec 0x61 c), (N.leb_spec c 0x7A); simpl; done || lia.
    + destruct (N.leb_spec 0x61 c), (N.leb_spec c 0x7A); simpl; done || lia.
    + destruct (N.leb_spec 0x61 c), (N.leb_spec c 0x7A); simpl; done || lia.
  - apply (Hst c d Hc). unfold upper_char in Hd.
    by destruct (N.ltb_spec c 128); [lia|].
Qed.

(** Uppercasing twice is uppercasing once. *)
Lemma upper_upper (s : str) : upper_stable → upper (upper s) = upper s.
Proof.
  intros Hst. induction s as [|c s IH]; [done|].
  change (upper (c :: s)) with (upper_char c ++ upper s).
  rewrite upper_app, IH. f_equal.
  assert (∀ t, (∀ d, d ∈ t → upper_char d = [d]) → upper t = t) as Hid.
  { induction t as [|d t IHt]; [done|]. intros Ht.
    change (upper (d :: t)) with (upper_char d ++ upper t).
    rewrite Ht by left. rewrite IHt; [done|].
    intros; apply Ht; by right. }
  apply Hid. intros d Hd. by apply (upper_char_stable c).
Qed.

Lemma upper_char_end (c : char) :
  upper_keeps_end → isspace c = false →
  ∃ d, last (upper_char c) = Some d ∧ isspace d = false.
Proof.
  intros Hke Hc. destruct (N.lt_ge_cases c 128) as [Hlt|Hge].
  - rewrite upper_char_ascii by done. eexists; split; [done|].
    apply isspace_false_iff in Hc. apply isspace_false_iff.
    destruct (N.leb_spec 0x61 c), (N.leb_spec c 0x7A); simpl; lia.
  - unfold upper_char. destruct (N.ltb_spec c 128); [lia|]. by apply Hke.
Qed.

(** An uppercased string ends in whitespace only if the string did. *)
Lemma upper_end (s : str) (c : char) :
  upper_keeps_end →
  (∀ a, last s = Some a → isspace a = false) →
  last (upper s) = Some c → isspace c = false.
Proof.
  intros Hke Hs Hc.
  destruct s as [|a s _] using rev_ind; [done|].
  rewrite upper_app in Hc.
  destruct (upper_char_end a Hke) as (d & Hd & Hsp).
  { apply Hs. by rewrite last_snoc. }
  assert (upper [a] = upper_char a) as Hone by apply app_nil_r.
  rewrite Hone in Hc.
  destruct (upper_char a) as [|b t _] using rev_ind; [done|].
  rewrite app_assoc, last_snoc in Hc. rewrite last_snoc in Hd. congruence.
Qed.
End Upper.

(** The Latin-1 excerpt of the table meets the two assumptions. *)
Lemma latin1_upper_cases (c : char) :
  (c = 0xB5 ∧ latin1_upper c = [0x39C])%N
  ∨ (c = 0xDF ∧ latin1_upper c = [0x53; 0x53])%N
  ∨ (c = 0xFF ∧ latin1_upper c = [0x178])%N
  ∨ ((0xE0 ≤ c ≤ 0xFE)%N ∧ c ≠ 0xF7%N ∧ latin1_upper c = [(c - 32)%N])
  ∨ (c ≠ 0xB5%N ∧ c ≠ 0xDF%N ∧ c ≠ 0xFF%N
     ∧ ¬ ((0xE0 ≤ c ≤ 0xFE)%N ∧ c ≠ 0xF7%N) ∧ latin1_upper c = [c]).
Proof.
  unfold latin1_upper.
  destruct (N.eqb_spec c 0xB5); [by left|].
  destruct (N.eqb_spec c 0xDF); [by right; left|].
  destruct (N.eqb_spec c 0xFF); [by right; right; left|].
  destruct (N.leb_spec 0xE0 c), (N.leb_spec c 0xFE), (N.eqb_spec c 0xF7);
    simpl;
    first [ right; right; right; left; repeat split; (done || lia)
          | right; right; right; right; repeat split; (done || lia) ].
Qed.

Lemma latin1_upper_stable : @upper_stable latin1_library.
Proof.
  intros c d Hc Hd. simpl in Hd.
  assert (∀ x, (128 ≤ x)%N → @upper_char latin1_library x = latin1_upper x)
    as Hhigh.
  { intros x Hx. unfold upper_char. by destruct (N.ltb_spec x 128); [lia|]. }
  destruct (latin1_upper_cases c)
    as [[-> E]|[[-> E]|[[-> E]|[(Hr & Hn & E)|(H1 & H2 & H3 & H4 & E)]]]];
    rewrite E in Hd.
  - apply list_elem_of_singleton in Hd; subst d. reflexivity.
  - apply elem_of_cons in Hd as [Hd|Hd];
      [|apply list_elem_of_singleton in Hd]; subst d; reflexivity.
  - apply list_elem_of_singleton in Hd; subst d. reflexivity.
  - apply list_elem_of_singleton in Hd; subst d. rewrite Hhigh by lia.
    destruct (latin1_upper_cases (c - 32)%N)
      as [[? _]|[[? _]|[[? _]|[(? & _)|(_ & _ & _ & _ & E')]]]];
      done || lia.
  - apply list_elem_of_singleton in Hd; subst d. by rewrite Hhigh.
Qed.

Lemma latin1_upper_keeps_end : @upper_keeps_end latin1_library.
Proof.
  intros c Hc Hsp. simpl.
  destruct (latin1_upper_cases c)
    as [[-> E]|[[-> E]|[[-> E]|[(Hr & Hn & E)|(H1 & H2 & H3 & H4 & E)]]]];
    rewrite E; eexists; (split; [reflexivity|]); try reflexivity; [|done].
  apply isspace_false_iff. lia.
Qed.

(** ** Identifier normalisation *)

Section Normalize.
Context `{Library}.

Lemma normalize_cases (s : str) :
  normalize s =
    if bool_decide (head (upper (strip s)) = Some 0x4B%N)
    then upper (strip s) else 0x4B%N :: upper (strip s).
Proof.
  unfold normalize. case_bool_decide as Hk.
  - apply startswith_K in Hk. by rewrite Hk.
  - destruct (startswith _ _) eqn:E; [|done]. by apply startswith_K in E.
Qed.

Lemma normalize_head (s : str) : head (normalize s) = Some 0x4B%N.
Proof. rewrite normalize_cases. by case_bool_decide. Qed.

Lemma normalize_last (s : str) (c : char) :
  upper_keeps_end → last (normalize s) = Some c → isspace c = false.
Proof.
  intros Hke. rewrite normalize_cases.
  assert (∀ a, last (upper (strip s)) = Some a → isspace a = false) as Hu.
  { intros a. apply upper_end; [done|].
    intros b Hb. apply (strip_ends s). by right. }
  case_bool_decide; [apply Hu|].
  destruct (upper (strip s)) as [|a t] eqn:E.
  - by intros [= <-].
  - rewrite last_cons_cons. apply Hu.
Qed.
End Normalize.

(** C2: normalisation strips the whitespace at both ends (all of it, and
    nothing else), uppercases what is left (an ASCII letter becomes its
    capital, any other ASCII character stays), and puts the letter K in
    front exactly when the uppercased string does not start with K; so
    "241380" and " k241380 " both become "K241380". *)
Theorem normalize_spec `{Library} (s : str) :
  (∃ l r, s = l ++ strip s ++ r
          ∧ Forall (λ c, isspace c = true) l
          ∧ Forall (λ c, isspace c = true) r
          ∧ ∀ c, head (strip s) = Some c ∨ last (strip s) = Some c →
                 isspace c = false)
  ∧ (∀ c, (c < 128)%N →
          upper [c] = [if ((0x61 <=? c) && (c <=? 0x7A))%N
                       then (c - 32)%N else c])
  ∧ (∀ t u, upper (t ++ u) = upper t ++ upper u)
  ∧ normalize s =
      (if startswith (upper (strip s)) (py "K") then upper (strip s)
       else py "K" ++ upper (strip s))
  ∧ head (normalize s) = Some 0x4B%N
  ∧ normalize (py "241380") = py "K241380"
  ∧ normalize (py " k241380 ") = py "K241380".
Proof.
  repeat split.
  - destruct (strip_spec s) as (l & r & Hs & Hl & Hr).
    exists l, r. repeat split; try done. apply strip_ends.
  - intros c Hc. unfold upper. simpl. rewrite app_nil_r.
    by apply upper_char_ascii.
  - apply upper_app.
  - unfold normalize. by destruct (startswith _ _).
  - apply normalize_head.
Qed.

(** C9: normalising twice is normalising once, for every string, the
    Unicode table being stable under uppercasing. *)
Theorem normalize_idempotent `{Library} (s : str) :
  upper_stable → upper_keeps_end →
  normalize (normalize s) = normalize s.
Proof.
  intros Hst Hke.
  assert (strip (normalize s) = normalize s) as Hstrip.
  { apply strip_id. intros c [Hc|Hc].
    - rewrite normalize_head in Hc. by injection Hc as <-.
    - by apply (normalize_last s). }
  assert (upper (normalize s) = normalize s) as Hup.
  { rewrite (normalize_cases s). case_bool_decide.
    - by apply upper_upper.
    - change (upper (0x4B%N :: upper (strip s)))
        with (0x4B%N :: upper (upper (strip s))).
      by rewrite upper_upper. }
  rewrite (normalize_cases (normalize s)), Hstrip, Hup.
  by rewrite bool_decide_eq_true_2 by apply normalize_head.
Qed.

Lemma normalize_idempotent_witness :
  @normalize latin1_library (@normalize latin1_library (py " k241380 "))
  = @normalize latin1_library (py " k241380 ").
Proof.
  apply (@normalize_idempotent latin1_library).
  - apply latin1_upper_stable.
  - apply latin1_upper_keeps_end.
Defined.

(** ** The file system *)

Lemma is_dir_insert_file (f : gmap path node) (p q : path) (data : bytes) :
  is_dir f p = false ∨ (∃ old, f !! p = Some (File old)) →
  is_dir f q = true → is_dir (<[p := File data]> f) q = true.
Proof.
  intros Hp Hq. destruct q as [|c q]; [done|]. simpl in *.
  destruct (decide (p = c :: q)) as [->|Hne].
  - destruct Hp as [Hp|[old Hp]]; simpl in Hp.
    + by rewrite Hp in Hq.
    + by rewrite Hp in Hq.
  - by rewrite lookup_insert_ne.
Qed.

Lemma keeps_dirs_refl (w : world) : keeps_dirs w w.
Proof. by intros p. Qed.

Lemma keeps_dirs_trans (w1 w2 w3 : world) :
  keeps_dirs w1 w2 → keeps_dirs w2 w3 → keeps_dirs w1 w3.
Proof. intros H12 H23 p Hp. by apply H23, H12. Qed.

Lemma write_spec (f : path) (chunk : bytes) (w : world) :
  ∃ r w', write f chunk w = (r, w')
          ∧ trace w' = trace w ∧ same_pool w w' ∧ keeps_dirs w w'
          ∧ (r = Returned tt ∨ ∃ msg, r = Raised (OSError msg)).
Proof.
  unfold write. destruct (fs w !! f) as [[|data]|] eqn:E.
  1,3: eexists _, w; split_and!; eauto; [done|apply keeps_dirs_refl].
  destruct (free w <? N.of_nat (length chunk))%N.
  - eexists _, _. split_and!; eauto; [done|].
    intros p Hp. simpl. apply is_dir_insert_file; [|done]. right; eauto.
  - eexists _, _. split_and!; eauto; [done|].
    intros p Hp. simpl. apply is_dir_insert_file; [|done]. right; eauto.
Qed.

Lemma write_chunks_spec (f : path) (chunks : list bytes) (w : world) :
  ∃ r w', write_chunks f chunks w = (r, w')
          ∧ trace w' = trace w ∧ same_pool w w' ∧ keeps_dirs w w'
          ∧ (r = Returned tt ∨ ∃ msg, r = Raised (OSError msg)).
Proof.
  revert w. induction chunks as [|c cs IH]; intros w; simpl.
  - exists (Returned tt), w. split_and!; eauto; [done|apply keeps_dirs_refl].
  - destruct (write_spec f c w) as (r1 & w1 & E1 & Ht1 & Hs1 & Hd1 & Hr1).
    unfold mbind, M_bind. rewrite E1.
    destruct Hr1 as [->|[msg ->]].
    2: { eexists _, w1. split_and!; eauto. }
    destruct (IH w1) as (r2 & w2 & E2 & Ht2 & Hs2 & Hd2 & Hr2).
    exists r2, w2. rewrite E2.
    destruct Hs1 as (?&?&?&?), Hs2 as (?&?&?&?).
    split_and!; try congruence; [|by eapply keeps_dirs_trans].
    unfold same_pool. split_and!; congruence.
Qed.

(** What Python refuses in a name is a [ValueError] or a
    [UnicodeEncodeError], neither of them an exception of [requests]. *)
Lemma name_error_cases (name : str) (e : exn) :
  name_error name = Some e →
  e = UnicodeEncodeError (py "surrogates not allowed")
  ∨ e = ValueError (py "embedded null byte").
Proof.
  unfold name_error. destruct (forallb _ _); simpl.
  - destruct (existsb _ _); [|done]. intros [= <-]. by right.
  - intros [= <-]. by left.
Qed.

Lemma name_error_not_requests (name : str) (e : exn) :
  name_error name = Some e → is_RequestException e = false.
Proof. by intros [-> | ->]%name_error_cases. Qed.

(** The system's errors on the way down are [OSError]s. *)
Lemma descend_error (d : path → option str) (f : gmap path node)
    (todo at_ : path) (e : exn) :
  descend d f at_ todo = Some e → ∃ msg, e = OSError msg.
Proof.
  revert at_. induction todo as [|c todo IH]; intros at_; simpl; [done|].
  destruct (d (at_ ++ [c])) as [msg|]; [intros [= <-]; eauto|].
  destruct (f !! (at_ ++ [c])) as [[|data]|]; [apply IH|..];
    intros [= <-]; eauto.
Qed.

(** Going down succeeds when every directory on the way is there and
    may be entered. *)
Lemma descend_None (d : path → option str) (f : gmap path node)
    (todo at_ : path) :
  descend d f at_ todo = None ↔
  ∀ pre, pre ≠ [] → pre `prefix_of` todo →
         f !! (at_ ++ pre) = Some Dir ∧ d (at_ ++ pre) = None.
Proof.
  revert at_. induction todo as [|c todo IH]; intros at_; simpl.
  - split; [|done]. intros _ pre Hne Hpre. by apply prefix_nil_inv in Hpre.
  - split.
    + intros Hd pre Hne Hpre. destruct pre as [|c' pre]; [done|].
      apply prefix_cons_inv_1 in Hpre as Hc. subst c'.
      apply prefix_cons_inv_2 in Hpre.
      destruct (d (at_ ++ [c])) as [msg|] eqn:Ed; [done|].
      destruct (f !! (at_ ++ [c])) as [[|data]|] eqn:Ef; [|done..].
      destruct pre as [|c2 pre]; [done|].
      replace (at_ ++ c :: c2 :: pre) with ((at_ ++ [c]) ++ c2 :: pre)
        by (by rewrite <- app_assoc).
      by apply (proj1 (IH _) Hd).
    + intros Hall.
      destruct (Hall [c]) as [-> ->]; [done|by apply prefix_cons, prefix_nil|].
      apply IH. intros pre Hne Hpre. rewrite <- app_assoc.
      apply Hall; [done|]. by apply prefix_cons.
Qed.

Lemma open_wb_spec (name : str) (w : world) :
  ∃ r w', open_wb name w = (r, w')
          ∧ trace w' = trace w ++ [EvOpen name]
          ∧ same_pool w w' ∧ keeps_dirs w w'
          ∧ match r with
            | Returned f => True
            | Raised e => is_RequestException e = false
            end.
Proof.
  unfold open_wb. set (w1 := log (EvOpen name) w).
  assert (keeps_dirs w w1) as Hk by (by intros p).
  assert (same_pool w w1) as Hs by (by unfold same_pool).
  assert (trace w1 = trace w ++ [EvOpen name]) as Ht by done.
  destruct (name_error name) as [e|] eqn:En.
  { eexists _, _. split_and!; eauto. by eapply name_error_not_requests. }
  case_bool_decide.
  { eexists _, _. split_and!; eauto; done. }
  destruct (descend _ _ _ _) as [e|] eqn:Ed.
  { eexists _, _. split_and!; eauto.
    by destruct (descend_error _ _ _ _ _ Ed) as [msg ->]. }
  destruct (_ || _ || is_dir (fs w1) (components name)) eqn:E.
  { eexists _, _. split_and!; eauto; done. }
  destruct (denied w1 (components name)) as [msg|].
  { eexists _, _. split_and!; eauto; done. }
  eexists _, _. split_and!; eauto; [|done].
  intros p Hp. simpl. apply is_dir_insert_file; [|done]. left.
  by apply orb_false_iff in E as [_ ?].
Qed.

Lemma is_dir_lookup (f : gmap path node) (p : path) :
  p ≠ [] → is_dir f p = true ↔ f !! p = Some Dir.
Proof.
  destruct p as [|c p]; [done|]. intros _. unfold is_dir.
  destruct (f !! (c :: p)) as [[|data]|]; split; congruence.
Qed.

(** [mkdirs] changes no entry that is there; when it gets to the end
    every directory on the way is a directory that may be entered, no
    piece is a name that Python refuses, and the entries off the way
    are what they were. *)
Lemma mkdirs_spec (d : path → option str) (todo : list str) (at_ : path)
    (f f' : gmap path node) (r : option exn) :
  mkdirs d at_ todo f = (f', r) →
  (∀ p x, f !! p = Some x → f' !! p = Some x)
  ∧ (∀ q, (∀ pre, pre ≠ [] → pre `prefix_of` fsencode <$> todo →
                  q ≠ at_ ++ pre) → f' !! q = f !! q)
  ∧ match r with
    | None =>
        Forall (λ c, name_error c = None) todo
        ∧ ∀ pre, pre ≠ [] → pre `prefix_of` fsencode <$> todo →
                 f' !! (at_ ++ pre) = Some Dir ∧ d (at_ ++ pre) = None
    | Some e => is_RequestException e = false
    end.
Proof.
  revert at_ f. induction todo as [|c todo IH]; intros at_ f Hmk;
    simpl in Hmk.
  - injection Hmk as <- <-. split_and!; [done|done|done|].
    intros pre Hne Hpre. by apply prefix_nil_inv in Hpre.
  - destruct (name_error c) as [e|] eqn:En.
    { injection Hmk as <- <-. split_and!; [done|done|].
      by eapply name_error_not_requests. }
    destruct (d (at_ ++ [fsencode c])) as [msg|] eqn:Ed.
    { by injection Hmk as <- <-. }
    assert (∀ f1, (∀ p x, f !! p = Some x → f1 !! p = Some x) →
                  (∀ q, q ≠ at_ ++ [fsencode c] → f1 !! q = f !! q) →
                  f1 !! (at_ ++ [fsencode c]) = Some Dir →
                  mkdirs d (at_ ++ [fsencode c]) todo f1 = (f', r) →
                  (∀ p x, f !! p = Some x → f' !! p = Some x)
                  ∧ (∀ q, (∀ pre, pre ≠ [] →
                                  pre `prefix_of` fsencode <$> c :: todo →
                                  q ≠ at_ ++ pre) → f' !! q = f !! q)
                  ∧ match r with
                    | None =>
                        Forall (λ c, name_error c = None) (c :: todo)
                        ∧ ∀ pre, pre ≠ [] →
                                 pre `prefix_of` fsencode <$> c :: todo →
                                 f' !! (at_ ++ pre) = Some Dir
                                 ∧ d (at_ ++ pre) = None
                    | Some e => is_RequestException e = false
                    end) as Hstep.
    { intros f1 Hk1 Ho1 Hc1 Hmk1.
      destruct (IH _ _ Hmk1) as (Hk & Ho & Hr).
      split_and!.
      - intros p x Hp. by apply Hk, Hk1.
      - intros q Hq. rewrite Ho.
        + apply Ho1. apply Hq; [done|]. rewrite fmap_cons.
          by apply prefix_cons, prefix_nil.
        + intros pre Hne Hpre. rewrite <- app_assoc. apply Hq; [done|].
          rewrite fmap_cons. by apply prefix_cons.
      - destruct r as [e|]; [done|]. destruct Hr as [Hn Hpre].
        split; [by constructor|].
        intros pre Hne Hp'. destruct pre as [|c' pre]; [done|].
        rewrite fmap_cons in Hp'.
        apply prefix_cons_inv_1 in Hp' as Hc'. subst c'.
        apply prefix_cons_inv_2 in Hp'.
        destruct pre as [|c2 pre].
        + split; [|done]. apply Hk. done.
        + replace (at_ ++ fsencode c :: c2 :: pre)
            with ((at_ ++ [fsencode c]) ++ c2 :: pre)
            by (by rewrite <- app_assoc).
          by apply Hpre. }
    destruct (f !! (at_ ++ [fsencode c])) as [[|data]|] eqn:E.
    + by apply (Hstep f).
    + by injection Hmk as <- <-.
    + apply (Hstep (<[at_ ++ [fsencode c] := Dir]> f)); [| |by rewrite lookup_insert_eq|done].
      * intros p x Hp. rewrite lookup_insert_ne; [done|]. intros <-. congruence.
      * intros q Hq. by rewrite lookup_insert_ne.
Qed.

(** Making directories that are there changes nothing. *)
Lemma mkdirs_idem (d : path → option str) (todo : list str) (at_ : path)
    (f : gmap path node) :
  Forall (λ c, name_error c = None) todo →
  (∀ pre, pre ≠ [] → pre `prefix_of` fsencode <$> todo →
          f !! (at_ ++ pre) = Some Dir ∧ d (at_ ++ pre) = None) →
  mkdirs d at_ todo f = (f, None).
Proof.
  revert at_. induction todo as [|c todo IH]; intros at_ Hn Hall; simpl;
    [done|].
  apply Forall_cons in Hn as [-> Hn].
  destruct (Hall [fsencode c]) as [-> ->];
    [done|rewrite fmap_cons; by apply prefix_cons, prefix_nil|].
  apply IH; [done|]. intros pre Hne Hpre.
  rewrite <- app_assoc. apply Hall; [done|].
  rewrite fmap_cons. by apply prefix_cons.
Qed.

(** [mkdirs] gets to the end when no piece is a name that Python
    refuses and, on the way, the system refuses no entry and there is
    no file. *)
Lemma mkdirs_creates (d : path → option str) (todo : list str) (at_ : path)
    (f : gmap path node) :
  Forall (λ c, name_error c = None) todo →
  (∀ pre, pre ≠ [] → pre `prefix_of` fsencode <$> todo →
          d (at_ ++ pre) = None ∧ ∀ data, f !! (at_ ++ pre) ≠ Some (File data)) →
  (mkdirs d at_ todo f).2 = None.
Proof.
  revert at_ f. induction todo as [|c todo IH]; intros at_ f Hn Hall; simpl;
    [done|].
  apply Forall_cons in Hn as [-> Hn].
  destruct (Hall [fsencode c]) as [-> Hf];
    [done|rewrite fmap_cons; by apply prefix_cons, prefix_nil|].
  assert (∀ pre, pre ≠ [] → pre `prefix_of` fsencode <$> todo →
                 d ((at_ ++ [fsencode c]) ++ pre) = None
                 ∧ ∀ data, f !! ((at_ ++ [fsencode c]) ++ pre)
                           ≠ Some (File data)) as Hall'.
  { intros pre Hne Hpre. rewrite <- app_assoc. apply Hall; [done|].
    rewrite fmap_cons. by apply prefix_cons. }
  destruct (f !! (at_ ++ [fsencode c])) as [[|data]|] eqn:E.
  - by apply IH.
  - by destruct (Hf data).
  - apply IH; [done|]. intros pre Hne Hpre.
    destruct (Hall' pre Hne Hpre) as [Hd Hfile]. split; [done|].
    intros data. rewrite lookup_insert_ne; [apply Hfile|].
    intros Heq. apply (f_equal length) in Heq.
    rewrite (length_app _ pre) in Heq. destruct pre; [done|].
    simpl in Heq. lia.
Qed.

(** The characters of a name are those of its pieces and the slashes. *)
Lemma split_slash_chars (P : char → bool) (name : str) :
  P 0x2F%N = true →
  forallb P name = forallb (forallb P) (split_slash name).
Proof.
  intros Hs. induction name as [|c name IH]; [done|]. simpl.
  destruct (N.eqb_spec c 0x2F) as [->|Hne].
  - simpl. by rewrite Hs, IH.
  - rewrite IH. destruct (split_slash name) as [|p ps]; simpl.
    + by rewrite !andb_true_r.
    + by rewrite andb_assoc.
Qed.

Lemma forallb_pieces (P : char → bool) (name : str) :
  P 0x2F%N = true → P 0x2E%N = true →
  forallb P name = forallb (forallb P) (pieces name).
Proof.
  intros Hs Hd. rewrite (split_slash_chars P name Hs). unfold pieces.
  induction (split_slash name) as [|p ps IH]; [done|].
  rewrite filter_cons. simpl. case_decide as Hp.
  - simpl. by rewrite IH.
  - rewrite <- IH.
    assert (p = [] ∨ p = py ".") as [-> | ->];
      [|done|by change (py ".") with [0x2E%N]; simpl; rewrite Hd].
    destruct (decide (p = [])); [by left|]. right.
    destruct (decide (p = py ".")); [done|]. by destruct Hp.
Qed.

(** Python refuses a name when it refuses one of its pieces. *)
Lemma name_error_pieces (name : str) :
  name_error name = None ↔ Forall (λ c, name_error c = None) (pieces name).
Proof.
  assert (∀ s, name_error s = None
               ↔ forallb fs_encodable s = true
                 ∧ forallb (λ c, negb (c =? 0)%N) s = true) as Hchar.
  { intros s. unfold name_error.
    assert (existsb (λ c, c =? 0)%N s
            = negb (forallb (λ c, negb (c =? 0)%N) s)) as ->.
    { induction s as [|c s IH]; [done|]. simpl. rewrite IH.
      by destruct (c =? 0)%N. }
    destruct (forallb fs_encodable s), (forallb _ s); simpl; split;
      try done; by intros []. }
  rewrite Hchar.
  rewrite (forallb_pieces fs_encodable name), (forallb_pieces _ name)
    by done.
  induction (pieces name) as [|c l IH]; [by split; [constructor|]|].
  simpl. rewrite Forall_cons, <- IH, (Hchar c), !andb_true_iff. tauto.
Qed.

(** [os.makedirs(name, exist_ok=True)]: nothing that is there is
    changed; when it returns, [name] and the directories above it are
    directories, and calling it again changes nothing. *)
Lemma makedirs_spec (name : str) (w : world) :
  ∃ r w', makedirs name w = (r, w')
          ∧ trace w' = trace w ++ [EvMakedirs name]
          ∧ same_pool w w'
          ∧ match r with
            | Returned _ =>
                keeps_dirs w w'
                ∧ isdir w' name = true
                ∧ (∀ pre, pre `prefix_of` components name →
                          is_dir (fs w') pre = true)
                ∧ mkdirs (denied w') [] (pieces name) (fs w') = (fs w', None)
            | Raised e => is_RequestException e = false
            end.
Proof.
  unfold makedirs. set (w1 := log (EvMakedirs name) w).
  assert (same_pool w w1) as Hs by (by unfold same_pool).
  case_bool_decide as Hname.
  { eexists _, _. split_and!; eauto; done. }
  destruct (mkdirs (denied w1) [] (pieces name) (fs w1)) as [f' r] eqn:Emk.
  destruct (mkdirs_spec _ _ _ _ _ _ Emk) as (Hk & _ & Hr).
  destruct r as [e|].
  { eexists _, _. split_and!; eauto. }
  destruct Hr as [Hn Hpre].
  eexists _, _. split_and!; eauto.
  simpl.
  assert (∀ pre, pre `prefix_of` components name → is_dir f' pre = true)
    as Hall.
  { intros pre Hp. destruct pre as [|c pre]; [done|].
    apply is_dir_lookup; [done|]. by apply (Hpre (c :: pre)). }
  split_and!; try done.
  - intros p Hp. destruct p as [|c p]; [done|].
    apply is_dir_lookup; [done|]. apply Hk. by apply is_dir_lookup.
  - unfold isdir; simpl. rewrite (proj2 (name_error_pieces name) Hn).
    rewrite bool_decide_eq_false_2 by done. simpl.
    by rewrite (proj2 (descend_None (denied w) f' (components name) []) Hpre).
  - by apply mkdirs_idem.
Qed.

(** [os.makedirs] changes no entry that is there. *)
Lemma makedirs_keeps (name : str) (w : world) (p : path) (x : node) :
  fs w !! p = Some x → fs (makedirs name w).2 !! p = Some x.
Proof.
  intros Hp. unfold makedirs. case_bool_decide; [done|].
  destruct (mkdirs _ _ _ _) as [f' r] eqn:E.
  destruct (mkdirs_spec _ _ _ _ _ _ E) as (Hk & _).
  destruct r; simpl; by apply Hk.
Qed.

(** ** The fetcher *)

Section FetcherFacts.
Context `{Library}.

(** One fetch, case by case: the request is made; a failure of the
    network becomes a returned failure; on a good status the file is
    opened, and if that fails the exception of [open] is raised. *)
Lemma download_pdf_spec (k base dir : str) (w : world) :
  let nk := normalize k in
  let u := pdf_url base nk in
  let out := path_join dir (nk ++ py ".pdf") in
  let rep := net w (length (sent w)) u in
  ∃ r w' t,
    download_pdf k base dir w = (r, w')
    ∧ trace w' = trace w ++ EvGet u :: t
    ∧ (t = [] ∨ t = [EvOpen out])
    ∧ same_pool w w' ∧ keeps_dirs w w'
    ∧ match r with
      | Returned o =>
          (o = (nk, true, out) ∧ good_reply rep)
          ∨ (∃ msg, o = (nk, false, msg) ∧ network_failure rep msg)
      | Raised e =>
          is_RequestException e = false
          ∧ (∃ r, rep = Response r ∧ ¬ (400 ≤ status_code r < 600)%Z)
          ∧ t = [EvOpen out]
      end.
Proof.
  intros nk u out rep.
  unfold download_pdf, try_except, mbind, M_bind, requests_get.
  fold nk. change (urljoin base _) with u. fold out. fold rep.
  set (w1 := log (EvGet u) w).
  assert (keeps_dirs w w1) as Hk by (by intros p).
  assert (same_pool w w1) as Hs by (by unfold same_pool).
  destruct rep as [msg|r] eqn:Erep.
  { eexists _, _, []. split_and!; eauto. simpl. right. eexists; split; [done|].
    constructor. }
  unfold raise_for_status.
  case_bool_decide as H4.
  { eexists _, _, []. split_and!; eauto. simpl. right. eexists; split; [done|].
    replace (_ ++ _) with (http_error_text r).
    - constructor. lia.
    - unfold http_error_text. by rewrite bool_decide_eq_true_2. }
  case_bool_decide as H5.
  { eexists _, _, []. split_and!; eauto. simpl. right. eexists; split; [done|].
    replace (_ ++ _) with (http_error_text r).
    - constructor. lia.
    - unfold http_error_text. by rewrite bool_decide_eq_false_2. }
  assert (¬ (400 ≤ status_code r < 600)%Z) as Hok by lia.
  unfold mret at 1, M_ret at 1.
  destruct (open_wb_spec out w1) as (ro & w2 & Eo & Ht2 & Hs2 & Hk2 & Hro).
  rewrite Eo. destruct ro as [f|e].
  2: { rewrite Hro.
       eexists _, _, [EvOpen out]. split_and!; eauto.
       - rewrite Ht2. simpl. by rewrite <- app_assoc.
       - simpl. split_and!; eauto. }
  unfold save_content, mbind, M_bind.
  destruct (write_chunks_spec f (content r) w2)
    as (rw & w3 & Ew & Ht3 & Hs3 & Hk3 & Hrw).
  rewrite Ew.
  assert (same_pool w w3) as Hs13.
  { destruct Hs as (?&?&?&?), Hs2 as (?&?&?&?), Hs3 as (?&?&?&?).
    unfold same_pool; split_and!; congruence. }
  assert (keeps_dirs w w3) as Hk13.
  { apply (keeps_dirs_trans w w2 w3); [|done].
    by apply (keeps_dirs_trans w w1 w2). }
  assert (trace w3 = trace w ++ EvGet u :: [EvOpen out]) as Ht13.
  { rewrite Ht3, Ht2. simpl. by rewrite <- app_assoc. }
  destruct Hrw as [->|[msg ->]].
  2: { eexists _, _, _. split_and!; eauto. simpl. split_and!; eauto. }
  destruct (broken r) as [msg|] eqn:Eb; simpl.
  - eexists _, _, _. split_and!; eauto. right. eexists; split; [done|].
    by constructor.
  - eexists _, _, _. split_and!; eauto. left. split; [done|].
    by exists r.
Qed.
End FetcherFacts.

Section FetcherTheorems.
Context `{Library}.

Lemma sent_app (w : world) (t : list event) (w' : world) :
  trace w' = trace w ++ t →
  sent w' = sent w
            ++ omap (λ e, match e with EvGet u => Some u | _ => None end) t.
Proof. intros Ht. unfold sent. by rewrite Ht, omap_app. Qed.

(** A fetch makes one request, for the URL built from the normalised
    identifier. *)
Lemma download_pdf_sent (k base dir : str) (w : world) :
  sent (download_pdf k base dir w).2
  = sent w ++ [pdf_url base (normalize k)].
Proof.
  destruct (download_pdf_spec k base dir w)
    as (r & w' & t & E & Ht & Hcases & _).
  rewrite E. simpl. rewrite (sent_app w _ w' Ht).
  by destruct Hcases as [->| ->].
Qed.
End FetcherTheorems.

(** C3, as stated, fails on its example: the characters of K241380 at
    the indices 1 and 2 are 24, not 41. *)
Lemma year_of_K241380_not_41 :
  year_of (py "K241380") ≠ py "41"
  ∧ pdf_path (py "K241380") ≠ py "pdf41/K241380.pdf".
Proof. split; vm_compute; discriminate. Qed.

(** C3, amended: the URL is a function of the base location and the
    normalised identifier alone: the bucket is made of the characters of
    the identifier at the indices 1 and 2 (those that exist), and the
    URL is [pdf<bucket>/<identifier>.pdf] joined to the base; it is the
    one URL a fetch requests; for K241380 the bucket is 24 and the path
    is pdf24/K241380.pdf. *)
Theorem pdf_url_spec `{Library} (base k : str) :
  (∀ i, i < 2 → year_of k !! i = k !! (1 + i))
  ∧ length (year_of k) = 2 `min` (length k - 1)
  ∧ pdf_url base k
    = urljoin base (py "pdf" ++ year_of k ++ py "/" ++ k ++ py ".pdf")
  ∧ (∀ id dir w, sent (download_pdf id base dir w).2
                 = sent w ++ [pdf_url base (normalize id)])
  ∧ year_of (py "K241380") = py "24"
  ∧ pdf_url base (py "K241380") = urljoin base (py "pdf24/K241380.pdf").
Proof.
  split_and!; try reflexivity.
  - intros i Hi. unfold year_of, slice.
    etrans; [apply lookup_take_lt; simpl; lia | apply lookup_drop].
  - unfold year_of, slice. rewrite length_take, length_drop. lia.
  - intros id dir w. apply download_pdf_sent.
Qed.

(** C10: an identifier that is empty or all whitespace is normalised to
    the letter K, its bucket is the empty string, and the fetch goes on
    to request [pdf/K.pdf] joined to the base. *)
Theorem blank_identifier `{Library} (s base : str) :
  Forall (λ c, isspace c = true) s →
  normalize s = py "K"
  ∧ year_of (normalize s) = []
  ∧ pdf_url base (normalize s) = urljoin base (py "pdf/K.pdf")
  ∧ ∀ dir w, sent (download_pdf s base dir w).2
             = sent w ++ [urljoin base (py "pdf/K.pdf")].
Proof.
  intros Hs.
  assert (normalize s = py "K") as Hn.
  { unfold normalize. by rewrite (strip_all_space s Hs). }
  split_and!; try (by rewrite Hn).
  intros dir w. by rewrite download_pdf_sent, Hn.
Qed.

Lemma blank_identifier_witness :
  @normalize latin1_library (py "   ") = py "K"
  ∧ year_of (@normalize latin1_library (py "   ")) = []
  ∧ @pdf_url latin1_library base_url (@normalize latin1_library (py "   "))
    = base_url ++ py "pdf/K.pdf"
  ∧ ∀ dir w, sent (@download_pdf latin1_library (py "   ") base_url dir w).2
             = sent w ++ [base_url ++ py "pdf/K.pdf"].
Proof.
  apply (@blank_identifier latin1_library (py "   ") base_url).
  repeat constructor.
Defined.

(** ** The pool *)

Lemma pending_from_lookup (a i : nat) (l : list future) :
  i ∈ pending_from a l ↔
  a ≤ i ∧ ∃ k b d, l !! (i - a) = Some (Pending k b d).
Proof.
  revert a. induction l as [|f l IH]; intros a; simpl.
  - rewrite elem_of_nil. split; [done|].
    intros [_ (k & b & d & Hl)]. by rewrite lookup_nil in Hl.
  - destruct f as [k b d|r].
    + rewrite elem_of_cons, IH. split.
      * intros [->|[Ha (k' & b' & d' & Hl)]].
        -- split; [lia|]. rewrite Nat.sub_diag. simpl. eauto.
        -- split; [lia|]. replace (i - a) with (S (i - S a)) by lia. eauto.
      * intros [Ha (k' & b' & d' & Hl)].
        destruct (decide (i = a)) as [->|Hne]; [by left|]. right.
        split; [lia|]. replace (i - a) with (S (i - S a)) in Hl by lia. eauto.
    + rewrite IH. split.
      * intros [Ha (k' & b' & d' & Hl)].
        split; [lia|]. replace (i - a) with (S (i - S a)) by lia. eauto.
      * intros [Ha (k' & b' & d' & Hl)].
        destruct (decide (i = a)) as [->|Hne].
        { rewrite Nat.sub_diag in Hl. discriminate. }
        split; [lia|]. replace (i - a) with (S (i - S a)) in Hl by lia. eauto.
Qed.

Lemma npending_le (l : list future) : npending l ≤ length l.
Proof.
  unfold npending. generalize 0.
  induction l as [|[k b d|r] l IH]; intros a; simpl; [lia| |].
  - specialize (IH (S a)). lia.
  - specialize (IH (S a)). lia.
Qed.

(** Completing a pending task leaves one pending task fewer. *)
Lemma npending_done (l : list future) (i : nat) (k b d : str)
    (r : result outcome) :
  l !! i = Some (Pending k b d) →
  npending (<[i := Done r]> l) + 1 = npending l.
Proof.
  unfold npending. generalize 0 at 1 3. revert i.
  induction l as [|f l IH]; intros i a Hi; [done|].
  destruct i as [|i]; simpl in *.
  - injection Hi as ->. simpl. lia.
  - destruct f; simpl; rewrite <- (IH i (S a) Hi); lia.
Qed.

Lemma npending_pending (l : list future) (i : nat) (k b d : str) :
  l !! i = Some (Pending k b d) → 0 < npending l.
Proof.
  intros Hi. unfold npending.
  assert (i ∈ pending_from 0 l) as Hin.
  { apply pending_from_lookup. split; [lia|]. rewrite Nat.sub_0_r. eauto. }
  destruct (pending_from 0 l); [by apply elem_of_nil in Hin|simpl; lia].
Qed.

Section Pool.
Context `{Library}.

Lemma evolves_refl (w : world) : evolves w w.
Proof.
  unfold evolves. split_and!; try done.
  - apply keeps_dirs_refl.
  - exists []. by rewrite app_nil_r.
Qed.

Lemma evolves_trans (w1 w2 w3 : world) :
  evolves w1 w2 → evolves w2 w3 → evolves w1 w3.
Proof.
  intros (Hw & Hl & Hd & [t Ht] & Hp) (Hw' & Hl' & Hd' & [t' Ht'] & Hp').
  unfold evolves. split_and!; try congruence.
  - by apply (keeps_dirs_trans w1 w2 w3).
  - exists (t ++ t'). by rewrite Ht', Ht, app_assoc.
  - intros base dir ks Hks. by apply Hp', Hp.
Qed.

(** A worker completing the task of a pending future. *)
Lemma run_task_spec (i : nat) (k b d : str) (w : world) :
  futures w !! i = Some (Pending k b d) →
  ∃ r w', run_task i w = (Returned tt, w')
          ∧ evolves w w'
          ∧ futures w' = <[i := Done r]> (futures w)
          ∧ fetched b d k r.
Proof.
  intros Hi. unfold run_task. rewrite Hi.
  destruct (download_pdf_spec k b d w)
    as (r & w1 & t & E & Ht & _ & (Hn & Hs & Hw & Hf) & Hk & _).
  rewrite E. eexists r, _. split; [reflexivity|].
  split_and!; simpl; try done.
  - unfold evolves; simpl. split_and!; try done.
    + by rewrite length_insert, Hf.
    + exists (EvGet (pdf_url b (normalize k)) :: t ++ [EvDone i]).
      rewrite Ht. by rewrite <- app_assoc.
    + intros base dir ks Hks. unfold pool_of in *; simpl. rewrite Hf.
      destruct (Forall2_lookup_r _ _ _ _ _ Hks Hi) as (k' & Hk' & Hfo).
      rewrite <- (list_insert_id ks i k' Hk').
      apply Forall2_insert; [done|].
      destruct Hfo as [[= -> -> ->]|(r' & [=] & _)].
      right. exists r. split; [done|]. by exists w, w1.
  - by rewrite Hf.
  - by exists w, w1.
Qed.

Lemma next_choice_spec (w : world) :
  ∃ c w0, next_choice w = (Returned c, w0)
          ∧ futures w0 = futures w ∧ evolves w w0.
Proof.
  unfold next_choice. destruct (sched w) as [|c s].
  - exists 0, w. split_and!; [done..|apply evolves_refl].
  - exists c, (set_sched s w). split_and!; [done..|].
    unfold evolves; split_and!; try done.
    + by intros p.
    + exists []. by rewrite app_nil_r.
Qed.

(** One completion: the state evolves, and a task that was pending is
    now done when there is a worker to run it. *)
Lemma complete_one_spec (w : world) :
  ∃ w', complete_one w = (Returned tt, w')
        ∧ evolves w w'
        ∧ ((0 < workers w)%Z → 0 < npending (futures w) →
           npending (futures w') + 1 = npending (futures w)).
Proof.
  unfold complete_one, mbind, M_bind, get.
  destruct (running w) as [|j run] eqn:Erun.
  { exists w. split_and!; [done|apply evolves_refl|].
    intros Hw Hp. unfold running, npending in *.
    destruct (pending_from 0 (futures w)); [simpl in Hp; lia|].
    destruct (Z.to_nat (workers w)) eqn:E; [lia|]. done. }
  destruct (next_choice_spec w) as (c & w0 & Ec & Hf0 & Hev0).
  rewrite Ec.
  assert (∃ i, (j :: run) !! (c `mod` length (j :: run)) = Some i
               ∧ i ∈ pending_from 0 (futures w)) as (i & Hi & Hin).
  { destruct (lookup_lt_is_Some_2 (j :: run) (c `mod` length (j :: run)))
      as [i Hi].
    - apply Nat.mod_upper_bound. simpl; lia.
    - exists i. split; [done|]. apply list_elem_of_lookup_2 in Hi.
      rewrite <- Erun in Hi. unfold running in Hi.
      by apply elem_of_take in Hi as (? & ?%list_elem_of_lookup_2 & ?). }
  apply pending_from_lookup in Hin as [_ (k & b & d & Hl)].
  rewrite Nat.sub_0_r in Hl.
  destruct (run_task_spec i k b d w0) as (r & w' & E & Hev & Hf & _).
  { by rewrite Hf0. }
  exists w'. split_and!.
  - rewrite Hi. exact E.
  - by apply (evolves_trans w w0 w').
  - intros _ _. rewrite Hf, Hf0. by apply (npending_done _ i k b d).
Qed.

(** Waiting for a future: when the fuel covers the pending tasks and
    there is a worker, the future is done afterwards. *)
Lemma wait_spec (fuel i : nat) (w : world) :
  ∃ w', wait fuel i w = (Returned tt, w')
        ∧ evolves w w'
        ∧ ((0 < workers w)%Z → npending (futures w) ≤ fuel →
           ∀ k b d, futures w' !! i ≠ Some (Pending k b d)).
Proof.
  revert w. induction fuel as [|fuel IH]; intros w; simpl.
  - exists w. split_and!; [done|apply evolves_refl|].
    intros _ Hn k b d Hi. apply npending_pending in Hi. lia.
  - unfold mbind, M_bind, get.
    destruct (futures w !! i) as [[k b d|r]|] eqn:Hi.
    2,3: exists w; split_and!; [done|apply evolves_refl|];
           intros _ _ k' b' d'; by rewrite Hi.
    destruct (complete_one_spec w) as (w1 & E1 & Hev1 & Hn1).
    rewrite E1.
    destruct (IH w1) as (w2 & E2 & Hev2 & Hn2).
    exists w2. split_and!; [done|by apply (evolves_trans w w1 w2)|].
    intros Hw Hn. destruct Hev1 as (Hw1 & _).
    apply Hn2; [by rewrite Hw1|].
    specialize (Hn1 Hw (npending_pending _ _ _ _ _ Hi)). lia.
Qed.

(** [future.result()] gives what the fetch of the future's identifier
    gave: its outcome, or the exception it raised. *)
Lemma future_result_spec (base dir : str) (ks : list str) (i : nat)
    (k : str) (w : world) :
  pool_of base dir ks w → ks !! i = Some k → (0 < workers w)%Z →
  ∃ r w', future_result i w = (r, w')
          ∧ evolves w w'
          ∧ fetched base dir k r.
Proof.
  intros Hpool Hk Hw. unfold future_result, mbind, M_bind, get.
  destruct (wait_spec (length (futures w)) i w) as (w1 & E1 & Hev1 & Hn1).
  rewrite E1. specialize (Hn1 Hw (npending_le _)).
  pose proof Hev1 as (_ & _ & _ & _ & Hp1).
  specialize (Hp1 base dir ks Hpool).
  destruct (Forall2_lookup_l _ _ _ _ _ Hp1 Hk) as (f & Hf & Hfo).
  rewrite Hf. destruct Hfo as [->|(r & -> & Hr)].
  { by destruct (Hn1 k base dir). }
  exists r, w1. split_and!; [by destruct r|done..].
Qed.

Lemma drain_spec (fuel : nat) (w : world) :
  ∃ w', drain fuel w = (Returned tt, w') ∧ evolves w w'.
Proof.
  revert w. induction fuel as [|fuel IH]; intros w; simpl.
  - exists w. split; [done|apply evolves_refl].
  - unfold mbind, M_bind.
    destruct (complete_one_spec w) as (w1 & E1 & Hev1 & _). rewrite E1.
    destruct (IH w1) as (w2 & E2 & Hev2). exists w2.
    split; [done|by apply (evolves_trans w w1 w2)].
Qed.

Lemma shutdown_spec (w : world) :
  ∃ w', shutdown w = (Returned tt, w') ∧ evolves w w'.
Proof. unfold shutdown, mbind, M_bind, get. apply drain_spec. Qed.

(** ** The coordinator *)

Lemma dict_keys_set_fresh {V} (d : list (nat * V)) (k : nat) (v : V) :
  k ∉ dict_keys d → dict_keys (dict_set d k v) = dict_keys d ++ [k].
Proof.
  induction d as [|[k' v'] d IH]; simpl; [done|].
  rewrite not_elem_of_cons. intros [Hne Hnin].
  destruct (decide (k = k')); [done|]. simpl. by rewrite IH.
Qed.

(** The comprehension submits one task per identifier, in order, and
    every future is a key of its own: the keys are [0 .. N-1]. *)
Lemma submit_all_spec (ks : list str) (base dir : str)
    (d : list (nat * str)) (w : world) :
  dict_keys d = seq 0 (length (futures w)) →
  ∃ d', submit_all ks base dir d w
        = (Returned d',
           set_executor (workers w)
             (futures w ++ map (λ k, Pending k base dir) ks) w)
        ∧ dict_keys d' = seq 0 (length (futures w) + length ks).
Proof.
  revert d w. induction ks as [|k ks IH]; intros d w Hd; simpl.
  - exists d. rewrite app_nil_r, Nat.add_0_r. split; [|done].
    by destruct w.
  - unfold mbind, M_bind, submit.
    set (w1 := set_executor _ _ w).
    destruct (IH (dict_set d (length (futures w)) k) w1) as (d' & E & Hd').
    { rewrite dict_keys_set_fresh.
      - rewrite Hd. unfold w1; simpl. rewrite length_app. simpl.
        by rewrite seq_app.
      - rewrite Hd, elem_of_seq. lia. }
    exists d'. rewrite E. unfold w1; simpl. split.
    + unfold set_executor; simpl. by rewrite <- app_assoc.
    + rewrite Hd'. unfold w1; simpl. rewrite length_app. simpl.
      f_equal. lia.
Qed.

(** The loop over the futures reads the outcome of every identifier
    once, in submission order, and sorts it by its flag; it stops at
    the first fetch that raised. *)
Lemma collect_spec (base dir : str) (ks : list str) (n a : nat)
    (acc : report) (w : world) :
  pool_of base dir ks w → a + n ≤ length ks → (0 < workers w)%Z →
  ∃ r w', collect (seq a n) acc w = (r, w')
          ∧ evolves w w'
          ∧ match r with
            | Returned rep =>
                ∃ outs,
                  Forall2 (λ k o, fetched base dir k (Returned o))
                          (take n (drop a ks)) outs
                  ∧ successful rep
                    = successful acc ++ omap success_entry outs
                  ∧ failed rep = failed acc ++ omap failure_entry outs
            | Raised e => ∃ k, k ∈ ks ∧ fetched base dir k (Raised e)
            end.
Proof.
  revert a acc w. induction n as [|n IH]; intros a acc w Hpool Ha Hw; simpl.
  - exists (Returned acc), w. split_and!; [done|apply evolves_refl|].
    exists []. rewrite !app_nil_r. split_and!; [constructor|done..].
  - destruct (lookup_lt_is_Some_2 ks a) as [k Hk]; [lia|].
    unfold mbind, M_bind.
    destruct (future_result_spec base dir ks a k w Hpool Hk Hw)
      as (r & w1 & E1 & Hev1 & Hr).
    rewrite E1. destruct r as [[[kn success] res]|e].
    2: { exists (Raised e), w1. split_and!; [done..|].
         exists k. split; [by eapply list_elem_of_lookup_2|done]. }
    pose proof Hev1 as (Hw1 & _ & _ & _ & Hp1).
    assert (take (S n) (drop a ks) = k :: take n (drop (S a) ks)) as Htk.
    { by rewrite (drop_S ks k a Hk). }
    destruct success.
    + edestruct (IH (S a)) as (r & w2 & E2 & Hev2 & Hr2);
        [by apply Hp1|lia|by rewrite Hw1|].
      rewrite E2. exists r, w2.
      split_and!; [done|by apply (evolves_trans w w1 w2)|].
      destruct r as [rep|e]; [|done].
      destruct Hr2 as (outs & Ho & Hs & Hf). simpl in Hs, Hf.
      exists ((kn, true, res) :: outs). rewrite Htk.
      split_and!; [by constructor| |done].
      rewrite Hs. simpl. by rewrite <- app_assoc.
    + edestruct (IH (S a)) as (r & w2 & E2 & Hev2 & Hr2);
        [by apply Hp1|lia|by rewrite Hw1|].
      rewrite E2. exists r, w2.
      split_and!; [done|by apply (evolves_trans w w1 w2)|].
      destruct r as [rep|e]; [|done].
      destruct Hr2 as (outs & Ho & Hs & Hf). simpl in Hs, Hf.
      exists ((kn, false, res) :: outs). rewrite Htk.
      split_and!; [by constructor|done|].
      rewrite Hf. simpl. by rewrite <- app_assoc.
Qed.

(** The batch, step by step: the directory is made first, and nothing
    else happens when that fails; a pool without workers is refused;
    otherwise every identifier is fetched, the report lists the
    outcomes in submission order, sorted by their flag, and the batch
    raises what the first of the fetches that raised did raise. *)
Lemma download_fda_pdfs_spec (ks : list str) (dir : str) (m : Z)
    (w : world) :
  ∃ r w' r1 w1,
    download_fda_pdfs ks dir m w = (r, w')
    ∧ makedirs dir w = (r1, w1)
    ∧ match r1 with
      | Raised e => r = Raised e ∧ w' = w1
      | Returned _ =>
          if bool_decide (m ≤ 0)%Z then
            r = Raised (ValueError (py "max_workers must be greater than 0"))
            ∧ w' = w1
          else
            keeps_dirs w1 w'
            ∧ (∃ t, trace w' = trace w1 ++ t)
            ∧ match r with
              | Returned rep =>
                  ∃ outs,
                    Forall2 (λ k o, fetched base_url dir k (Returned o))
                            ks outs
                    ∧ successful rep = omap success_entry outs
                    ∧ failed rep = omap failure_entry outs
              | Raised e => ∃ k, k ∈ ks ∧ fetched base_url dir k (Raised e)
              end
      end.
Proof.
  unfold download_fda_pdfs, mbind, M_bind.
  destruct (makedirs dir w) as [[[]|e] w1] eqn:Emk.
  2: { eexists _, _, _, _. split_and!; done. }
  unfold ThreadPoolExecutor. case_bool_decide as Hm.
  { eexists _, _, _, _. split_and!; done. }
  unfold modify, try_finally, mbind, M_bind.
  set (w2 := set_executor m [] w1).
  destruct (submit_all_spec ks base_url dir [] w2 eq_refl) as (d & Es & Hd).
  change (py "https://www.accessdata.fda.gov/cdrh_docs/") with base_url.
  rewrite Es. simpl in Hd. rewrite Hd.
  set (w3 := set_executor _ _ w2).
  assert (pool_of base_url dir ks w3) as Hpool.
  { unfold pool_of, w3; simpl. apply Forall2_fmap_r.
    apply Forall_Forall2_diag, Forall_forall. intros k _. by left. }
  destruct (collect_spec base_url dir ks (length ks) 0
              {| successful := []; failed := [] |} w3 Hpool)
    as (r & w4 & Ec & Hev4 & Hr); [simpl; lia..|].
  rewrite Ec.
  destruct (shutdown_spec w4) as (w5 & Esh & Hev5). rewrite Esh.
  pose proof (evolves_trans _ _ _ Hev4 Hev5) as (_ & _ & Hk & [t Ht] & _).
  rewrite drop_0, firstn_all in Hr.
  destruct r as [rep|e].
  - eexists _, _, _, _. split_and!; try done.
    simpl. split_and!.
    + done.
    + eexists (t ++ [_]). simpl. rewrite Ht. by rewrite <- app_assoc.
    + done.
  - eexists _, _, _, _. split_and!; try done.
    simpl. split_and!; eauto.
Qed.
End Pool.

(** ** The report *)

Lemma length_entries (outs : list outcome) :
  length (omap success_entry outs) + length (omap failure_entry outs)
  = length outs.
Proof.
  induction outs as [|[[k []] res] outs IH]; simpl; unfold omap in *; lia.
Qed.

Lemma ids_entries (outs : list outcome) :
  ids (omap success_entry outs ++ omap failure_entry outs)
  ≡ₚ Some ∘ outcome_id <$> outs.
Proof.
  unfold ids. induction outs as [|[[k []] res] outs IH]; simpl; [done| |].
  - by rewrite IH.
  - rewrite fmap_app. simpl. rewrite <- Permutation_middle.
    rewrite <- fmap_app. by rewrite IH.
Qed.

Lemma ids_success_entries (outs : list outcome) :
  ids (omap success_entry outs) `sublist_of` (Some ∘ outcome_id <$> outs).
Proof.
  unfold ids. induction outs as [|[[k []] res] outs IH]; simpl.
  - constructor.
  - by apply sublist_skip.
  - by apply sublist_cons.
Qed.

Lemma ids_failure_entries (outs : list outcome) :
  ids (omap failure_entry outs) `sublist_of` (Some ∘ outcome_id <$> outs).
Proof.
  unfold ids. induction outs as [|[[k []] res] outs IH]; simpl.
  - constructor.
  - by apply sublist_cons.
  - by apply sublist_skip.
Qed.

Section Report.
Context `{Library}.

(** The outcome of a fetch carries the normalised identifier. *)
Lemma fetched_id (base dir k : str) (o : outcome) :
  fetched base dir k (Returned o) → outcome_id o = normalize k.
Proof.
  intros (w & w' & E).
  destruct (download_pdf_spec k base dir w)
    as (r & w1 & t & E1 & _ & _ & _ & _ & Hr).
  rewrite E in E1. injection E1 as <- <-.
  by destruct Hr as [[-> _]|(msg & -> & _)].
Qed.

Lemma fetched_raised (base dir k : str) (e : exn) :
  fetched base dir k (Raised e) → is_RequestException e = false.
Proof.
  intros (w & w' & E).
  destruct (download_pdf_spec k base dir w)
    as (r & w1 & t & E1 & _ & _ & _ & _ & Hr).
  rewrite E in E1. injection E1 as <- <-. by destruct Hr as [? _].
Qed.

Lemma fetched_ids (base dir : str) (ks : list str) (outs : list outcome) :
  Forall2 (λ k o, fetched base dir k (Returned o)) ks outs →
  (Some ∘ outcome_id <$> outs) = (Some ∘ normalize <$> ks).
Proof.
  induction 1 as [|k o ks outs Hko _ IH]; [done|].
  rewrite !fmap_cons, IH. f_equal. simpl. f_equal.
  by apply (fetched_id base dir).
Qed.

(** What a batch gives: a report of the outcomes of the fetches, or
    the exception of a fatal condition. *)
Lemma batch_result (ks : list str) (dir : str) (m : Z) (w : world) :
  match (download_fda_pdfs ks dir m w).1 with
  | Returned rep =>
      ∃ outs,
        Forall2 (λ k o, fetched base_url dir k (Returned o)) ks outs
        ∧ successful rep = omap success_entry outs
        ∧ failed rep = omap failure_entry outs
  | Raised e => fatal ks dir m w e
  end.
Proof.
  destruct (download_fda_pdfs_spec ks dir m w)
    as (r & w' & r1 & w1 & E & Emk & Hr).
  rewrite E. simpl. unfold fatal. rewrite Emk. simpl.
  destruct r1 as [[]|e1].
  - case_bool_decide as Hm.
    + destruct Hr as [-> _]. right; left. done.
    + destruct Hr as (_ & _ & Hr). destruct r as [rep|e]; [done|].
      by right; right.
  - destruct Hr as [-> _]. by left.
Qed.
End Report.

(** C5: a batch of no identifiers makes no request, and returns the
    report with no success and no failure; it raises only when the
    output directory cannot be made or the pool is given no worker. *)
Theorem empty_batch `{Library} (dir : str) (m : Z) (w : world) :
  sent (download_fda_pdfs [] dir m w).2 = sent w
  ∧ match (download_fda_pdfs [] dir m w).1 with
    | Returned rep => rep = {| successful := []; failed := [] |}
    | Raised e =>
        (makedirs dir w).1 = Raised e
        ∨ ((m ≤ 0)%Z
           ∧ e = ValueError (py "max_workers must be greater than 0"))
    end.
Proof.
  unfold download_fda_pdfs, mbind, M_bind.
  destruct (makedirs_spec dir w) as (r1 & w1 & Emk & Ht1 & _).
  rewrite Emk. simpl.
  assert (sent w1 = sent w) as Hs1.
  { rewrite (sent_app w _ w1 Ht1). simpl. apply app_nil_r. }
  destruct r1 as [[]|e]; [|by split; [|left]].
  unfold ThreadPoolExecutor. case_bool_decide; [by split; [|right]|].
  simpl. split; [|done].
  unfold sent in *. simpl. rewrite omap_app. simpl. rewrite app_nil_r.
  exact Hs1.
Qed.

(** C7, as stated, fails: with two workers free the second of two
    fetches may complete first, and the successes still are listed in
    the order of submission. *)
Lemma report_not_in_completion_order :
  let ks := [py "K241380"; py "K250001"] in
  let run := @download_fda_pdfs latin1_library ks default_output_dir
               default_max_workers (fresh generous_server [1]) in
  completed run.2 = [1; 0]
  ∧ (∃ rep, run.1 = Returned rep
            ∧ ids (successful rep)
              = [Some (py "K241380"); Some (py "K250001")]
            ∧ ids (successful rep)
              ≠ @completion_order latin1_library ks run.2).
Proof.
  split; [by vm_compute|].
  eexists. split_and!; [by vm_compute|by vm_compute|].
  vm_compute. discriminate.
Qed.

(** C7, amended: whatever the order in which the fetches complete, the
    successes and the failures of the report are in the order in which
    the identifiers were submitted. *)
Theorem report_in_submission_order `{Library} (ks : list str) (dir : str)
    (m : Z) (w : world) :
  match (download_fda_pdfs ks dir m w).1 with
  | Returned rep =>
      ids (successful rep) `sublist_of` (Some ∘ normalize <$> ks)
      ∧ ids (failed rep) `sublist_of` (Some ∘ normalize <$> ks)
  | Raised e => fatal ks dir m w e
  end.
Proof.
  pose proof (batch_result ks dir m w) as Hb.
  destruct (download_fda_pdfs ks dir m w).1 as [rep|e]; [|done].
  destruct Hb as (outs & Ho & -> & ->).
  rewrite <- (fetched_ids base_url dir ks outs Ho). split.
  - apply ids_success_entries.
  - apply ids_failure_entries.
Qed.

(** ** Runs *)

(** Whitespace and case outside ASCII: a no-break space and an
    ideographic space are stripped, and the sharp s becomes two
    letters. *)
Example normalize_unicode :
  @normalize latin1_library
    ([0xA0; 0x73; 0x74; 0x72; 0x61; 0xDF; 0x65; 0x3000])%N
  = py "KSTRASSE".
Proof. reflexivity. Qed.

(** A disk that fills up: the fetch raises, and the part of the body
    for which there was room stays in the file. *)
Example run_disk_full :
  let w := {| fs := {[ [py "out"] := Dir ]}; free := 3;
              denied := λ _, None; net := generous_server; sched := [];
              trace := []; workers := 0; futures := [] |} in
  let run := @download_pdf latin1_library (py "K241380") base_url
               (py "out") w in
  run.1 = Raised (OSError (py "[Errno 28] No space left on device"))
  ∧ fs run.2 !! [py "out"; py "K241380.pdf"]
    = Some (File [Byte.x25; Byte.x50; Byte.x44]).
Proof. split; by vm_compute. Qed.

(** The scenario of the specification: K241380 is served, [badid] is
    not. *)
Example run_mock_server :
  (@download_fda_pdfs latin1_library [py "K241380"; py "badid"]
     default_output_dir default_max_workers (fresh mock_server [])).1
  = Returned
      {| successful :=
           [[("k_number"%string, py "K241380");
             ("filepath"%string, py "fda_pdfs/K241380.pdf")]];
         failed :=
           [[("k_number"%string, py "KBADID");
             ("error"%string,
              py "404 Client Error: Not Found for url: https://www.accessdata.fda.gov/cdrh_docs/pdfBA/KBADID.pdf")]] |}.
Proof. vm_compute. reflexivity. Qed.

(** The same identifier twice, the server answering once: one success
    and one failure, and the summary that is printed. *)
Example run_duplicates :
  let run := @download_fda_pdfs latin1_library [py "k241380"; py "K241380 "]
               default_output_dir 1 (fresh flaky_server []) in
  (∃ rep, run.1 = Returned rep
          ∧ ids (successful rep) = [Some (py "K241380")]
          ∧ ids (failed rep) = [Some (py "K241380")])
  ∧ stdout run.2 = [py "Download complete: 1 successful, 1 failed"]
  ∧ length (sent run.2) = 2.
Proof.
  split; [eexists; split_and!; by vm_compute|].
  split; by vm_compute.
Qed.

(** Every fetch failing, the directory is there all the same. *)
Example run_all_failing :
  let run := @download_fda_pdfs latin1_library [py "K241380"; py "K250001"]
               (py "out/pdfs") 2
               (fresh (λ _ _, NoResponse (py "Connection refused")) [1; 0]) in
  (∃ rep, run.1 = Returned rep ∧ successful rep = []
          ∧ length (failed rep) = 2)
  ∧ isdir run.2 (py "out/pdfs") = true
  ∧ isdir run.2 (py "out") = true
  ∧ isdir (fresh generous_server []) (py "out") = false.
Proof.
  split; [eexists; split_and!; by vm_compute|].
  split_and!; by vm_compute.
Qed.

(** With one worker the tasks complete in the order of submission,
    whatever the scheduler chooses. *)
Example run_one_worker :
  completed
    (@download_fda_pdfs latin1_library
       [py "K241380"; py "K250001"; py "K250002"]
       default_output_dir 1 (fresh generous_server [2; 1; 5])).2
  = [0; 1; 2].
Proof. by vm_compute. Qed.

(** * Further properties *)

(** ** The fetch, step by step *)

Lemma download_pdf_steps `{Library} (k base dir : str) (w : world) :
  download_pdf k base dir w = fetch_steps k base dir w.
Proof.
  unfold download_pdf, fetch_steps, try_except, mbind, M_bind, requests_get.
  change (urljoin base _) with (pdf_url base (normalize k)).
  destruct (net w (length (sent w)) (pdf_url base (normalize k)))
    as [msg|r]; [done|].
  unfold raise_for_status.
  assert (http_error_text r
          = str_of_Z (status_code r)
            ++ (if bool_decide (400 ≤ status_code r < 500)%Z
                then py " Client Error: " else py " Server Error: ")
            ++ reason r ++ py " for url: " ++ url r) as Htext by done.
  case_bool_decide as H4.
  { rewrite bool_decide_eq_true_2 by lia. simpl. by rewrite Htext. }
  case_bool_decide as H5.
  { rewrite bool_decide_eq_true_2 by lia. simpl. by rewrite Htext. }
  rewrite bool_decide_eq_false_2 by lia.
  unfold mret at 1, M_ret at 1.
  set (w1 := log _ w). set (out := path_join _ _).
  destruct (open_wb_spec out w1) as (ro & w2 & Eo & _ & _ & _ & Hro).
  rewrite Eo. destruct ro as [f|e]; [|by rewrite Hro].
  unfold save_content, mbind, M_bind.
  destruct (write_chunks_spec f (content r) w2)
    as (rw & w3 & Ew & _ & _ & _ & Hrw).
  rewrite Ew. destruct Hrw as [->|[msg ->]]; [|done].
  by destruct (broken r).
Qed.

(** ** What [open] and [write] do to the disk *)

Lemma open_wb_returned (name : str) (w : world) (f : path) (w' : world) :
  open_wb name w = (Returned f, w') →
  f = components name
  ∧ f ≠ []
  ∧ name_error name = None
  ∧ descend (denied w) (fs w) [] (removelast f) = None
  ∧ is_dir (fs w) f = false
  ∧ denied w f = None
  ∧ w' = set_disk (<[f := File []]> (fs w)) (free w + size_at (fs w) f)%N
           (log (EvOpen name) w).
Proof.
  unfold open_wb. destruct (name_error name); [done|].
  case_bool_decide; [done|].
  change (fs (log (EvOpen name) w)) with (fs w).
  change (denied (log (EvOpen name) w)) with (denied w).
  destruct (descend _ _ _ _) eqn:Hpar; [done|].
  destruct (_ || _ || is_dir (fs w) (components name)) eqn:Hd; [done|].
  destruct (denied w (components name)) eqn:Hden; [done|].
  intros [= <- <-].
  apply orb_false_iff in Hd as [[Hp _]%orb_false_iff Hd].
  apply bool_decide_eq_false_1 in Hp. done.
Qed.

Lemma open_wb_raised (name : str) (w : world) (e : exn) (w' : world) :
  open_wb name w = (Raised e, w') → w' = log (EvOpen name) w.
Proof.
  unfold open_wb. intros E. repeat case_match; by simplify_eq.
Qed.

Lemma open_wb_can (name : str) (w : world) :
  name_error name = None →
  components name ≠ [] →
  last name ≠ Some 0x2F%N →
  descend (denied w) (fs w) [] (removelast (components name)) = None →
  is_dir (fs w) (components name) = false →
  denied w (components name) = None →
  open_wb name w
  = (Returned (components name),
     set_disk (<[components name := File []]> (fs w))
       (free w + size_at (fs w) (components name))%N (log (EvOpen name) w)).
Proof.
  intros Hn Hp Hl Hpar Hd Hden. unfold open_wb. rewrite Hn.
  assert (name ≠ []) by (by intros ->).
  rewrite bool_decide_eq_false_2 by done.
  change (fs (log (EvOpen name) w)) with (fs w).
  change (denied (log (EvOpen name) w)) with (denied w).
  rewrite Hpar, Hd, Hden.
  by rewrite !bool_decide_eq_false_2 by done.
Qed.

(** Writing the chunks one after another: the bytes for which there is
    room are appended to the file, and the writing stops with the
    [OSError] when there is no room for a chunk. *)
Lemma write_chunks_run (f : path) (chunks : list bytes) (w : world)
    (data : bytes) :
  fs w !! f = Some (File data) →
  fs (write_chunks f chunks w).2
  = <[f := File (data ++ take (N.to_nat (free w)) (concat chunks))]> (fs w)
  ∧ free (write_chunks f chunks w).2 = (free w - total chunks)%N
  ∧ trace (write_chunks f chunks w).2 = trace w
  ∧ (write_chunks f chunks w).1
    = if (free w <? total chunks)%N
      then Raised (OSError (py "[Errno 28] No space left on device"))
      else Returned tt.
Proof.
  revert w data. induction chunks as [|c chunks IH]; intros w data Hf.
  - simpl. rewrite take_nil, app_nil_r, insert_id by done.
    unfold total. simpl. rewrite N.sub_0_r.
    by destruct (N.ltb_spec (free w) (N.of_nat 0)); [lia|].
  - cbn [write_chunks]. unfold mbind, M_bind.
    assert (total (c :: chunks) = (N.of_nat (length c) + total chunks)%N)
      as Htot.
    { unfold total. simpl. rewrite length_app. lia. }
    rewrite Htot. simpl concat. rewrite take_app.
    destruct (N.ltb_spec (free w) (N.of_nat (length c))) as [Hfull|Hroom].
    + assert (write f c w
              = (Raised (OSError (py "[Errno 28] No space left on device")),
                 set_disk (<[f := File (data ++ take (N.to_nat (free w)) c)]>
                             (fs w)) 0%N w)) as ->.
      { unfold write. rewrite Hf.
        by destruct (N.ltb_spec (free w) (N.of_nat (length c))); [|lia]. }
      simpl. replace (N.to_nat (free w) - length c) with 0 by lia.
      rewrite take_0, app_nil_r.
      split_and!; [done|lia|done|].
      by destruct (N.ltb_spec (free w) (N.of_nat (length c) + total chunks));
        [|lia].
    + set (w1 := set_disk (<[f := File (data ++ c)]> (fs w))
                   (free w - N.of_nat (length c))%N w).
      assert (write f c w = (Returned tt, w1)) as ->.
      { unfold write. rewrite Hf.
        by destruct (N.ltb_spec (free w) (N.of_nat (length c))); [lia|]. }
      destruct (IH w1 (data ++ c)) as (Hfs & Hfree & Htr & Hr).
      { unfold w1; simpl. by rewrite lookup_insert_eq. }
      change (free w1) with (free w - N.of_nat (length c))%N in *.
      change (fs w1) with (<[f := File (data ++ c)]> (fs w)) in *.
      rewrite take_ge by lia.
      replace (N.to_nat (free w) - length c)
        with (N.to_nat (free w - N.of_nat (length c))) by lia.
      split_and!.
      * rewrite Hfs, insert_insert_eq. by rewrite <- app_assoc.
      * rewrite Hfree. lia.
      * by rewrite Htr.
      * rewrite Hr.
        destruct (N.ltb_spec (free w - N.of_nat (length c)) (total chunks)),
          (N.ltb_spec (free w) (N.of_nat (length c) + total chunks));
          (done || lia).
Qed.

(** ** What a fetch leaves on the disk *)

Section FetchDisk.
Context `{Library}.

(** Unless a response with a good status arrives, the request is all
    that happens. *)
Lemma download_pdf_no_body (k base dir : str) (w : world) :
  let u := pdf_url base (normalize k) in
  ¬ (∃ r, net w (length (sent w)) u = Response r
          ∧ ¬ (400 ≤ status_code r < 600)%Z) →
  (download_pdf k base dir w).2 = log (EvGet u) w.
Proof.
  intros u Hrep. rewrite download_pdf_steps. unfold fetch_steps. fold u.
  destruct (net w (length (sent w)) u) as [msg|r]; [done|].
  case_bool_decide; [done|]. destruct Hrep. eauto.
Qed.

(** After a good status the file is opened; what was in it is gone, and
    it holds the bytes of the body for which there was room: all of
    them when the fetch returns. *)
Lemma download_pdf_body (k base dir : str) (w : world) (r : response) :
  let nk := normalize k in
  let u := pdf_url base nk in
  let out := path_join dir (nk ++ py ".pdf") in
  let f := components out in
  let room := (free w + size_at (fs w) f)%N in
  net w (length (sent w)) u = Response r →
  ¬ (400 ≤ status_code r < 600)%Z →
  (open_wb out (log (EvGet u) w)).1 = Returned f →
  fs (download_pdf k base dir w).2
  = <[f := File (take (N.to_nat room) (concat (content r)))]> (fs w)
  ∧ free (download_pdf k base dir w).2 = (room - total (content r))%N
  ∧ trace (download_pdf k base dir w).2 = trace w ++ [EvGet u; EvOpen out]
  ∧ (download_pdf k base dir w).1
    = if (room <? total (content r))%N
      then Raised (OSError (py "[Errno 28] No space left on device"))
      else Returned match broken r with
                    | Some msg => (nk, false, msg)
                    | None => (nk, true, out)
                    end.
Proof.
  intros nk u out f room Hrep Hok Hopen.
  rewrite download_pdf_steps. unfold fetch_steps. fold nk u out.
  rewrite Hrep, bool_decide_eq_false_2 by done.
  destruct (open_wb out (log (EvGet u) w)) as [ro w2] eqn:Eo.
  simpl in Hopen. subst ro.
  apply open_wb_returned in Eo as (_ & _ & _ & _ & _ & _ & ->).
  set (w2 := set_disk _ _ _).
  destruct (write_chunks_run f (content r) w2 [])
    as (Hfs & Hfree & Htr & Hr).
  { unfold w2; simpl. by rewrite lookup_insert_eq. }
  change (fs w2) with (<[f := File []]> (fs w)) in Hfs.
  change (free w2) with room in Hfs, Hfree, Hr.
  change (trace w2) with ((trace w ++ [EvGet u]) ++ [EvOpen out]) in Htr.
  rewrite insert_insert_eq in Hfs. simpl in Hfs.
  rewrite <- app_assoc in Htr. simpl in Htr.
  destruct (write_chunks f (content r) w2) as [[[]|e] w3]; simpl in *.
  - destruct (room <? total (content r))%N; [done|].
    by destruct (broken r); simpl; split_and!.
  - destruct (room <? total (content r))%N; [|done].
    injection Hr as ->. by split_and!.
Qed.

(** A fetch leaves the disk as it was or with its file written. *)
Lemma download_pdf_fs (k base dir : str) (w : world) :
  fs (download_pdf k base dir w).2 = fs w
  ∨ ∃ data,
      fs (download_pdf k base dir w).2
      = <[components (path_join dir (normalize k ++ py ".pdf")) := File data]>
          (fs w).
Proof.
  pose proof (download_pdf_no_body k base dir w) as Hno.
  pose proof (download_pdf_body k base dir w) as Hbody.
  simpl in Hno, Hbody.
  destruct (net w (length (sent w)) (pdf_url base (normalize k)))
    as [msg|r] eqn:Erep.
  { left. rewrite Hno; [done|]. by intros (r & [=] & _). }
  destruct (decide (400 ≤ status_code r < 600)%Z) as [Hst|Hok].
  { left. rewrite Hno; [done|]. intros (r' & [= <-] & Hok). done. }
  destruct (open_wb (path_join dir (normalize k ++ py ".pdf"))
              (log (EvGet (pdf_url base (normalize k))) w))
    as [[f|e] w2] eqn:Eo.
  - pose proof (open_wb_returned _ _ _ _ Eo) as (-> & _).
    destruct (Hbody r eq_refl Hok) as (Hfs & _); [done|].
    right. by eexists.
  - left. rewrite download_pdf_steps. unfold fetch_steps.
    rewrite Erep, bool_decide_eq_false_2, Eo by done.
    by apply open_wb_raised in Eo as ->.
Qed.

Lemma download_pdf_keeps_files (k base dir : str) (w : world) (p : path)
    (data : bytes) :
  fs w !! p = Some (File data) →
  ∃ data', fs (download_pdf k base dir w).2 !! p = Some (File data').
Proof.
  intros Hp. destruct (download_pdf_fs k base dir w) as [->|(d & ->)];
    [by exists data|].
  destruct (decide (components (path_join dir (normalize k ++ py ".pdf")) = p))
    as [->|Hne].
  - exists d. apply lookup_insert_eq.
  - exists data. by rewrite lookup_insert_ne.
Qed.
End FetchDisk.

(** ** Path names *)

Lemma split_slash_nonempty (a : str) : split_slash a ≠ [].
Proof.
  destruct a as [|c a]; [done|]. simpl.
  destruct (c =? 0x2F)%N; [done|]. by destruct (split_slash a).
Qed.

Lemma split_slash_app (a b : str) :
  split_slash (a ++ 0x2F%N :: b) = split_slash a ++ split_slash b.
Proof.
  induction a as [|c a IH]; [reflexivity|].
  cbn [app split_slash].
  destruct (c =? 0x2F)%N; [by rewrite IH|].
  rewrite IH. pose proof (split_slash_nonempty a).
  by destruct (split_slash a).
Qed.

Lemma split_slash_plain (b : str) : 0x2F%N ∉ b → split_slash b = [b].
Proof.
  induction b as [|c b IH]; [done|].
  rewrite not_elem_of_cons. intros [Hc Hb]. simpl.
  destruct (N.eqb_spec c 0x2F) as [->|_]; [done|]. by rewrite IH.
Qed.

Lemma pieces_app (a b : str) :
  pieces (a ++ 0x2F%N :: b) = pieces a ++ pieces b.
Proof. unfold pieces. by rewrite split_slash_app, filter_app. Qed.

Lemma pieces_plain (b : str) :
  0x2F%N ∉ b → b ≠ [] → b ≠ py "." → pieces b = [b].
Proof.
  intros Hb Hne Hdot. unfold pieces. rewrite split_slash_plain by done.
  by rewrite filter_cons_True.
Qed.

Lemma pieces_slash (a : str) : pieces (a ++ py "/") = pieces a.
Proof.
  change (py "/") with [0x2F%N]. rewrite pieces_app.
  unfold pieces at 2. simpl.
  rewrite filter_cons_False by (intros [? _]; done).
  by rewrite filter_nil, app_nil_r.
Qed.

(** A name without slash, joined to a directory, lies in the
    directory. *)
Lemma pieces_path_join (dir name : str) :
  0x2F%N ∉ name → name ≠ [] → name ≠ py "." →
  pieces (path_join dir name) = pieces dir ++ [name].
Proof.
  intros Hn Hne Hdot. unfold path_join.
  assert (startswith name (py "/") = false) as ->.
  { change (py "/") with [0x2F%N].
    destruct name as [|c name]; [done|]. simpl.
    apply not_elem_of_cons in Hn as [Hc _].
    by destruct (N.eqb_spec c 0x2F). }
  case_bool_decide as Hd.
  { subst dir. simpl. by rewrite pieces_plain. }
  case_bool_decide as Hl; simpl.
  - apply last_Some in Hl as [d ->].
    rewrite <- app_assoc. simpl.
    rewrite pieces_app, (pieces_plain name) by done.
    change [0x2F%N] with (py "/"). by rewrite (pieces_slash d).
  - change (dir ++ py "/" ++ name) with (dir ++ 0x2F%N :: name).
    by rewrite pieces_app, (pieces_plain name).
Qed.

Lemma components_path_join (dir name : str) :
  0x2F%N ∉ name → name ≠ [] → name ≠ py "." →
  components (path_join dir name) = components dir ++ [fsencode name].
Proof.
  intros Hn Hne Hdot. unfold components.
  by rewrite pieces_path_join, fmap_app.
Qed.

(** Python refuses a name for one of its characters. *)
Lemma name_error_None (s : str) :
  name_error s = None
  ↔ forallb fs_encodable s = true ∧ existsb (λ c, c =? 0)%N s = false.
Proof.
  unfold name_error.
  destruct (forallb fs_encodable s), (existsb _ s); simpl; split;
    try done; by intros [].
Qed.

Lemma name_error_app (a b : str) :
  name_error (a ++ b) = None ↔ name_error a = None ∧ name_error b = None.
Proof.
  rewrite !name_error_None, forallb_app, existsb_app, andb_true_iff,
    orb_false_iff. tauto.
Qed.

Lemma name_error_path_join (a b : str) :
  name_error a = None → name_error b = None →
  name_error (path_join a b) = None.
Proof.
  intros Ha Hb. unfold path_join. destruct (startswith b _); [done|].
  destruct (_ || _); rewrite !name_error_app; by split_and!.
Qed.

Section FetchFile.
Context `{Library}.

(** A fetch that returns got a response when the request was answered
    with a good status, and then its file was opened. *)
Lemma download_pdf_opened (k base dir : str) (w : world) (r : response)
    (o : outcome) :
  let u := pdf_url base (normalize k) in
  let out := path_join dir (normalize k ++ py ".pdf") in
  (download_pdf k base dir w).1 = Returned o →
  net w (length (sent w)) u = Response r →
  ¬ (400 ≤ status_code r < 600)%Z →
  (open_wb out (log (EvGet u) w)).1 = Returned (components out).
Proof.
  intros u out Hres Hrep Hok. rewrite download_pdf_steps in Hres.
  unfold fetch_steps in Hres. fold u out in Hres.
  rewrite Hrep, bool_decide_eq_false_2 in Hres by done.
  destruct (open_wb out (log (EvGet u) w)) as [[f|e] w2] eqn:Eo; [|done].
  by apply open_wb_returned in Eo as (-> & _).
Qed.

Lemma download_pdf_success_reply (k base dir : str) (w : world)
    (id path : str) :
  (download_pdf k base dir w).1 = Returned (id, true, path) →
  ∃ r, net w (length (sent w)) (pdf_url base (normalize k)) = Response r
       ∧ ¬ (400 ≤ status_code r < 600)%Z ∧ broken r = None.
Proof.
  intros Hres.
  destruct (download_pdf_spec k base dir w)
    as (r' & w' & t & E & _ & _ & _ & _ & Hr).
  rewrite E in Hres. simpl in Hres. subst r'.
  destruct Hr as [[_ (r & ? & ? & ?)]|(msg & [=] & _)]. eauto.
Qed.

(** A fetch that returns after a good status has written the whole
    body. *)
Lemma download_pdf_whole (k base dir : str) (w : world) (r : response)
    (o : outcome) :
  let nk := normalize k in
  let out := path_join dir (nk ++ py ".pdf") in
  (download_pdf k base dir w).1 = Returned o →
  net w (length (sent w)) (pdf_url base nk) = Response r →
  ¬ (400 ≤ status_code r < 600)%Z →
  fs (download_pdf k base dir w).2
  = <[components out := File (concat (content r))]> (fs w)
  ∧ free (download_pdf k base dir w).2
    = (free w + size_at (fs w) (components out) - total (content r))%N
  ∧ o = match broken r with
        | Some msg => (nk, false, msg)
        | None => (nk, true, out)
        end.
Proof.
  intros nk out Hres Hrep Hok.
  pose proof (download_pdf_opened _ _ _ _ _ _ Hres Hrep Hok) as Hopen.
  destruct (download_pdf_body k base dir w r Hrep Hok Hopen)
    as (Hfs & Hfree & _ & Hr).
  fold nk out in Hfs, Hfree, Hr. rewrite Hres in Hr.
  destruct (N.ltb_spec (free w + size_at (fs w) (components out))
              (total (content r))) as [|Hroom]; [done|].
  injection Hr as ->. split_and!; [|done..].
  rewrite Hfs, take_ge; [done|]. unfold total in Hroom. lia.
Qed.
End FetchFile.

(** X1: when a fetch reports success, the path it returns is the output
    directory joined with the normalised identifier and [.pdf], the file
    at that path holds the whole body of the response, whatever it held
    before, and nothing else on the disk has changed. *)
Theorem fetch_saves_body `{Library} (k base dir : str) (w : world)
    (id path : str) :
  (download_pdf k base dir w).1 = Returned (id, true, path) →
  path = path_join dir (normalize k ++ py ".pdf")
  ∧ ∃ r, net w (length (sent w)) (pdf_url base (normalize k)) = Response r
         ∧ fs (download_pdf k base dir w).2
           = <[components path := File (concat (content r))]> (fs w)
         ∧ free (download_pdf k base dir w).2
           = (free w + size_at (fs w) (components path) - total (content r))%N.
Proof.
  intros Hres.
  destruct (download_pdf_success_reply _ _ _ _ _ _ Hres) as (r & Hrep & Hok & Hb).
  destruct (download_pdf_whole k base dir w r _ Hres Hrep Hok)
    as (Hfs & Hfree & Ho).
  rewrite Hb in Ho. injection Ho as _ ->. split; [done|]. by exists r.
Qed.

Lemma fetch_saves_body_witness :
  py "out/K241380.pdf" = path_join (py "out") (py "K241380" ++ py ".pdf")
  ∧ ∃ r, generous_server 0 (base_url ++ py "pdf24/K241380.pdf") = Response r
         ∧ fs (@download_pdf latin1_library (py "K241380") base_url (py "out")
                 (ready generous_server 100)).2
           = <[ [py "out"; py "K241380.pdf"] := File (concat (content r)) ]>
               (fs (ready generous_server 100))
         ∧ free (@download_pdf latin1_library (py "K241380") base_url
                   (py "out") (ready generous_server 100)).2
           = (100 + 3 - total (content r))%N.
Proof.
  apply (@fetch_saves_body latin1_library (py "K241380") base_url (py "out")
           (ready generous_server 100) (py "K241380") (py "out/K241380.pdf")).
  by vm_compute.
Defined.

(** X2: a request that gets no response, or a response with an error
    status, leaves the disk as it was: the fetch returns a failure
    without opening a file, so that a copy from an earlier run stays. *)
Theorem fetch_failure_keeps_disk `{Library} (k base dir : str) (w : world) :
  let u := pdf_url base (normalize k) in
  ¬ (∃ r, net w (length (sent w)) u = Response r
          ∧ ¬ (400 ≤ status_code r < 600)%Z) →
  fs (download_pdf k base dir w).2 = fs w
  ∧ free (download_pdf k base dir w).2 = free w
  ∧ trace (download_pdf k base dir w).2 = trace w ++ [EvGet u]
  ∧ ∃ msg, (download_pdf k base dir w).1 = Returned (normalize k, false, msg).
Proof.
  intros u Hrep. rewrite (download_pdf_no_body k base dir w Hrep).
  split_and!; try done.
  rewrite download_pdf_steps. unfold fetch_steps. fold u.
  destruct (net w (length (sent w)) u) as [msg|r]; [by eexists|].
  case_bool_decide; [by eexists|]. destruct Hrep. eauto.
Qed.

Lemma fetch_failure_keeps_disk_witness :
  let run := @download_pdf latin1_library (py "K241380") base_url (py "out")
               (ready dead_server 100) in
  fs run.2 = fs (ready dead_server 100)
  ∧ free run.2 = 100%N
  ∧ trace run.2 = [] ++ [EvGet (base_url ++ py "pdf24/K241380.pdf")]
  ∧ ∃ msg, run.1 = Returned (py "K241380", false, msg).
Proof.
  apply (@fetch_failure_keeps_disk latin1_library (py "K241380") base_url
           (py "out") (ready dead_server 100)).
  intros (r & Hr & _). discriminate Hr.
Defined.

(** X3: a fetch that fails after a response with a good status, because
    the body broke off, has emptied the file and written what arrived:
    the part of the body stays on the disk, and an earlier copy is
    lost. *)
Theorem fetch_broken_leaves_part `{Library} (k base dir : str) (w : world)
    (r : response) (id msg : str) :
  let u := pdf_url base (normalize k) in
  let out := path_join dir (normalize k ++ py ".pdf") in
  (download_pdf k base dir w).1 = Returned (id, false, msg) →
  net w (length (sent w)) u = Response r →
  ¬ (400 ≤ status_code r < 600)%Z →
  broken r = Some msg
  ∧ fs (download_pdf k base dir w).2
    = <[components out := File (concat (content r))]> (fs w).
Proof.
  intros u out Hres Hrep Hok.
  destruct (download_pdf_whole k base dir w r _ Hres Hrep Hok)
    as (Hfs & _ & Ho).
  split; [|done].
  destruct (broken r) as [msg'|]; [|done]. by injection Ho as _ ->.
Qed.

Lemma fetch_broken_leaves_part_witness :
  broken (cut_off (base_url ++ py "pdf24/K241380.pdf"))
  = Some (py "Connection broken")
  ∧ fs (@download_pdf latin1_library (py "K241380") base_url (py "out")
          (ready breaking_server 100)).2
    = <[ [py "out"; py "K241380.pdf"] := File [Byte.x25; Byte.x50] ]>
        (fs (ready breaking_server 100)).
Proof.
  apply (@fetch_broken_leaves_part latin1_library (py "K241380") base_url
           (py "out") (ready breaking_server 100)
           (cut_off (base_url ++ py "pdf24/K241380.pdf"))
           (py "K241380") (py "Connection broken")).
  - by vm_compute.
  - by vm_compute.
  - simpl. lia.
Defined.

(** ** When the file can be opened *)

(** The bytes of a name that has no slash have none, and the bytes of a
    name that ends in [.pdf] end in [.pdf]. *)
Lemma fsencode_char_slash (c : char) :
  c ≠ 0x2F%N → 0x2F%N ∉ fsencode_char c.
Proof.
  intros Hc. unfold fsencode_char.
  destruct (N.ltb_spec c 0x80).
  { intros Hin%list_elem_of_singleton. congruence. }
  repeat match goal with
         | |- context [(?a `mod` ?b)%N] => generalize (a `mod` b)%N; intro
         | |- context [(?a `div` ?b)%N] => generalize (a `div` b)%N; intro
         end.
  destruct (N.ltb_spec c 0x800).
  { rewrite !elem_of_cons, elem_of_nil. lia. }
  destruct (N.leb_spec 0xDC80 c), (N.leb_spec c 0xDCFF); simpl;
    try destruct (N.ltb_spec c 0x10000);
    rewrite ?elem_of_cons, elem_of_nil; lia.
Qed.

Lemma fsencode_slash (s : str) : 0x2F%N ∉ s → 0x2F%N ∉ fsencode s.
Proof.
  induction s as [|c s IH]; [done|].
  rewrite not_elem_of_cons. intros [Hc Hs].
  unfold fsencode. simpl. rewrite elem_of_app. intros [Hin|Hin].
  - by apply (fsencode_char_slash c).
  - by apply IH.
Qed.

Lemma fsencode_app (a b : str) : fsencode (a ++ b) = fsencode a ++ fsencode b.
Proof. unfold fsencode. by rewrite flat_map_app. Qed.

Section FetchOpens.
Context `{Library}.

(** In an output directory that is there, the file of an identifier
    that has no slash and is a name Python takes can be opened unless a
    directory has its name or the system refuses. *)
Lemma download_pdf_can_open (k dir : str) (u : str) (w : world) :
  let name := normalize k ++ py ".pdf" in
  0x2F%N ∉ normalize k →
  name_error (normalize k) = None →
  isdir w dir = true →
  is_dir (fs w) (components dir ++ [fsencode name]) = false →
  denied w (components dir ++ [fsencode name]) = None →
  components (path_join dir name) = components dir ++ [fsencode name]
  ∧ (open_wb (path_join dir name) (log (EvGet u) w)).1
    = Returned (components dir ++ [fsencode name]).
Proof.
  intros name Hslash Hname Hdir Hfree Hden.
  assert (name ≠ []) as Hne by (unfold name; by destruct (normalize k)).
  assert (components (path_join dir name) = components dir ++ [fsencode name])
    as Hc.
  { apply components_path_join; [|done|].
    - unfold name. rewrite elem_of_app. intros [?|Hin]; [done|].
      revert Hin. apply (bool_decide_eq_false_1 (0x2F%N ∈ py ".pdf")).
      by vm_compute.
    - unfold name. intros Heq. apply (f_equal length) in Heq.
      rewrite length_app in Heq. simpl in Heq. lia. }
  split; [done|].
  unfold isdir in Hdir.
  destruct (name_error dir) eqn:Endir; [done|].
  apply andb_true_iff in Hdir as [_ Hdir].
  destruct (descend (denied w) (fs w) [] (components dir)) eqn:Hd; [done|].
  rewrite open_wb_can; rewrite ?Hc; try done.
  - apply name_error_path_join; [done|]. unfold name.
    apply name_error_app. split; [done|]. by vm_compute.
  - by destruct (components dir).
  - unfold path_join, name.
    destruct (startswith _ _); [|destruct (_ || _)];
      rewrite ?app_assoc; change (py ".pdf") with (py ".pd" ++ [0x66%N]);
      rewrite ?app_assoc, last_snoc; done.
  - by rewrite removelast_last.
Qed.
End FetchOpens.

(** X4: a fetch succeeds when the response has a good status and a body
    that does not break off, the output directory is there, the
    normalised identifier has no slash and is a name that Python takes
    (no null character, no character that cannot be encoded), no
    directory has the name of the file, the system does not refuse to
    open it, and the body fits on the disk once the old file is
    emptied. *)
Theorem fetch_succeeds `{Library} (k base dir : str) (w : world)
    (r : response) :
  let nk := normalize k in
  let f := components dir ++ [fsencode (nk ++ py ".pdf")] in
  net w (length (sent w)) (pdf_url base nk) = Response r →
  ¬ (400 ≤ status_code r < 600)%Z →
  broken r = None →
  0x2F%N ∉ nk →
  name_error nk = None →
  isdir w dir = true →
  is_dir (fs w) f = false →
  denied w f = None →
  (total (content r) ≤ free w + size_at (fs w) f)%N →
  (download_pdf k base dir w).1
  = Returned (nk, true, path_join dir (nk ++ py ".pdf")).
Proof.
  intros nk f Hrep Hok Hb Hslash Hname Hdir Hf Hden Hroom.
  destruct (download_pdf_can_open k dir (pdf_url base nk) w
              Hslash Hname Hdir Hf Hden) as [Hc Hopen].
  rewrite <- Hc in Hopen.
  destruct (download_pdf_body k base dir w r Hrep Hok Hopen)
    as (_ & _ & _ & Hr).
  fold nk in Hr, Hc. rewrite Hc in Hr. fold f in Hr. rewrite Hr, Hb.
  by destruct (N.ltb_spec (free w + size_at (fs w) f) (total (content r)));
    [lia|].
Qed.

Lemma fetch_succeeds_witness :
  (@download_pdf latin1_library (py " k241380") base_url (py "out")
     (ready generous_server 1)).1
  = Returned (py "K241380", true, py "out/K241380.pdf").
Proof.
  apply (@fetch_succeeds latin1_library (py " k241380") base_url (py "out")
           (ready generous_server 1)
           (found (base_url ++ py "pdf24/K241380.pdf"))).
  - by vm_compute.
  - simpl. lia.
  - done.
  - apply (bool_decide_eq_false_1 (0x2F%N ∈ _)). by vm_compute.
  - by vm_compute.
  - by vm_compute.
  - by vm_compute.
  - by vm_compute.
  - by vm_compute.
Defined.

(** X5: when the body does not fit on the disk, the file being one that
    can be opened, the fetch raises the [OSError] of the full disk,
    which the [except] clause does not take; the file is left with the
    first bytes of the body, as many as there was room for, and the disk
    is full. *)
Theorem fetch_disk_full `{Library} (k base dir : str) (w : world)
    (r : response) :
  let nk := normalize k in
  let f := components dir ++ [fsencode (nk ++ py ".pdf")] in
  let room := (free w + size_at (fs w) f)%N in
  net w (length (sent w)) (pdf_url base nk) = Response r →
  ¬ (400 ≤ status_code r < 600)%Z →
  0x2F%N ∉ nk →
  name_error nk = None →
  isdir w dir = true →
  is_dir (fs w) f = false →
  denied w f = None →
  (room < total (content r))%N →
  (download_pdf k base dir w).1
  = Raised (OSError (py "[Errno 28] No space left on device"))
  ∧ fs (download_pdf k base dir w).2
    = <[f := File (take (N.to_nat room) (concat (content r)))]> (fs w)
  ∧ free (download_pdf k base dir w).2 = 0%N.
Proof.
  intros nk f room Hrep Hok Hslash Hname Hdir Hf Hden Hroom.
  destruct (download_pdf_can_open k dir (pdf_url base nk) w
              Hslash Hname Hdir Hf Hden) as [Hc Hopen].
  rewrite <- Hc in Hopen.
  destruct (download_pdf_body k base dir w r Hrep Hok Hopen)
    as (Hfs & Hfree & _ & Hr).
  fold nk in Hr, Hc, Hfs, Hfree.
  rewrite Hc in Hr, Hfs, Hfree. fold f room in Hr, Hfs, Hfree.
  rewrite Hr, Hfs, Hfree.
  destruct (N.ltb_spec room (total (content r))); [|lia].
  split_and!; [done..|lia].
Qed.

Lemma fetch_disk_full_witness :
  let run := @download_pdf latin1_library (py "K241380") base_url (py "out")
               (ready generous_server 0) in
  run.1 = Raised (OSError (py "[Errno 28] No space left on device"))
  ∧ fs run.2
    = <[ [py "out"; py "K241380.pdf"] := File [Byte.x25; Byte.x50; Byte.x44] ]>
        (fs (ready generous_server 0))
  ∧ free run.2 = 0%N.
Proof.
  apply (@fetch_disk_full latin1_library (py "K241380") base_url (py "out")
           (ready generous_server 0)
           (found (base_url ++ py "pdf24/K241380.pdf"))).
  - by vm_compute.
  - simpl. lia.
  - apply (bool_decide_eq_false_1 (0x2F%N ∈ _)). by vm_compute.
  - by vm_compute.
  - by vm_compute.
  - by vm_compute.
  - by vm_compute.
  - by vm_compute.
Defined.

(** ** Identifiers that are normalised alike *)

Lemma lstrip_app_space (l s : str) :
  Forall (λ c, isspace c = true) l → lstrip (l ++ s) = lstrip s.
Proof. induction 1 as [|c l Hc _ IH]; simpl; [done|]. by rewrite Hc. Qed.

Lemma rstrip_all_space (r : str) :
  Forall (λ c, isspace c = true) r → rstrip r = [].
Proof. induction 1 as [|c r Hc _ IH]; simpl; [done|]. by rewrite IH, Hc. Qed.

Lemma rstrip_app_space (s r : str) :
  Forall (λ c, isspace c = true) r → rstrip (s ++ r) = rstrip s.
Proof.
  intros Hr. induction s as [|c s IH]; simpl.
  - by apply rstrip_all_space.
  - by rewrite IH.
Qed.

Lemma lstrip_app (s r : str) :
  lstrip (s ++ r) = match lstrip s with [] => lstrip r | t => t ++ r end.
Proof.
  induction s as [|c s IH]; simpl; [by destruct (lstrip r)|].
  by destruct (isspace c).
Qed.

(** Whitespace around a string does not count. *)
Lemma strip_padded (l s r : str) :
  Forall (λ c, isspace c = true) l → Forall (λ c, isspace c = true) r →
  strip (l ++ s ++ r) = strip s.
Proof.
  intros Hl Hr. unfold strip. rewrite lstrip_app_space by done.
  rewrite lstrip_app. destruct (lstrip s) as [|c t] eqn:E.
  - by rewrite (strip_all_space r Hr : rstrip (lstrip r) = []).
  - by rewrite rstrip_app_space.
Qed.

Lemma isspace_ascii_lower (c : char) : isspace (ascii_lower c) = isspace c.
Proof.
  unfold ascii_lower.
  destruct (N.leb_spec 0x41 c), (N.leb_spec c 0x5A); simpl; try done.
  transitivity false; [|symmetry]; apply isspace_false_iff; lia.
Qed.

Lemma lstrip_ascii_lower (s : str) :
  lstrip (ascii_lower <$> s) = ascii_lower <$> lstrip s.
Proof.
  induction s as [|c s IH]; [done|]. cbn [fmap list_fmap lstrip].
  rewrite isspace_ascii_lower. by destruct (isspace c).
Qed.

Lemma rstrip_ascii_lower (s : str) :
  rstrip (ascii_lower <$> s) = ascii_lower <$> rstrip s.
Proof.
  induction s as [|c s IH]; [done|]. cbn [fmap list_fmap rstrip].
  change (list_fmap _ _ ascii_lower s) with (ascii_lower <$> s).
  rewrite IH, isspace_ascii_lower.
  destruct (rstrip s); [by destruct (isspace c)|done].
Qed.

Section Alike.
Context `{Library}.

Lemma upper_char_ascii_lower (c : char) :
  upper_char (ascii_lower c) = upper_char c.
Proof.
  unfold ascii_lower.
  destruct (N.leb_spec 0x41 c), (N.leb_spec c 0x5A); simpl; try done.
  rewrite !upper_char_ascii by lia.
  destruct (N.leb_spec 0x61 (c + 32)), (N.leb_spec (c + 32) 0x7A),
    (N.leb_spec 0x61 c), (N.leb_spec c 0x7A); simpl; f_equal; lia.
Qed.

Lemma upper_ascii_lower (s : str) : upper (ascii_lower <$> s) = upper s.
Proof.
  induction s as [|c s IH]; [done|].
  change (upper (ascii_lower <$> c :: s))
    with (upper_char (ascii_lower c) ++ upper (ascii_lower <$> s)).
  by rewrite IH, upper_char_ascii_lower.
Qed.
End Alike.

(** X6: whitespace around an identifier and the case of its ASCII
    letters do not count: identifiers that differ in these only are
    normalised to the same identifier, so that they are fetched from the
    same URL into the same file. *)
Theorem normalize_alike `{Library} (l s r base dir : str) :
  Forall (λ c, isspace c = true) l → Forall (λ c, isspace c = true) r →
  normalize (l ++ (ascii_lower <$> s) ++ r) = normalize s
  ∧ pdf_url base (normalize (l ++ (ascii_lower <$> s) ++ r))
    = pdf_url base (normalize s)
  ∧ path_join dir (normalize (l ++ (ascii_lower <$> s) ++ r) ++ py ".pdf")
    = path_join dir (normalize s ++ py ".pdf").
Proof.
  intros Hl Hr.
  assert (normalize (l ++ (ascii_lower <$> s) ++ r) = normalize s) as ->;
    [|done].
  unfold normalize. rewrite strip_padded by done.
  unfold strip. by rewrite lstrip_ascii_lower, rstrip_ascii_lower,
    upper_ascii_lower.
Qed.

Lemma normalize_alike_witness :
  @normalize latin1_library (py "  " ++ (ascii_lower <$> py "K24A380") ++ py " ")
  = @normalize latin1_library (py "K24A380")
  ∧ @pdf_url latin1_library base_url
      (@normalize latin1_library
         (py "  " ++ (ascii_lower <$> py "K24A380") ++ py " "))
    = @pdf_url latin1_library base_url (@normalize latin1_library (py "K24A380"))
  ∧ path_join (py "out")
      (@normalize latin1_library
         (py "  " ++ (ascii_lower <$> py "K24A380") ++ py " ") ++ py ".pdf")
    = path_join (py "out") (@normalize latin1_library (py "K24A380") ++ py ".pdf").
Proof.
  apply (@normalize_alike latin1_library (py "  ") (py "K24A380") (py " ")
           base_url (py "out")); repeat constructor.
Defined.

(** ** A fetch does not look at the pool *)

Lemma open_wb_reframe (name : str) (s : list nat) (n : Z) (l : list future)
    (w : world) :
  open_wb name (reframe s n l w)
  = ((open_wb name w).1, reframe s n l (open_wb name w).2).
Proof.
  unfold open_wb.
  change (fs (log (EvOpen name) (reframe s n l w))) with (fs w).
  change (fs (log (EvOpen name) w)) with (fs w).
  change (denied (log (EvOpen name) (reframe s n l w))) with (denied w).
  change (denied (log (EvOpen name) w)) with (denied w).
  destruct (name_error name); [done|].
  case_bool_decide; [done|].
  destruct (descend _ _ _ _); [done|].
  destruct (_ || _ || _); [done|].
  by destruct (denied w (components name)).
Qed.

Lemma write_reframe (f : path) (c : bytes) (s : list nat) (n : Z)
    (l : list future) (w : world) :
  write f c (reframe s n l w)
  = ((write f c w).1, reframe s n l (write f c w).2).
Proof.
  unfold write. change (fs (reframe s n l w)) with (fs w).
  change (free (reframe s n l w)) with (free w).
  destruct (fs w !! f) as [[|data]|]; [done| |done].
  by destruct (free w <? N.of_nat (length c))%N.
Qed.

Lemma write_chunks_reframe (f : path) (chunks : list bytes) (s : list nat)
    (n : Z) (l : list future) (w : world) :
  write_chunks f chunks (reframe s n l w)
  = ((write_chunks f chunks w).1, reframe s n l (write_chunks f chunks w).2).
Proof.
  revert w. induction chunks as [|c chunks IH]; intros w; [done|].
  cbn [write_chunks]. unfold mbind, M_bind. rewrite write_reframe.
  destruct (write f c w) as [[[]|e] w1]; [|done]. simpl. apply IH.
Qed.

Lemma download_pdf_reframe `{Library} (k base dir : str) (s : list nat)
    (n : Z) (l : list future) (w : world) :
  download_pdf k base dir (reframe s n l w)
  = ((download_pdf k base dir w).1,
     reframe s n l (download_pdf k base dir w).2).
Proof.
  rewrite !download_pdf_steps. unfold fetch_steps.
  change (sent (reframe s n l w)) with (sent w).
  change (net (reframe s n l w)) with (net w).
  set (u := pdf_url base (normalize k)).
  change (log (EvGet u) (reframe s n l w)) with (reframe s n l (log (EvGet u) w)).
  destruct (net w (length (sent w)) u) as [msg|r]; [done|].
  case_bool_decide; [done|].
  rewrite open_wb_reframe.
  destruct (open_wb _ (log (EvGet u) w)) as [[f|e] w2]; [|done]. simpl.
  rewrite write_chunks_reframe.
  destruct (write_chunks f (content r) w2) as [[[]|e] w3]; [|done]. simpl.
  by destruct (broken r).
Qed.

Lemma disk_eq_refl (w : world) : disk_eq w w.
Proof. by unfold disk_eq. Qed.

Lemma disk_eq_sym (w v : world) : disk_eq w v → disk_eq v w.
Proof. intros (? & ? & ? & ? & ?). by split_and!. Qed.

Lemma disk_eq_trans (w v u : world) : disk_eq w v → disk_eq v u → disk_eq w u.
Proof.
  intros (? & ? & ? & ? & ?) (? & ? & ? & ? & ?). split_and!; congruence.
Qed.

(** A fetch gives the same result, and leaves the same disk, in states
    that differ in the scheduler and the executor only. *)
Lemma download_pdf_disk_eq `{Library} (k base dir : str) (w v : world) :
  disk_eq w v →
  (download_pdf k base dir w).1 = (download_pdf k base dir v).1
  ∧ disk_eq (download_pdf k base dir w).2 (download_pdf k base dir v).2.
Proof.
  destruct w as [f n d nt s t m l], v as [f' n' d' nt' s' t' m' l'].
  intros (Hf & Hn & Hd & Hnt & Ht). simpl in *. subst f' n' d' nt' t'.
  change {| fs := f; free := n; denied := d; net := nt; sched := s';
            trace := t; workers := m'; futures := l' |}
    with (reframe s' m' l'
            {| fs := f; free := n; denied := d; net := nt; sched := s;
               trace := t; workers := m; futures := l |}).
  rewrite download_pdf_reframe. simpl. split; [done|]. by unfold disk_eq.
Qed.

(** ** Fetches run one after another *)

Section Sequential.
Context `{Library}.

Lemma seq_step_length (st : list future * world) (i : nat) :
  length (seq_step st i).1 = length st.1.
Proof.
  unfold seq_step. destruct (st.1 !! i) as [[k b d|r]|]; [|done..].
  simpl. apply length_insert.
Qed.

Lemma seq_step_extends (st : list future * world) (i : nat) :
  extends st.1 (seq_step st i).1.
Proof.
  intros j r Hj. unfold seq_step.
  destruct (st.1 !! i) as [[k b d|r']|] eqn:Hi; [|done..].
  simpl. rewrite list_lookup_insert_ne; [done|]. intros ->. congruence.
Qed.

Lemma seq_step_other (st : list future * world) (i j : nat) :
  i ≠ j → (seq_step st i).1 !! j = st.1 !! j.
Proof.
  intros Hne. unfold seq_step.
  destruct (st.1 !! i) as [[k b d|r']|]; [|done..].
  simpl. by rewrite list_lookup_insert_ne.
Qed.

Lemma ndone_insert (l : list future) (i : nat) (r : result outcome) :
  ndone (<[i := Done r]> l) ≤ S (ndone l).
Proof.
  revert i. induction l as [|f l IH]; intros i; [simpl; lia|].
  destruct i as [|i]; simpl.
  - destruct f; lia.
  - specialize (IH i). destruct f; lia.
Qed.

Lemma seq_step_ndone (st : list future * world) (i : nat) :
  ndone (seq_step st i).1 ≤ S (ndone st.1).
Proof.
  unfold seq_step. destruct (st.1 !! i) as [[k b d|r']|]; [|lia..].
  simpl. apply ndone_insert.
Qed.

Lemma run_in_order_snoc (order : list nat) (i : nat) (l : list future)
    (w : world) :
  run_in_order (order ++ [i]) l w = seq_step (run_in_order order l w) i.
Proof. unfold run_in_order. apply foldl_snoc. Qed.

Lemma run_in_order_app (order ext : list nat) (l : list future) (w : world) :
  run_in_order (order ++ ext) l w
  = run_in_order ext (run_in_order order l w).1 (run_in_order order l w).2.
Proof.
  unfold run_in_order. rewrite foldl_app.
  by destruct (foldl seq_step (l, w) order).
Qed.

Lemma run_in_order_length (order : list nat) (l : list future) (w : world) :
  length (run_in_order order l w).1 = length l.
Proof.
  induction order as [|i order IH] using rev_ind; [done|].
  by rewrite run_in_order_snoc, seq_step_length.
Qed.

Lemma run_in_order_extends (order : list nat) (l : list future) (w : world) :
  extends l (run_in_order order l w).1.
Proof.
  induction order as [|i order IH] using rev_ind; [by intros j r|].
  rewrite run_in_order_snoc. intros j r Hj.
  by apply seq_step_extends, IH.
Qed.

Lemma run_in_order_other (order : list nat) (l : list future) (w : world)
    (j : nat) :
  j ∉ order → (run_in_order order l w).1 !! j = l !! j.
Proof.
  induction order as [|i order IH] using rev_ind; [done|].
  rewrite not_elem_of_app, not_elem_of_cons. intros [Hj [Hne _]].
  rewrite run_in_order_snoc, seq_step_other by done. by apply IH.
Qed.

Lemma ndone_submitted (ks : list str) (base dir : str) :
  ndone (submitted ks base dir) = 0.
Proof. induction ks as [|k ks IH]; [done|]. exact IH. Qed.

Lemma run_in_order_ndone (order : list nat) (ks : list str) (base dir : str)
    (w : world) :
  ndone (run_in_order order (submitted ks base dir) w).1 ≤ length order.
Proof.
  induction order as [|i order IH] using rev_ind.
  - change (run_in_order [] (submitted ks base dir) w).1
      with (submitted ks base dir).
    rewrite ndone_submitted. simpl. lia.
  - rewrite run_in_order_snoc, length_app. simpl.
    pose proof (seq_step_ndone
      (run_in_order order (submitted ks base dir) w) i). lia.
Qed.

(** A future that is done belongs to a fetch that has run. *)
Lemma run_in_order_done (order : list nat) (ks : list str) (base dir : str)
    (w : world) (j : nat) (r : result outcome) :
  (run_in_order order (submitted ks base dir) w).1 !! j = Some (Done r) →
  j ∈ order.
Proof.
  intros Hj. destruct (decide (j ∈ order)) as [|Hn]; [done|].
  rewrite run_in_order_other in Hj by done.
  unfold submitted in Hj. rewrite list_lookup_fmap in Hj.
  by destruct (ks !! j).
Qed.
End Sequential.

Lemma extends_refl (l : list future) : extends l l.
Proof. by intros i r. Qed.

Lemma extends_trans (l1 l2 l3 : list future) :
  extends l1 l2 → extends l2 l3 → extends l1 l3.
Proof. intros H12 H23 i r Hi. by apply H23, H12. Qed.

(** The [q]-th of the futures that are not done has at most [q] plus the
    number of the futures that are done before it. *)
Lemma pending_from_bound (a q i : nat) (l : list future) :
  pending_from a l !! q = Some i → i ≤ a + q + ndone l.
Proof.
  revert a q. induction l as [|f l IH]; intros a q Hq; [done|].
  destruct f as [k b d|r]; simpl in *.
  - destruct q as [|q]; simpl in Hq.
    + injection Hq as <-. lia.
    + apply IH in Hq. lia.
  - apply IH in Hq. lia.
Qed.

(** ** The pool follows the fetches run one after another *)

Section Tracking.
Context `{Library}.

Lemma seq_step_ran (st : list future * world) (i j : nat) (k b d : str) :
  (∀ k b d, st.1 !! j ≠ Some (Pending k b d)) ∨ i = j →
  (seq_step st i).1 !! j ≠ Some (Pending k b d).
Proof.
  intros Hj. unfold seq_step.
  destruct (st.1 !! i) as [[k' b' d'|r']|] eqn:Hi; simpl.
  - destruct (decide (i = j)) as [->|Hne].
    + rewrite list_lookup_insert_eq; [done|]. by eapply lookup_lt_Some.
    + rewrite list_lookup_insert_ne by done. destruct Hj as [Hj|]; [|done].
      apply Hj.
  - destruct Hj as [Hj| ->]; [apply Hj|]. by rewrite Hi.
  - destruct Hj as [Hj| ->]; [apply Hj|]. by rewrite Hi.
Qed.

(** The future of a fetch that has run is not pending. *)
Lemma run_in_order_ran (order : list nat) (l : list future) (w : world)
    (j : nat) (k b d : str) :
  j ∈ order → (run_in_order order l w).1 !! j ≠ Some (Pending k b d).
Proof.
  revert k b d. induction order as [|i order IH] using rev_ind; intros k b d.
  - by intros ?%elem_of_nil.
  - rewrite elem_of_app, list_elem_of_singleton, run_in_order_snoc.
    intros [Hj| ->]; apply seq_step_ran; [left|by right].
    intros k' b' d'. by apply IH.
Qed.

Lemma tracks_sched (ks : list str) (base dir : str) (w0 : world)
    (order : list nat) (w : world) (s : list nat) :
  tracks ks base dir w0 order w → tracks ks base dir w0 order (set_sched s w).
Proof. intros (? & ? & ? & ? & ?). by split_and!. Qed.

Lemma tracks_length (ks : list str) (base dir : str) (w0 : world)
    (order : list nat) (w : world) :
  tracks ks base dir w0 order w → length (futures w) = length ks.
Proof.
  intros (_ & -> & _). rewrite run_in_order_length.
  unfold submitted. apply length_fmap.
Qed.

(** A worker completes the fetch of a pending future: the fetches that
    have run are one more. *)
Lemma run_task_tracks (ks : list str) (base dir : str) (w0 : world)
    (order : list nat) (w : world) (i : nat) (k b d : str) :
  tracks ks base dir w0 order w →
  futures w !! i = Some (Pending k b d) →
  (Z.of_nat i < Z.of_nat (length order) + workers w0)%Z →
  tracks ks base dir w0 (order ++ [i]) (run_task i w).2
  ∧ ∃ r, futures (run_task i w).2 = <[i := Done r]> (futures w).
Proof.
  intros Htr Hi Hwin. pose proof (tracks_length _ _ _ _ _ _ Htr) as Hlen.
  destruct Htr as (Hnd & Hf & Hde & Hw & Hall).
  set (st := run_in_order order (submitted ks base dir) w0) in *.
  unfold run_task. rewrite Hi.
  destruct (download_pdf_spec k b d w)
    as (r & w' & t & E & _ & _ & (_ & _ & Hw' & Hf') & _).
  destruct (download_pdf_disk_eq k b d w st.2 Hde) as [Hr Hde'].
  rewrite E in Hr, Hde'. simpl in Hr, Hde'. rewrite E. simpl.
  assert (seq_step st i
          = (<[i := Done r]> st.1, log (EvDone i) (download_pdf k b d st.2).2))
    as Hstep.
  { unfold seq_step. rewrite <- Hf, Hi. by rewrite Hr. }
  split; [|exists r; by rewrite Hf'].
  unfold tracks. rewrite run_in_order_snoc. fold st. rewrite Hstep. simpl.
  split_and!.
  - apply NoDup_app. split_and!; [done| |apply NoDup_singleton].
    intros j Hj ->%list_elem_of_singleton.
    apply (run_in_order_ran order (submitted ks base dir) w0 i k b d Hj).
    fold st. by rewrite <- Hf.
  - by rewrite Hf', Hf.
  - destruct Hde' as (? & ? & ? & ? & Ht). split_and!; simpl; try done.
    by rewrite Ht.
  - by rewrite Hw'.
  - intros p j Hp. apply lookup_snoc_Some in Hp as [[Hlt Hp]|[-> <-]].
    + by apply Hall.
    + split; [|done]. rewrite <- Hlen. by eapply lookup_lt_Some.
Qed.

(** One completion: nothing happens when no task is pending; otherwise
    one pending fetch runs. *)
Lemma complete_one_tracks (ks : list str) (base dir : str) (w0 : world)
    (order : list nat) (w : world) :
  tracks ks base dir w0 order w → (0 < workers w0)%Z →
  ∃ order',
    order `prefix_of` order'
    ∧ tracks ks base dir w0 order' (complete_one w).2
    ∧ npending (futures (complete_one w).2) = npending (futures w) - 1.
Proof.
  intros Htr Hw. pose proof Htr as (_ & Hf & _ & Hww & _).
  unfold complete_one, mbind, M_bind, get.
  destruct (running w) as [|j run] eqn:Erun.
  { exists order. split_and!; [done..|]. simpl.
    unfold running, npending in *.
    destruct (pending_from 0 (futures w)); [done|].
    destruct (Z.to_nat (workers w)) eqn:E; [lia|done]. }
  destruct (next_choice_spec w) as (c & w1 & Ec & Hf1 & _). rewrite Ec.
  assert (tracks ks base dir w0 order w1) as Htr1.
  { unfold next_choice in Ec. destruct (sched w) as [|c' s].
    - by injection Ec as _ <-.
    - injection Ec as _ <-. by apply tracks_sched. }
  destruct (lookup_lt_is_Some_2 (j :: run) (c `mod` length (j :: run)))
    as [i Hi]; [apply Nat.mod_upper_bound; simpl; lia|].
  rewrite Hi.
  assert (∃ q, pending_from 0 (futures w) !! q = Some i
               ∧ q < Z.to_nat (workers w)) as (q & Hq & Hqm).
  { generalize dependent (c `mod` length (j :: run)). intros q Hq.
    rewrite <- Erun in Hq. unfold running in Hq.
    exists q. by apply lookup_take_Some in Hq. }
  pose proof (pending_from_bound _ _ _ _ Hq) as Hb.
  assert (i ∈ pending_from 0 (futures w)) as Hin
    by (by eapply list_elem_of_lookup_2).
  apply pending_from_lookup in Hin as [_ (k & b & d & Hl)].
  rewrite Nat.sub_0_r in Hl.
  pose proof (run_in_order_ndone order ks base dir w0) as Hnd.
  rewrite <- Hf in Hnd.
  destruct (run_task_tracks ks base dir w0 order w1 i k b d Htr1)
    as [Htr2 [r Hf2]]; [by rewrite Hf1|lia|].
  exists (order ++ [i]). split_and!; [by apply prefix_app_r|done|].
  rewrite Hf2, Hf1. pose proof (npending_done _ _ _ _ _ r Hl). lia.
Qed.
Lemma tracks_extends (ks : list str) (base dir : str) (w0 : world)
    (order order' : list nat) (w w' : world) :
  tracks ks base dir w0 order w → tracks ks base dir w0 order' w' →
  order `prefix_of` order' → extends (futures w) (futures w').
Proof.
  intros (_ & -> & _) (_ & -> & _) [ext ->].
  rewrite run_in_order_app. apply run_in_order_extends.
Qed.

Lemma wait_tracks (ks : list str) (base dir : str) (w0 : world)
    (fuel i : nat) (order : list nat) (w : world) :
  tracks ks base dir w0 order w → (0 < workers w0)%Z →
  ∃ order', order `prefix_of` order'
            ∧ tracks ks base dir w0 order' (wait fuel i w).2.
Proof.
  revert order w. induction fuel as [|fuel IH]; intros order w Htr Hw.
  - by exists order.
  - cbn [wait]. unfold mbind, M_bind, get.
    destruct (futures w !! i) as [[k b d|r]|]; [|by exists order..].
    destruct (complete_one_spec w) as (w1 & E1 & _). rewrite E1.
    destruct (complete_one_tracks ks base dir w0 order w Htr Hw)
      as (order1 & Hp1 & Htr1 & _).
    rewrite E1 in Htr1. simpl in Htr1.
    destruct (IH order1 w1 Htr1 Hw) as (order2 & Hp2 & Htr2).
    exists order2. split; [by etrans|done].
Qed.

(** [future.result()] reads the result that the future holds once it is
    done. *)
Lemma future_result_tracks (ks : list str) (base dir : str) (w0 : world)
    (i : nat) (order : list nat) (w : world) :
  tracks ks base dir w0 order w → (0 < workers w0)%Z → i < length ks →
  ∃ order',
    order `prefix_of` order'
    ∧ tracks ks base dir w0 order' (future_result i w).2
    ∧ futures (future_result i w).2 !! i
      = Some (Done (future_result i w).1).
Proof.
  intros Htr Hw Hi. pose proof Htr as (_ & _ & _ & Hww & _).
  unfold future_result, mbind, M_bind, get.
  destruct (wait_spec (length (futures w)) i w) as (w1 & E1 & _ & Hn1).
  destruct (wait_tracks ks base dir w0 (length (futures w)) i order w Htr Hw)
    as (order1 & Hp1 & Htr1).
  rewrite E1 in Htr1 |- *. simpl in Htr1.
  specialize (Hn1 ltac:(lia) (npending_le _)).
  destruct (lookup_lt_is_Some_2 (futures w1) i) as [f Hf].
  { by rewrite (tracks_length _ _ _ _ _ _ Htr1). }
  rewrite Hf. destruct f as [k b d|r]; [by destruct (Hn1 k b d)|].
  exists order1. by destruct r.
Qed.

Lemma drain_tracks (ks : list str) (base dir : str) (w0 : world)
    (fuel : nat) (order : list nat) (w : world) :
  tracks ks base dir w0 order w → (0 < workers w0)%Z →
  ∃ order',
    order `prefix_of` order'
    ∧ tracks ks base dir w0 order' (drain fuel w).2
    ∧ npending (futures (drain fuel w).2) = npending (futures w) - fuel.
Proof.
  revert order w. induction fuel as [|fuel IH]; intros order w Htr Hw.
  - exists order. split_and!; [done..|]. simpl. lia.
  - cbn [drain]. unfold mbind, M_bind.
    destruct (complete_one_spec w) as (w1 & E1 & _). rewrite E1.
    destruct (complete_one_tracks ks base dir w0 order w Htr Hw)
      as (order1 & Hp1 & Htr1 & Hn1).
    rewrite E1 in Htr1, Hn1. simpl in Htr1, Hn1.
    destruct (IH order1 w1 Htr1 Hw) as (order2 & Hp2 & Htr2 & Hn2).
    exists order2. split_and!; [by etrans|done|]. lia.
Qed.

(** Leaving the [with] block: every fetch has run. *)
Lemma shutdown_tracks (ks : list str) (base dir : str) (w0 : world)
    (order : list nat) (w : world) :
  tracks ks base dir w0 order w → (0 < workers w0)%Z →
  ∃ order',
    order `prefix_of` order'
    ∧ tracks ks base dir w0 order' (shutdown w).2
    ∧ order' ≡ₚ seq 0 (length ks).
Proof.
  intros Htr Hw. unfold shutdown, mbind, M_bind, get.
  destruct (drain_tracks ks base dir w0 (length (futures w)) order w Htr Hw)
    as (order' & Hp & Htr' & Hn).
  exists order'. split_and!; [done..|].
  pose proof (npending_le (futures w)).
  pose proof (tracks_length _ _ _ _ _ _ Htr') as Hlen.
  pose proof Htr' as (Hnd & Hf & _ & _ & Hall).
  apply NoDup_Permutation; [done|apply NoDup_seq|].
  intros i. rewrite elem_of_seq. split.
  - intros [p Hp']%list_elem_of_lookup. apply Hall in Hp'. lia.
  - intros [_ Hi]. simpl in Hi.
    destruct (lookup_lt_is_Some_2 (futures (drain (length (futures w)) w).2) i)
      as [f Hfi]; [lia|].
    destruct f as [k b d|r].
    + apply npending_pending in Hfi. lia.
    + rewrite Hf in Hfi. by eapply run_in_order_done.
Qed.

(** The loop over the futures gives what [gather] gives on the futures
    in which all the results are. *)
Lemma collect_gather (ks : list str) (base dir : str) (w0 : world)
    (n a : nat) (acc : report) (order : list nat) (w : world) :
  tracks ks base dir w0 order w → (0 < workers w0)%Z →
  a + n = length ks →
  ∃ order',
    order `prefix_of` order'
    ∧ tracks ks base dir w0 order' (collect (seq a n) acc w).2
    ∧ ∀ l, length l = length ks →
           extends (futures (collect (seq a n) acc w).2) l →
           (collect (seq a n) acc w).1 = gather (drop a l) acc.
Proof.
  revert a acc order w.
  induction n as [|n IH]; intros a acc order w Htr Hw Ha.
  - exists order. split_and!; [done..|]. intros l Hlen Hl. simpl.
    by rewrite drop_ge by lia.
  - cbn [seq collect]. unfold mbind, M_bind.
    destruct (future_result_tracks ks base dir w0 a order w Htr Hw)
      as (order1 & Hp1 & Htr1 & Hread); [lia|].
    destruct (future_result a w) as [r w1] eqn:E1. simpl in Htr1, Hread.
    destruct r as [[[kn success] res]|e].
    + assert (∀ acc',
        ∃ order', order `prefix_of` order'
          ∧ tracks ks base dir w0 order' (collect (seq (S a) n) acc' w1).2
          ∧ ∀ l, length l = length ks →
                 extends (futures (collect (seq (S a) n) acc' w1).2) l →
                 (collect (seq (S a) n) acc' w1).1 = gather (drop (S a) l) acc'
                 ∧ l !! a = Some (Done (Returned (kn, success, res))))
        as Hnext.
      { intros acc'.
        destruct (IH (S a) acc' order1 w1 Htr1 Hw) as (order2 & Hp2 & Htr2 & Hg);
          [lia|].
        exists order2. split_and!; [by etrans|done|].
        intros l Hlen Hl. split; [by apply Hg|].
        apply Hl. by apply (tracks_extends _ _ _ _ _ _ _ _ Htr1 Htr2 Hp2). }
      destruct success.
      * destruct (Hnext {| successful := successful acc
             ++ [[("k_number"%string, kn); ("filepath"%string, res)]];
           failed := failed acc |}) as (order2 & Hp2 & Htr2 & Hg).
        exists order2. split_and!; [done..|]. intros l Hlen Hl.
        destruct (Hg l Hlen Hl) as [-> Hla].
        by rewrite (drop_S l _ a Hla).
      * destruct (Hnext {| successful := successful acc;
           failed := failed acc
             ++ [[("k_number"%string, kn); ("error"%string, res)]] |})
          as (order2 & Hp2 & Htr2 & Hg).
        exists order2. split_and!; [done..|]. intros l Hlen Hl.
        destruct (Hg l Hlen Hl) as [-> Hla].
        by rewrite (drop_S l _ a Hla).
    + exists order1. split_and!; [done..|]. intros l Hlen Hl. simpl in *.
      by rewrite (drop_S l _ a (Hl _ _ Hread)).
Qed.
End Tracking.

Section Batch.
Context `{Library}.

Lemma seq_step_disk_eq (l : list future) (w v : world) (i : nat) :
  disk_eq w v →
  (seq_step (l, w) i).1 = (seq_step (l, v) i).1
  ∧ disk_eq (seq_step (l, w) i).2 (seq_step (l, v) i).2.
Proof.
  intros Hd. unfold seq_step. simpl.
  destruct (l !! i) as [[k b d|r]|]; [|done..]. simpl.
  destruct (download_pdf_disk_eq k b d w v Hd) as [-> (? & ? & ? & ? & Ht)].
  split; [done|]. split_and!; simpl; try done. by rewrite Ht.
Qed.

(** The fetches run one after another do the same to the same disk. *)
Lemma run_in_order_disk_eq (order : list nat) (l : list future)
    (w v : world) :
  disk_eq w v →
  (run_in_order order l w).1 = (run_in_order order l v).1
  ∧ disk_eq (run_in_order order l w).2 (run_in_order order l v).2.
Proof.
  intros Hd. induction order as [|i order [IH1 IH2]] using rev_ind; [done|].
  rewrite !run_in_order_snoc.
  destruct (run_in_order order l w) as [l1 w1],
    (run_in_order order l v) as [l2 v1]. simpl in *. subst l2.
  by apply seq_step_disk_eq.
Qed.

(** The batch does what the fetches do, run one after another in the
    order in which the pool completes them. *)
Lemma download_fda_pdfs_sequence (ks : list str) (dir : str) (m : Z)
    (w w1 : world) :
  makedirs dir w = (Returned tt, w1) → (0 < m)%Z →
  ∃ order,
    order ≡ₚ seq 0 (length ks)
    ∧ (∀ p i, order !! p = Some i → (Z.of_nat i < Z.of_nat p + m)%Z)
    ∧ futures (download_fda_pdfs ks dir m w).2
      = (run_in_order order (submitted ks base_url dir) w1).1
    ∧ (download_fda_pdfs ks dir m w).1
      = gather (run_in_order order (submitted ks base_url dir) w1).1
          {| successful := []; failed := [] |}
    ∧ disk_eq (download_fda_pdfs ks dir m w).2
        match (download_fda_pdfs ks dir m w).1 with
        | Returned rep =>
            log (EvPrint (summary_line rep))
              (run_in_order order (submitted ks base_url dir) w1).2
        | Raised _ => (run_in_order order (submitted ks base_url dir) w1).2
        end.
Proof.
  intros Emk Hm. unfold download_fda_pdfs, mbind, M_bind. rewrite Emk.
  unfold ThreadPoolExecutor. rewrite bool_decide_eq_false_2 by lia.
  unfold modify, try_finally, mbind, M_bind.
  set (w2 := set_executor m [] w1).
  destruct (submit_all_spec ks base_url dir [] w2 eq_refl) as (d & Es & Hd).
  change (py "https://www.accessdata.fda.gov/cdrh_docs/") with base_url.
  rewrite Es. simpl in Hd. rewrite Hd.
  set (w3 := set_executor _ _ w2).
  assert (disk_eq w3 w1) as Hd31 by done.
  assert (tracks ks base_url dir w3 [] w3) as Htr3.
  { unfold tracks. split_and!; try done. apply NoDup_nil_2. }
  assert (0 < workers w3)%Z as Hw3 by done.
  destruct (collect_gather ks base_url dir w3 (length ks) 0
              {| successful := []; failed := [] |} [] w3 Htr3 Hw3 eq_refl)
    as (order1 & _ & Htr4 & Hg).
  destruct (collect (seq 0 (length ks)) _ w3) as [r w4] eqn:Ec.
  simpl in Htr4, Hg.
  destruct (shutdown_tracks ks base_url dir w3 order1 w4 Htr4 Hw3)
    as (order & Hp & Htr5 & Hperm).
  destruct (shutdown_spec w4) as (w5 & Esh & _).
  rewrite Esh in Htr5 |- *. simpl in Htr5.
  pose proof (tracks_length _ _ _ _ _ _ Htr5) as Hlen5.
  pose proof (Hg (futures w5) Hlen5
    (tracks_extends _ _ _ _ _ _ _ _ Htr4 Htr5 Hp)) as Hr.
  rewrite drop_0 in Hr.
  destruct Htr5 as (_ & Hf5 & Hde5 & _ & Hall).
  destruct (run_in_order_disk_eq order (submitted ks base_url dir) w3 w1 Hd31)
    as [Hl Hde].
  rewrite Hl in Hf5. rewrite Hf5 in Hr.
  pose proof (disk_eq_trans _ _ _ Hde5 Hde) as Hde51.
  exists order. split_and!; [done|intros p i Hpi; by apply Hall| | |].
  - by destruct r.
  - by destruct r.
  - destruct r as [rep|e]; [|done]. simpl.
    destruct Hde51 as (? & ? & ? & ? & Ht). split_and!; simpl; try done.
    by rewrite Ht.
Qed.
End Batch.

(** ** What a batch sends, completes and prints *)

Lemma completed_app (w : world) (t : list event) (w' : world) :
  trace w' = trace w ++ t →
  completed w' = completed w
    ++ omap (λ e, match e with EvDone i => Some i | _ => None end) t.
Proof. intros Ht. unfold completed. by rewrite Ht, omap_app. Qed.

Lemma stdout_app (w : world) (t : list event) (w' : world) :
  trace w' = trace w ++ t →
  stdout w' = stdout w
    ++ omap (λ e, match e with EvPrint l => Some l | _ => None end) t.
Proof. intros Ht. unfold stdout. by rewrite Ht, omap_app. Qed.

Lemma omap_lookup_seq {A : Type} (l : list A) :
  omap (λ i, l !! i) (seq 0 (length l)) = l.
Proof.
  induction l as [|x l IH] using rev_ind; [done|].
  rewrite length_app. simpl. rewrite Nat.add_1_r, seq_S, omap_app. simpl.
  rewrite lookup_app_r, Nat.sub_diag by lia. simpl.
  transitivity (omap (λ i, l !! i) (seq 0 (length l)) ++ [x]);
    [|by rewrite IH].
  f_equal. apply list_omap_ext, Forall_Forall2_diag, Forall_forall.
  intros i Hi%elem_of_seq. apply lookup_app_l. lia.
Qed.

(** An order in which every task comes at its place or later is the
    order of the numbers. *)
Lemma window_one (order : list nat) (n : nat) :
  order ≡ₚ seq 0 n → (∀ p i, order !! p = Some i → i ≤ p) →
  order = seq 0 n.
Proof.
  intros Hp Hw.
  assert (length order = n) as Hlen by (by rewrite Hp, length_seq).
  assert (NoDup order) as Hnd by (rewrite Hp; apply NoDup_seq).
  assert (∀ p, p < n → order !! p = Some p) as Hid.
  { intros p. induction p as [p IH] using lt_wf_ind. intros Hpn.
    destruct (lookup_lt_is_Some_2 order p) as [i Hi]; [lia|].
    pose proof (Hw p i Hi) as Hle.
    destruct (decide (i = p)) as [->|Hne]; [done|].
    assert (order !! i = Some i) as Hi' by (apply IH; lia).
    pose proof (NoDup_lookup order p i i Hnd Hi Hi'). lia. }
  apply list_eq. intros p. destruct (decide (p < n)) as [Hlt|Hge].
  - rewrite Hid by done. by rewrite lookup_seq_lt.
  - rewrite lookup_ge_None_2 by lia. symmetry. apply lookup_ge_None_2.
    rewrite length_seq. lia.
Qed.

Section BatchTrace.
Context `{Library}.

Lemma seq_step_trace (st : list future * world) (i : nat) (k b d : str) :
  st.1 !! i = Some (Pending k b d) →
  sent (seq_step st i).2 = sent st.2 ++ [pdf_url b (normalize k)]
  ∧ completed (seq_step st i).2 = completed st.2 ++ [i]
  ∧ stdout (seq_step st i).2 = stdout st.2.
Proof.
  intros E. unfold seq_step. rewrite E.
  destruct (download_pdf_spec k b d st.2) as (r & w' & t & Ed & Ht & Hc & _).
  rewrite Ed. simpl.
  assert (trace (log (EvDone i) w')
          = trace st.2 ++ (EvGet (pdf_url b (normalize k)) :: t ++ [EvDone i]))
    as Htr.
  { simpl. rewrite Ht. by rewrite <- app_assoc. }
  rewrite (sent_app _ _ _ Htr), (completed_app _ _ _ Htr),
    (stdout_app _ _ _ Htr).
  destruct Hc as [-> | ->]; simpl; by rewrite ?app_nil_r.
Qed.

(** The fetches run one after another, each once: one request and one
    completion for each, in that order, and nothing printed. *)
Lemma run_in_order_trace (order : list nat) (ks : list str) (base dir : str)
    (w : world) :
  NoDup order → (∀ i, i ∈ order → i < length ks) →
  sent (run_in_order order (submitted ks base dir) w).2
  = sent w ++ omap (λ i, (λ k, pdf_url base (normalize k)) <$> ks !! i) order
  ∧ completed (run_in_order order (submitted ks base dir) w).2
    = completed w ++ order
  ∧ stdout (run_in_order order (submitted ks base dir) w).2 = stdout w.
Proof.
  induction order as [|x order IH] using rev_ind; intros Hnd Hb.
  - simpl. by rewrite !app_nil_r.
  - apply NoDup_app in Hnd as (Hnd & Hni & _).
    destruct IH as (IH1 & IH2 & IH3); [done| |].
    { intros i Hi. apply Hb, elem_of_app. by left. }
    rewrite run_in_order_snoc.
    assert (x ∉ order) as Hx.
    { intros Hin. apply (Hni x Hin), list_elem_of_singleton. done. }
    destruct (lookup_lt_is_Some_2 ks x) as [k Hk].
    { apply Hb, elem_of_app. right. by apply list_elem_of_singleton. }
    assert ((run_in_order order (submitted ks base dir) w).1 !! x
            = Some (Pending k base dir)) as Hpend.
    { rewrite run_in_order_other by done. unfold submitted.
      by rewrite list_lookup_fmap, Hk. }
    destruct (seq_step_trace _ x k base dir Hpend) as (-> & -> & ->).
    rewrite IH1, IH2, IH3, omap_app. simpl. rewrite Hk. simpl.
    by rewrite <- !app_assoc.
Qed.

(** The requests, the completions and the printed lines of a batch that
    has a directory and a worker. *)
Lemma download_fda_pdfs_trace (ks : list str) (dir : str) (m : Z)
    (w : world) :
  (makedirs dir w).1 = Returned tt → (0 < m)%Z →
  ∃ order,
    order ≡ₚ seq 0 (length ks)
    ∧ (∀ p i, order !! p = Some i → (Z.of_nat i < Z.of_nat p + m)%Z)
    ∧ sent (download_fda_pdfs ks dir m w).2
      = sent w
        ++ omap (λ i, (λ k, pdf_url base_url (normalize k)) <$> ks !! i) order
    ∧ completed (download_fda_pdfs ks dir m w).2 = completed w ++ order
    ∧ stdout (download_fda_pdfs ks dir m w).2
      = stdout w ++ match (download_fda_pdfs ks dir m w).1 with
                    | Returned rep => [summary_line rep]
                    | Raised _ => []
                    end.
Proof.
  intros Emk Hm. destruct (makedirs dir w) as [r1 w1] eqn:E.
  simpl in Emk. subst r1.
  destruct (download_fda_pdfs_sequence ks dir m w w1 E Hm)
    as (order & Hp & Hwin & _ & _ & Hd).
  destruct (makedirs_spec dir w) as (r' & w' & E' & Ht1 & _).
  rewrite E in E'. injection E' as <- <-.
  assert (NoDup order) as Hnd by (rewrite Hp; apply NoDup_seq).
  assert (∀ i, i ∈ order → i < length ks) as Hb.
  { intros i Hi. rewrite Hp in Hi. apply elem_of_seq in Hi. lia. }
  destruct (run_in_order_trace order ks base_url dir w1 Hnd Hb)
    as (Hs & Hc & Ho).
  rewrite (sent_app _ _ _ Ht1) in Hs.
  rewrite (completed_app _ _ _ Ht1) in Hc.
  rewrite (stdout_app _ _ _ Ht1) in Ho.
  simpl in Hs, Hc, Ho. rewrite app_nil_r in Hs, Hc, Ho.
  exists order. split; [done|]. split; [done|].
  destruct Hd as (_ & _ & _ & _ & Ht). unfold sent, completed, stdout in *.
  rewrite Ht.
  destruct (download_fda_pdfs ks dir m w).1 as [rep|e]; simpl.
  - rewrite !omap_app. simpl. rewrite !app_nil_r. by rewrite Hs, Hc, Ho.
  - rewrite !app_nil_r. by rewrite Hs, Hc, Ho.
Qed.
End BatchTrace.

(** X7: a batch that has its directory and a worker requests the URL of
    every identifier once, in some order, whether it returns its report
    or raises: a fetch that raises does not keep the others from being
    made. *)
Theorem batch_requests_each_once `{Library} (ks : list str) (dir : str)
    (m : Z) (w : world) :
  (makedirs dir w).1 = Returned tt → (0 < m)%Z →
  ∃ new,
    sent (download_fda_pdfs ks dir m w).2 = sent w ++ new
    ∧ new ≡ₚ (λ k, pdf_url base_url (normalize k)) <$> ks.
Proof.
  intros Emk Hm.
  destruct (download_fda_pdfs_trace ks dir m w Emk Hm)
    as (order & Hp & _ & Hs & _).
  eexists. split; [exact Hs|].
  rewrite Hp, <- list_fmap_omap. by rewrite omap_lookup_seq.
Qed.

Lemma batch_requests_each_once_witness :
  ∃ new,
    sent (@download_fda_pdfs latin1_library [py "K241380"; py " k250001"]
            (py "out") 2 (cramped generous_server [1] 4)).2
    = sent (cramped generous_server [1] 4) ++ new
    ∧ new ≡ₚ (λ k, @pdf_url latin1_library base_url
                     (@normalize latin1_library k))
             <$> [py "K241380"; py " k250001"].
Proof.
  apply (@batch_requests_each_once latin1_library); [by vm_compute|lia].
Defined.

(** X8: with one worker the batch is sequential: the requests are made,
    and the fetches completed, in the order in which the identifiers
    were given, whatever the scheduler does. *)
Theorem one_worker_in_order `{Library} (ks : list str) (dir : str)
    (w : world) :
  (makedirs dir w).1 = Returned tt →
  sent (download_fda_pdfs ks dir 1 w).2
  = sent w ++ ((λ k, pdf_url base_url (normalize k)) <$> ks)
  ∧ completed (download_fda_pdfs ks dir 1 w).2
    = completed w ++ seq 0 (length ks).
Proof.
  intros Emk.
  destruct (download_fda_pdfs_trace ks dir 1 w Emk) as
    (order & Hp & Hwin & Hs & Hc & _); [lia|].
  assert (order = seq 0 (length ks)) as ->.
  { apply window_one; [done|]. intros p i Hpi.
    pose proof (Hwin p i Hpi). lia. }
  split; [|done]. rewrite Hs, <- list_fmap_omap. by rewrite omap_lookup_seq.
Qed.

Lemma one_worker_in_order_witness :
  sent (@download_fda_pdfs latin1_library
          [py "K250002"; py "K241380"; py "K250001"] (py "out") 1
          (fresh mock_server [2; 1; 5])).2
  = sent (fresh mock_server [2; 1; 5])
    ++ ((λ k, @pdf_url latin1_library base_url (@normalize latin1_library k))
        <$> [py "K250002"; py "K241380"; py "K250001"])
  ∧ completed (@download_fda_pdfs latin1_library
                 [py "K250002"; py "K241380"; py "K250001"] (py "out") 1
                 (fresh mock_server [2; 1; 5])).2
    = completed (fresh mock_server [2; 1; 5]) ++ seq 0 3.
Proof. apply (@one_worker_in_order latin1_library). by vm_compute. Defined.

(** X9: the pool runs the fetches of a batch with no more than
    [max_workers] at a time: every fetch is completed once, and the
    fetch completed in place [p] is one of the first [p + max_workers]
    that were submitted. *)
Theorem worker_window `{Library} (ks : list str) (dir : str) (m : Z)
    (w : world) :
  (makedirs dir w).1 = Returned tt → (0 < m)%Z →
  ∃ order,
    completed (download_fda_pdfs ks dir m w).2 = completed w ++ order
    ∧ order ≡ₚ seq 0 (length ks)
    ∧ (∀ p i, order !! p = Some i → (Z.of_nat i < Z.of_nat p + m)%Z).
Proof.
  intros Emk Hm.
  destruct (download_fda_pdfs_trace ks dir m w Emk Hm)
    as (order & Hp & Hwin & Hs & Hc & _).
  by exists order.
Qed.

Lemma worker_window_witness :
  let ks := [py "K250002"; py "K241380"; py "K250001"] in
  let w := fresh mock_server [1; 1] in
  ∃ order,
    completed (@download_fda_pdfs latin1_library ks (py "out") 2 w).2
    = completed w ++ order
    ∧ order ≡ₚ seq 0 (length ks)
    ∧ (∀ p i, order !! p = Some i → (Z.of_nat i < Z.of_nat p + 2)%Z).
Proof.
  apply (@worker_window latin1_library); [by vm_compute|lia].
Defined.

(** What a batch prints, in every case. *)
Lemma download_fda_pdfs_stdout `{Library} (ks : list str) (dir : str)
    (m : Z) (w : world) :
  stdout (download_fda_pdfs ks dir m w).2
  = stdout w ++ match (download_fda_pdfs ks dir m w).1 with
                | Returned rep => [summary_line rep]
                | Raised _ => []
                end.
Proof.
  destruct (download_fda_pdfs_spec ks dir m w)
    as (r & w' & r1 & w1 & E & Emk & Hcases).
  destruct (makedirs_spec dir w) as (r1' & w1' & Emk' & Ht1 & _).
  rewrite Emk in Emk'. injection Emk' as <- <-.
  pose proof (stdout_app _ _ _ Ht1) as Ho1. simpl in Ho1.
  rewrite app_nil_r in Ho1.
  destruct r1 as [[]|e1].
  - case_bool_decide as Hm.
    + destruct Hcases as [-> ->]. rewrite E. simpl. by rewrite app_nil_r.
    + destruct (download_fda_pdfs_trace ks dir m w)
        as (order & _ & _ & _ & _ & Ho); [by rewrite Emk|lia|done].
  - destruct Hcases as [-> ->]. rewrite E. simpl. by rewrite app_nil_r.
Qed.

(** X10: a batch prints one line, and only when it returns its report:
    the summary with the numbers of the successes and of the failures,
    which together are the number of the identifiers.  The fetches print
    nothing, and a batch that raises prints nothing. *)
Theorem batch_prints_summary `{Library} (ks : list str) (dir : str) (m : Z)
    (w : world) :
  match (download_fda_pdfs ks dir m w).1 with
  | Returned rep =>
      ∃ s f : nat,
        s = length (successful rep) ∧ f = length (failed rep)
        ∧ s + f = length ks
        ∧ stdout (download_fda_pdfs ks dir m w).2
          = stdout w
            ++ [py "Download complete: " ++ str_of_Z (Z.of_nat s)
                ++ py " successful, " ++ str_of_Z (Z.of_nat f)
                ++ py " failed"]
  | Raised _ => stdout (download_fda_pdfs ks dir m w).2 = stdout w
  end.
Proof.
  pose proof (download_fda_pdfs_stdout ks dir m w) as Ho.
  pose proof (batch_result ks dir m w) as Hres.
  destruct (download_fda_pdfs ks dir m w).1 as [rep|e].
  - destruct Hres as (outs & Hf & Hsu & Hfa).
    exists (length (successful rep)), (length (failed rep)).
    split_and!; [done|done| |done].
    rewrite Hsu, Hfa, length_entries. symmetry. by eapply Forall2_length.
  - by rewrite app_nil_r in Ho.
Qed.

(** X11: a batch that is given no worker raises the [ValueError] of the
    executor when the output directory has been made, and does nothing
    else: no request is made, for any list of identifiers. *)
Theorem no_worker_no_fetch `{Library} (ks : list str) (dir : str) (m : Z)
    (w : world) :
  (makedirs dir w).1 = Returned tt → (m ≤ 0)%Z →
  download_fda_pdfs ks dir m w
  = (Raised (ValueError (py "max_workers must be greater than 0")),
     (makedirs dir w).2)
  ∧ sent (download_fda_pdfs ks dir m w).2 = sent w
  ∧ isdir (download_fda_pdfs ks dir m w).2 dir = true.
Proof.
  intros Emk Hm.
  destruct (download_fda_pdfs_spec ks dir m w)
    as (r & w' & r1 & w1 & E & Emk1 & Hcases).
  destruct (makedirs_spec dir w) as (r1' & w1' & Emk' & Ht1 & _ & Hdir).
  rewrite Emk1 in Emk', Emk. injection Emk' as <- <-. simpl in Emk.
  subst r1. rewrite bool_decide_eq_true_2 in Hcases by done.
  destruct Hcases as [-> ->]. rewrite E, Emk1. simpl.
  split_and!; [done| |by destruct Hdir as (_ & ? & _)].
  rewrite (sent_app _ _ _ Ht1). simpl. by rewrite app_nil_r.
Qed.

Lemma no_worker_no_fetch_witness :
  let run := @download_fda_pdfs latin1_library [py "K241380"] (py "out") 0
               (fresh generous_server []) in
  run = (Raised (ValueError (py "max_workers must be greater than 0")),
         (makedirs (py "out") (fresh generous_server [])).2)
  ∧ sent run.2 = sent (fresh generous_server [])
  ∧ isdir run.2 (py "out") = true.
Proof.
  apply (@no_worker_no_fetch latin1_library); [by vm_compute|lia].
Defined.

(** ** Which exception a batch raises *)

Lemma gather_raised (l : list future) (acc : report) (e : exn) :
  gather l acc = Raised e →
  (∀ j f, l !! j = Some f → ∃ r, f = Done r) →
  ∃ i, l !! i = Some (Done (Raised e))
       ∧ ∀ j, j < i → ∃ o, l !! j = Some (Done (Returned o)).
Proof.
  revert acc. induction l as [|f l IH]; intros acc Hg Hd; [done|].
  destruct (Hd 0 f eq_refl) as [r ->].
  assert (∀ j f, l !! j = Some f → ∃ r, f = Done r) as Hd'.
  { intros j f Hj. apply (Hd (S j) f Hj). }
  destruct r as [[[k s] res]|e'].
  - simpl in Hg.
    assert (∃ acc', gather l acc' = Raised e) as [acc' Hg'].
    { destruct s; eauto. }
    destruct (IH acc' Hg' Hd') as (i & Hi & Hlt).
    exists (S i). split; [done|]. intros [|j] Hj; [by eexists|].
    apply Hlt. lia.
  - simpl in Hg. injection Hg as ->. exists 0. split; [done|]. intros j Hj. lia.
Qed.

Section BatchRaises.
Context `{Library}.

(** When the batch is over every future is done. *)
Lemma run_in_order_all_done (order : list nat) (ks : list str)
    (base dir : str) (w : world) (j : nat) :
  order ≡ₚ seq 0 (length ks) → j < length ks →
  ∃ r, (run_in_order order (submitted ks base dir) w).1 !! j = Some (Done r).
Proof.
  intros Hp Hj.
  assert (j ∈ order) as Hin by (rewrite Hp; apply elem_of_seq; lia).
  destruct (lookup_lt_is_Some_2
              (run_in_order order (submitted ks base dir) w).1 j) as [f Hf].
  { rewrite run_in_order_length. unfold submitted. by rewrite length_fmap. }
  destruct f as [k b d|r]; [|by exists r].
  by destruct (run_in_order_ran order (submitted ks base dir) w j k b d Hin).
Qed.
End BatchRaises.

(** X12: a batch in which fetches raise raises the exception of the
    first of them in the order of submission, whichever was the first
    to raise, and does so when every fetch of the batch has run to its
    end. *)
Theorem batch_raises_first_submitted `{Library} (ks : list str) (dir : str)
    (m : Z) (w : world) (e : exn) :
  (makedirs dir w).1 = Returned tt → (0 < m)%Z →
  (download_fda_pdfs ks dir m w).1 = Raised e →
  length (futures (download_fda_pdfs ks dir m w).2) = length ks
  ∧ (∀ j, j < length ks →
          ∃ r, futures (download_fda_pdfs ks dir m w).2 !! j = Some (Done r))
  ∧ ∃ i, futures (download_fda_pdfs ks dir m w).2 !! i = Some (Done (Raised e))
         ∧ ∀ j, j < i →
                ∃ o, futures (download_fda_pdfs ks dir m w).2 !! j
                     = Some (Done (Returned o)).
Proof.
  intros Emk Hm Hres. destruct (makedirs dir w) as [r1 w1] eqn:E.
  simpl in Emk. subst r1.
  destruct (download_fda_pdfs_sequence ks dir m w w1 E Hm)
    as (order & Hp & _ & Hf & Hr & _).
  rewrite Hres in Hr. rewrite Hf.
  assert (∀ j, j < length ks →
               ∃ r, (run_in_order order (submitted ks base_url dir) w1).1 !! j
                    = Some (Done r)) as Hdone.
  { intros j Hj. by apply run_in_order_all_done. }
  assert (length (run_in_order order (submitted ks base_url dir) w1).1
          = length ks) as Hlen.
  { rewrite run_in_order_length. unfold submitted. by rewrite length_fmap. }
  split_and!; [done|done|].
  apply (gather_raised _ {| successful := []; failed := [] |}); [done|].
  intros j f Hj. destruct (Hdone j) as [r Hr'].
  { rewrite <- Hlen. by eapply lookup_lt_Some. }
  rewrite Hr' in Hj. injection Hj as <-. by exists r.
Qed.

Lemma batch_raises_first_submitted_witness :
  let run := @download_fda_pdfs latin1_library
               [py "K241380"; py "K250001"; py "K250002"] (py "out") 3
               (cramped generous_server [2; 1] 4) in
  let e := OSError (py "[Errno 28] No space left on device") in
  length (futures run.2) = 3
  ∧ (∀ j, j < 3 → ∃ r, futures run.2 !! j = Some (Done r))
  ∧ ∃ i, futures run.2 !! i = Some (Done (Raised e))
         ∧ ∀ j, j < i → ∃ o, futures run.2 !! j = Some (Done (Returned o)).
Proof.
  apply (@batch_raises_first_submitted latin1_library);
    [by vm_compute|lia|by vm_compute].
Defined.

(** ** The files of the successes *)

Lemma gather_successful (l : list future) (acc rep : report) (item : entry) :
  gather l acc = Returned rep → item ∈ successful rep →
  item ∈ successful acc
  ∨ ∃ j k p, l !! j = Some (Done (Returned (k, true, p)))
             ∧ item = [("k_number"%string, k); ("filepath"%string, p)].
Proof.
  revert acc. induction l as [|f l IH]; intros acc Hg Hin.
  - simpl in Hg. injection Hg as <-. by left.
  - destruct f as [k b d|[[[k s] res]|e]]; [done| |done]. simpl in Hg.
    destruct s.
    + destruct (IH _ Hg Hin) as [Hacc|(j & k' & p & Hj & ->)].
      * simpl in Hacc. apply elem_of_app in Hacc as [Hacc|Hnew]; [by left|].
        apply list_elem_of_singleton in Hnew as ->.
        right. by exists 0, k, res.
      * right. by exists (S j), k', p.
    + destruct (IH _ Hg Hin) as [Hacc|(j & k' & p & Hj & ->)]; [by left|].
      right. by exists (S j), k', p.
Qed.

Section BatchFiles.
Context `{Library}.

(** The files of the fetches that succeeded are on the disk, whatever
    the fetches that ran later did. *)
Lemma run_in_order_files (order : list nat) (ks : list str) (base dir : str)
    (w : world) (j : nat) (k p : str) :
  (run_in_order order (submitted ks base dir) w).1 !! j
  = Some (Done (Returned (k, true, p))) →
  ∃ data, fs (run_in_order order (submitted ks base dir) w).2 !! components p
          = Some (File data).
Proof.
  revert j k p. induction order as [|i order IH] using rev_ind; intros j k p.
  - simpl. unfold submitted. rewrite list_lookup_fmap.
    by destruct (ks !! j).
  - rewrite run_in_order_snoc.
    destruct (run_in_order order (submitted ks base dir) w) as [l v] eqn:Erun.
    simpl in IH. unfold seq_step. simpl.
    destruct (l !! i) as [[k' b d|r]|] eqn:Ei; simpl; [|by apply IH..].
    destruct (decide (i = j)) as [->|Hne].
    + rewrite list_lookup_insert_eq by (by eapply lookup_lt_Some).
      intros [= Hres].
      destruct (download_pdf_success_reply _ _ _ _ _ _ Hres)
        as (r & Hrep & Hok & Hb).
      destruct (download_pdf_whole k' b d v r _ Hres Hrep Hok)
        as (Hfs & _ & Ho).
      rewrite Hb in Ho. injection Ho as _ ->.
      rewrite Hfs. eexists. apply lookup_insert_eq.
    + rewrite list_lookup_insert_ne by done. intros Hj.
      destruct (IH j k p Hj) as [data Hdata].
      by apply download_pdf_keeps_files with data.
Qed.
End BatchFiles.

(** X13: when a batch returns its report, every entry of the successes
    has the identifier and the path of a file, and that file is on the
    disk, whatever the other fetches of the batch did. *)
Theorem successes_on_disk `{Library} (ks : list str) (dir : str) (m : Z)
    (w : world) (rep : report) (item : entry) :
  (download_fda_pdfs ks dir m w).1 = Returned rep →
  item ∈ successful rep →
  ∃ k p data,
    item = [("k_number"%string, k); ("filepath"%string, p)]
    ∧ fs (download_fda_pdfs ks dir m w).2 !! components p = Some (File data).
Proof.
  intros Hres Hin.
  destruct (download_fda_pdfs_spec ks dir m w)
    as (r & w' & r1 & w1 & E & Emk & Hcases).
  rewrite E in Hres. simpl in Hres. subst r.
  destruct r1 as [[]|e1]; [|by destruct Hcases].
  case_bool_decide as Hm; [by destruct Hcases|].
  destruct (download_fda_pdfs_sequence ks dir m w w1 Emk)
    as (order & _ & _ & _ & Hr & Hd); [lia|].
  rewrite E in Hr, Hd |- *. simpl in Hr, Hd |- *. symmetry in Hr.
  destruct (gather_successful _ _ _ _ Hr Hin)
    as [Hnil|(j & k & p & Hj & ->)]; [by apply elem_of_nil in Hnil|].
  destruct (run_in_order_files _ _ _ _ _ _ _ _ Hj) as [data Hdata].
  exists k, p, data. split; [done|].
  destruct Hd as (-> & _). done.
Qed.

Lemma successes_on_disk_witness :
  let run := @download_fda_pdfs latin1_library [py "K241380"; py "badid"]
               (py "out") 2 (fresh mock_server [1]) in
  ∃ k p data,
    [("k_number"%string, py "K241380");
     ("filepath"%string, py "out/K241380.pdf")]
    = [("k_number"%string, k); ("filepath"%string, p)]
    ∧ fs run.2 !! components p = Some (File data).
Proof.
  apply (@successes_on_disk latin1_library [py "K241380"; py "badid"]
           (py "out") 2 (fresh mock_server [1])
           {| successful :=
                [[("k_number"%string, py "K241380");
                  ("filepath"%string, py "out/K241380.pdf")]];
              failed :=
                [[("k_number"%string, py "KBADID");
                  ("error"%string,
                   py "404 Client Error: Not Found for url: https://www.accessdata.fda.gov/cdrh_docs/pdfBA/KBADID.pdf")]] |}).
  - by vm_compute.
  - apply list_elem_of_singleton. reflexivity.
Defined.

(** ** The listing of the script *)

Lemma stdout_print_all (lines : list str) (w : world) :
  stdout (print_all lines w) = stdout w ++ lines.
Proof.
  revert w. induction lines as [|l lines IH]; intros w; simpl.
  - by rewrite app_nil_r.
  - unfold print_all in *. simpl. rewrite IH. unfold stdout. simpl.
    rewrite omap_app. simpl. by rewrite <- app_assoc.
Qed.

(** The entries of the successes have the two keys that the listing
    reads, and so have those of the failures. *)
Lemma print_items_successful (outs : list outcome) (w : world) :
  print_items "k_number" "filepath" (omap success_entry outs) w
  = (Finished, print_all (omap (listed true) outs) w).
Proof.
  revert w. induction outs as [|[[k s] res] outs IH]; intros w; [done|].
  destruct s; simpl; [|apply IH]. unfold print_all. simpl. apply IH.
Qed.

Lemma print_items_failed (outs : list outcome) (w : world) :
  print_items "k_number" "error" (omap failure_entry outs) w
  = (Finished, print_all (omap (listed false) outs) w).
Proof.
  revert w. induction outs as [|[[k s] res] outs IH]; intros w; [done|].
  destruct s; simpl; [apply IH|]. unfold print_all. simpl. apply IH.
Qed.

(** ** The report does not depend on the schedule *)

Lemma gather_returned (l : list future) (acc rep : report) :
  gather l acc = Returned rep →
  ∃ outs,
    l = (λ o, Done (Returned o)) <$> outs
    ∧ successful rep = successful acc ++ omap success_entry outs
    ∧ failed rep = failed acc ++ omap failure_entry outs.
Proof.
  revert acc. induction l as [|f l IH]; intros acc Hg.
  - simpl in Hg. injection Hg as <-. exists []. simpl.
    by rewrite !app_nil_r.
  - destruct f as [k b d|[[[k s] res]|e]]; [done| |done]. simpl in Hg.
    destruct s; destruct (IH _ Hg) as (outs & -> & Hsu & Hfa); simpl in *.
    + exists ((k, true, res) :: outs). split_and!; [done| |done].
      by rewrite Hsu, <- app_assoc.
    + exists ((k, false, res) :: outs). split_and!; [done|done|].
      by rewrite Hfa, <- app_assoc.
Qed.

Section Schedule.
Context `{Library}.

(** What a fetch returns is read off the reply to its request. *)
Lemma download_pdf_returned (k base dir : str) (w : world) (o : outcome) :
  (download_pdf k base dir w).1 = Returned o →
  o = reply_outcome (normalize k) (path_join dir (normalize k ++ py ".pdf"))
        (net w (length (sent w)) (pdf_url base (normalize k))).
Proof.
  rewrite download_pdf_steps. unfold fetch_steps, reply_outcome.
  destruct (net w _ _) as [msg|r]; [by intros [= <-]|].
  case_bool_decide; [by intros [= <-]|].
  destruct (open_wb _ _) as [[f|e] w2]; [|done].
  destruct (write_chunks _ _ _) as [[[]|e] w3]; [|done].
  destruct (broken r); by intros [= <-].
Qed.

Lemma download_pdf_net (k base dir : str) (w : world) :
  net (download_pdf k base dir w).2 = net w.
Proof.
  destruct (download_pdf_spec k base dir w)
    as (r & w' & t & E & _ & _ & Hpool & _).
  rewrite E. by destruct Hpool as (? & _).
Qed.

Lemma run_in_order_net (order : list nat) (l : list future) (w : world) :
  net (run_in_order order l w).2 = net w.
Proof.
  induction order as [|i order IH] using rev_ind; [done|].
  rewrite run_in_order_snoc. unfold seq_step.
  destruct (_ !! i) as [[k b d|r]|]; [|done..]. simpl.
  by rewrite download_pdf_net.
Qed.

Lemma run_in_order_pending (order : list nat) (l : list future) (w : world)
    (i : nat) (k b d : str) :
  (run_in_order order l w).1 !! i = Some (Pending k b d) →
  l !! i = Some (Pending k b d).
Proof.
  induction order as [|j order IH] using rev_ind; [done|].
  rewrite run_in_order_snoc. intros Hi. apply IH.
  destruct (decide (j = i)) as [->|Hne].
  - by destruct (seq_step_ran (run_in_order order l w) i i k b d (or_intror eq_refl)).
  - by rewrite seq_step_other in Hi.
Qed.

(** The outcome of a future is the one for the reply to its request. *)
Lemma run_in_order_results (order : list nat) (ks : list str)
    (base dir : str) (w : world) (j : nat) (o : outcome) :
  (run_in_order order (submitted ks base dir) w).1 !! j
  = Some (Done (Returned o)) →
  ∃ k n, ks !! j = Some k
         ∧ o = reply_outcome (normalize k)
                 (path_join dir (normalize k ++ py ".pdf"))
                 (net w n (pdf_url base (normalize k))).
Proof.
  revert j o. induction order as [|i order IH] using rev_ind; intros j o.
  - simpl. unfold submitted. rewrite list_lookup_fmap.
    by destruct (ks !! j).
  - rewrite run_in_order_snoc.
    pose proof (run_in_order_pending order (submitted ks base dir) w i)
      as Hpend.
    pose proof (run_in_order_net order (submitted ks base dir) w) as Hnet.
    destruct (run_in_order order (submitted ks base dir) w) as [l v] eqn:Erun.
    simpl in IH, Hpend, Hnet. unfold seq_step. simpl.
    destruct (l !! i) as [[k' b d|r]|] eqn:Ei; simpl; [|by apply IH..].
    destruct (decide (i = j)) as [->|Hne].
    + rewrite list_lookup_insert_eq by (by eapply lookup_lt_Some).
      intros [= Hres]. specialize (Hpend k' b d eq_refl).
      unfold submitted in Hpend. rewrite list_lookup_fmap in Hpend.
      destruct (ks !! j) as [k|] eqn:Ek; [|done].
      simpl in Hpend. injection Hpend as <- <- <-.
      exists k, (length (sent v)). split; [done|].
      rewrite <- Hnet. by apply download_pdf_returned.
    + rewrite list_lookup_insert_ne by done. apply IH.
Qed.
End Schedule.

(** X15: for a server whose answer to a request depends on the URL
    alone, the report that a batch returns is a function of the
    identifiers, the directory and the server: it does not depend on the
    number of workers, the order in which the pool ran the fetches, or
    what was on the disk. *)
Theorem report_schedule_independent `{Library} (ks : list str) (dir : str)
    (m : Z) (w : world) (server : str → reply) (rep : report) :
  (∀ n u, net w n u = server u) →
  (download_fda_pdfs ks dir m w).1 = Returned rep →
  successful rep = omap success_entry (expected server dir <$> ks)
  ∧ failed rep = omap failure_entry (expected server dir <$> ks).
Proof.
  intros Hnet Hres.
  destruct (download_fda_pdfs_spec ks dir m w)
    as (r & w' & r1 & w1 & E & Emk & Hcases).
  rewrite E in Hres. simpl in Hres. subst r.
  destruct r1 as [[]|e1]; [|by destruct Hcases].
  case_bool_decide as Hm; [by destruct Hcases|].
  destruct (download_fda_pdfs_sequence ks dir m w w1 Emk)
    as (order & _ & _ & _ & Hr & _); [lia|].
  destruct (makedirs_spec dir w) as (r1 & w1' & Emk' & _ & Hpool & _).
  rewrite Emk in Emk'. injection Emk' as <- <-.
  destruct Hpool as (Hnet1 & _).
  rewrite E in Hr. simpl in Hr. symmetry in Hr.
  destruct (gather_returned _ _ _ Hr) as (outs & Hl & -> & ->). simpl.
  assert (length outs = length ks) as Hlen.
  { rewrite <- (length_fmap (λ o, Done (Returned o)) outs), <- Hl.
    rewrite run_in_order_length. unfold submitted. by rewrite length_fmap. }
  assert (outs = expected server dir <$> ks) as ->; [|done].
  apply list_eq. intros j. rewrite list_lookup_fmap.
  destruct (outs !! j) as [o|] eqn:Eo.
  - assert ((run_in_order order (submitted ks base_url dir) w1).1 !! j
            = Some (Done (Returned o))) as Hj.
    { rewrite Hl, list_lookup_fmap, Eo. done. }
    destruct (run_in_order_results _ _ _ _ _ _ _ Hj) as (k & n & -> & ->).
    simpl. unfold expected. by rewrite Hnet1, Hnet.
  - apply lookup_ge_None_1 in Eo. rewrite lookup_ge_None_2 by lia. done.
Qed.

Lemma report_schedule_independent_witness :
  let ks := [py "K241380"; py "badid"] in
  let rep :=
    {| successful :=
         [[("k_number"%string, py "K241380");
           ("filepath"%string, py "out/K241380.pdf")]];
       failed :=
         [[("k_number"%string, py "KBADID");
           ("error"%string,
            py "404 Client Error: Not Found for url: https://www.accessdata.fda.gov/cdrh_docs/pdfBA/KBADID.pdf")]] |} in
  successful rep
  = omap success_entry
      (@expected latin1_library (mock_server 0) (py "out") <$> ks)
  ∧ failed rep
    = omap failure_entry
        (@expected latin1_library (mock_server 0) (py "out") <$> ks).
Proof.
  apply (@report_schedule_independent latin1_library
           [py "K241380"; py "badid"] (py "out") 2 (fresh mock_server [1])).
  - intros n u. reflexivity.
  - by vm_compute.
Defined.

(** ** What a batch leaves alone *)

Section BatchKeeps.
Context `{Library}.

Lemma run_in_order_keeps (order : list nat) (ks : list str) (base dir : str)
    (w : world) (p : path) (x : node) :
  (∀ k, k ∈ ks → p ≠ components (path_join dir (normalize k ++ py ".pdf"))) →
  fs w !! p = Some x →
  fs (run_in_order order (submitted ks base dir) w).2 !! p = Some x.
Proof.
  intros Hout Hp. induction order as [|i order IH] using rev_ind; [done|].
  rewrite run_in_order_snoc.
  pose proof (run_in_order_pending order (submitted ks base dir) w i)
    as Hpend.
  destruct (run_in_order order (submitted ks base dir) w) as [l v].
  simpl in IH, Hpend. unfold seq_step. simpl.
  destruct (l !! i) as [[k b d|r]|] eqn:Ei; simpl; [|done..].
  specialize (Hpend k b d eq_refl).
  unfold submitted in Hpend. rewrite list_lookup_fmap in Hpend.
  destruct (ks !! i) as [k'|] eqn:Ek; [|done].
  simpl in Hpend. injection Hpend as <- <- <-.
  destruct (download_pdf_fs k' base dir v) as [->|(data & ->)]; [done|].
  rewrite lookup_insert_ne; [done|].
  intros Heq. apply (Hout k'); [by eapply list_elem_of_lookup_2|done].
Qed.
End BatchKeeps.

(** X16: a batch writes the files of its identifiers and makes the
    output directory, and leaves everything else on the disk as it was:
    a file or directory that is at none of the paths
    [output_dir/<identifier>.pdf] is there after the batch, with what it
    held, however the batch ends.  The names are without [..], which
    would lead elsewhere than the path says. *)
Theorem batch_leaves_others `{Library} (ks : list str) (dir : str) (m : Z)
    (w : world) (p : path) (x : node) :
  py ".." ∉ pieces dir →
  (∀ k, k ∈ ks →
        py ".." ∉ pieces (path_join dir (normalize k ++ py ".pdf"))) →
  fs w !! p = Some x →
  (∀ k, k ∈ ks → p ≠ components (path_join dir (normalize k ++ py ".pdf"))) →
  fs (download_fda_pdfs ks dir m w).2 !! p = Some x.
Proof.
  intros _ _ Hp Hout.
  pose proof (makedirs_keeps dir w p x Hp) as Hp1.
  destruct (download_fda_pdfs_spec ks dir m w)
    as (r & w' & r1 & w1 & E & Emk & Hcases).
  rewrite Emk in Hp1. simpl in Hp1.
  destruct r1 as [[]|e1]; [|destruct Hcases as [_ ->]; by rewrite E].
  case_bool_decide as Hm; [destruct Hcases as [_ ->]; by rewrite E|].
  destruct (download_fda_pdfs_sequence ks dir m w w1 Emk)
    as (order & _ & _ & _ & _ & Hd); [lia|].
  pose proof (run_in_order_keeps order ks base_url dir w1 p x Hout Hp1)
    as Hkeep.
  destruct Hd as (-> & _).
  by destruct (download_fda_pdfs ks dir m w).1.
Qed.

Lemma batch_leaves_others_witness :
  fs (@download_fda_pdfs latin1_library [py "K250001"; py "k250002"]
        (py "out") 2 (ready generous_server 100)).2
  !! [py "out"; py "K241380.pdf"]
  = Some (File [Byte.x6f; Byte.x6c; Byte.x64]).
Proof.
  apply (@batch_leaves_others latin1_library).
  - apply (bool_decide_eq_false_1 (_ ∈ _)). by vm_compute.
  - intros k Hk. apply elem_of_cons in Hk as [->|Hk];
      [|apply list_elem_of_singleton in Hk as ->];
      apply (bool_decide_eq_false_1 (_ ∈ _)); by vm_compute.
  - reflexivity.
  - intros k Hk. apply elem_of_cons in Hk as [->|Hk];
      [|apply list_elem_of_singleton in Hk as ->]; by vm_compute.
Defined.

(** ** The fetches of a batch *)

Lemma write_chunks_denied (f : path) (chunks : list bytes) (w : world) :
  denied (write_chunks f chunks w).2 = denied w.
Proof.
  revert w. induction chunks as [|c chunks IH]; intros w; [done|].
  cbn [write_chunks]. unfold mbind, M_bind.
  assert (denied (write f c w).2 = denied w) as Hw.
  { unfold write. destruct (fs w !! f) as [[|data]|]; [done| |done].
    by destruct (free w <? _)%N. }
  destruct (write f c w) as [[[]|e] w1]; [|done]. simpl in *.
  by rewrite IH.
Qed.

Lemma makedirs_denied (name : str) (w : world) :
  denied (makedirs name w).2 = denied w.
Proof.
  unfold makedirs. case_bool_decide; [done|].
  by destruct (mkdirs _ _ _ _) as [f' [e|]].
Qed.

Lemma length_omap_lookup {A B : Type} (g : A → B) (ks : list A)
    (order : list nat) :
  (∀ i, i ∈ order → i < length ks) →
  length (omap (λ i, g <$> ks !! i) order) = length order.
Proof.
  induction order as [|i order IH]; intros Hb; [done|]. simpl.
  destruct (lookup_lt_is_Some_2 ks i) as [k Hk]; [apply Hb; by left|].
  rewrite Hk. simpl. f_equal. apply IH. intros j Hj. apply Hb. by right.
Qed.

Lemma gather_raises (l : list future) (acc : report) (i : nat) (e : exn) :
  l !! i = Some (Done (Raised e)) → ∃ e', gather l acc = Raised e'.
Proof.
  revert acc i. induction l as [|f l IH]; intros acc i Hi; [done|].
  destruct f as [k b d|[[[k s] res]|e']]; [by eexists| |by eexists].
  destruct i as [|i]; [done|]. simpl in Hi. simpl.
  destruct s; by apply (IH _ i).
Qed.

Section Fetches.
Context `{Library}.

Lemma download_pdf_denied (k base dir : str) (w : world) :
  denied (download_pdf k base dir w).2 = denied w.
Proof.
  rewrite download_pdf_steps. unfold fetch_steps.
  destruct (net w _ _) as [msg|r]; [done|].
  case_bool_decide; [done|].
  destruct (open_wb _ _) as [[f|e] w2] eqn:Eo.
  - apply open_wb_returned in Eo as (_ & _ & _ & _ & _ & _ & ->).
    set (w2 := set_disk _ _ _).
    pose proof (write_chunks_denied f (content r) w2) as Hd.
    destruct (write_chunks f (content r) w2) as [[[]|e] w3];
      [destruct (broken r)|]; exact Hd.
  - by apply open_wb_raised in Eo as ->.
Qed.

Lemma run_in_order_denied (order : list nat) (l : list future) (w : world) :
  denied (run_in_order order l w).2 = denied w.
Proof.
  induction order as [|i order IH] using rev_ind; [done|].
  rewrite run_in_order_snoc. unfold seq_step.
  destruct (_ !! i) as [[k b d|r]|]; [|done..]. simpl.
  by rewrite download_pdf_denied.
Qed.

(** The fetches run one after another: the future of the fetch in place
    [p] holds what [download_pdf] gave in a state of the run, in which
    [p] requests had been made. *)
Lemma run_in_order_fetches (order : list nat) (ks : list str)
    (base dir : str) (w : world) :
  NoDup order → (∀ i, i ∈ order → i < length ks) →
  ∀ p i k, order !! p = Some i → ks !! i = Some k →
    ∃ v, (run_in_order order (submitted ks base dir) w).1 !! i
         = Some (Done (download_pdf k base dir v).1)
         ∧ net v = net w ∧ denied v = denied w
         ∧ length (sent v) = length (sent w) + p.
Proof.
  induction order as [|x order IH] using rev_ind; intros Hnd Hb p i k Hp Hk;
    [done|].
  apply NoDup_app in Hnd as (Hnd & Hni & _).
  assert (x ∉ order) as Hx.
  { intros Hin. apply (Hni x Hin), list_elem_of_singleton. done. }
  assert (∀ i, i ∈ order → i < length ks) as Hb'.
  { intros j Hj. apply Hb, elem_of_app. by left. }
  rewrite run_in_order_snoc.
  apply lookup_snoc_Some in Hp as [[Hlt Hp]|[-> ->]].
  - destruct (IH Hnd Hb' p i k Hp Hk) as (v & Hv & Hrest).
    exists v. split; [|done].
    rewrite seq_step_other; [done|]. intros ->.
    apply Hx. by eapply list_elem_of_lookup_2.
  - set (st := run_in_order order (submitted ks base dir) w).
    assert (st.1 !! i = Some (Pending k base dir)) as Hpend.
    { unfold st. rewrite run_in_order_other by done. unfold submitted.
      by rewrite list_lookup_fmap, Hk. }
    exists st.2. split_and!.
    + unfold seq_step. rewrite Hpend. simpl.
      apply list_lookup_insert_eq. by eapply lookup_lt_Some.
    + apply run_in_order_net.
    + apply run_in_order_denied.
    + unfold st.
      destruct (run_in_order_trace order ks base dir w Hnd Hb') as (-> & _).
      by rewrite length_app, length_omap_lookup.
Qed.

(** A batch that has a directory and a worker: the requests are made in
    some order, one for each identifier; the future of an identifier
    holds what its fetch gave, in a state of the run in which the
    requests before its own had been made; and the batch ends as the
    loop over the futures ends. *)
Lemma download_fda_pdfs_fetches (ks : list str) (dir : str) (m : Z)
    (w : world) :
  (makedirs dir w).1 = Returned tt → (0 < m)%Z →
  ∃ order,
    order ≡ₚ seq 0 (length ks)
    ∧ sent (download_fda_pdfs ks dir m w).2
      = sent w
        ++ omap (λ i, (λ k, pdf_url base_url (normalize k)) <$> ks !! i) order
    ∧ length (futures (download_fda_pdfs ks dir m w).2) = length ks
    ∧ (∀ p i k, order !! p = Some i → ks !! i = Some k →
         ∃ v, futures (download_fda_pdfs ks dir m w).2 !! i
              = Some (Done (download_pdf k base_url dir v).1)
              ∧ net v = net w ∧ denied v = denied w
              ∧ length (sent v) = length (sent w) + p)
    ∧ (download_fda_pdfs ks dir m w).1
      = gather (futures (download_fda_pdfs ks dir m w).2)
          {| successful := []; failed := [] |}.
Proof.
  intros Emk Hm. destruct (makedirs dir w) as [r1 w1] eqn:E.
  simpl in Emk. subst r1.
  destruct (download_fda_pdfs_sequence ks dir m w w1 E Hm)
    as (order & Hp & _ & Hf & Hr & Hd).
  destruct (makedirs_spec dir w) as (r' & w' & E' & Ht1 & Hpool1 & _).
  rewrite E in E'. injection E' as <- <-.
  pose proof (makedirs_denied dir w) as Hden1. rewrite E in Hden1.
  simpl in Hden1. destruct Hpool1 as (Hnet1 & _).
  assert (NoDup order) as Hnd by (rewrite Hp; apply NoDup_seq).
  assert (∀ i, i ∈ order → i < length ks) as Hb.
  { intros i Hi. rewrite Hp in Hi. apply elem_of_seq in Hi. lia. }
  assert (sent w1 = sent w) as Hs1.
  { rewrite (sent_app _ _ _ Ht1). simpl. apply app_nil_r. }
  exists order. split_and!; [done| | | |by rewrite Hf].
  - destruct (run_in_order_trace order ks base_url dir w1 Hnd Hb)
      as (Hs & _).
    rewrite Hs1 in Hs. rewrite <- Hs.
    destruct Hd as (_ & _ & _ & _ & Ht). unfold sent. rewrite Ht.
    destruct (download_fda_pdfs ks dir m w).1; [|done].
    simpl. rewrite omap_app. simpl. by rewrite app_nil_r.
  - rewrite Hf, run_in_order_length. unfold submitted. by rewrite length_fmap.
  - intros p i k Hpi Hk.
    destruct (run_in_order_fetches order ks base_url dir w1 Hnd Hb p i k
                Hpi Hk) as (v & Hv & Hn & Hdn & Hl).
    exists v. rewrite Hf. split_and!; [done|congruence|congruence|].
    by rewrite Hl, Hs1.
Qed.

(** The report of a batch that returns: one outcome for each identifier,
    the one that the reply to its own request leads to. *)
Lemma download_fda_pdfs_outcomes (ks : list str) (dir : str) (m : Z)
    (w : world) (rep : report) :
  (download_fda_pdfs ks dir m w).1 = Returned rep →
  ∃ order outs,
    order ≡ₚ seq 0 (length ks)
    ∧ sent (download_fda_pdfs ks dir m w).2
      = sent w
        ++ omap (λ i, (λ k, pdf_url base_url (normalize k)) <$> ks !! i) order
    ∧ length outs = length ks
    ∧ (∀ p i k, order !! p = Some i → ks !! i = Some k →
         outs !! i
         = Some (reply_outcome (normalize k)
                   (path_join dir (normalize k ++ py ".pdf"))
                   (net w (length (sent w) + p)
                      (pdf_url base_url (normalize k)))))
    ∧ Forall2 (λ k o, fetched base_url dir k (Returned o)
                      ∧ outcome_id o = normalize k) ks outs
    ∧ successful rep = omap success_entry outs
    ∧ failed rep = omap failure_entry outs.
Proof.
  intros Hres.
  destruct (download_fda_pdfs_spec ks dir m w)
    as (r & w' & r1 & w1 & E & Emk & Hcases).
  rewrite E in Hres. simpl in Hres. subst r.
  destruct r1 as [[]|e1]; [|by destruct Hcases].
  case_bool_decide as Hm; [by destruct Hcases|].
  destruct (download_fda_pdfs_fetches ks dir m w)
    as (order & Hp & Hs & Hlen & Hv & Hr); [by rewrite Emk|lia|].
  rewrite E in Hs, Hlen, Hv, Hr. simpl in Hs, Hlen, Hv, Hr.
  symmetry in Hr.
  destruct (gather_returned _ _ _ Hr) as (outs & Hl & Hsu & Hfa).
  simpl in Hsu, Hfa.
  assert (length outs = length ks) as Hlo.
  { rewrite <- Hlen, Hl. by rewrite length_fmap. }
  assert (∀ p i k, order !! p = Some i → ks !! i = Some k →
            ∃ v o, outs !! i = Some o
                   ∧ (download_pdf k base_url dir v).1 = Returned o
                   ∧ net v = net w
                   ∧ length (sent v) = length (sent w) + p) as Hfetch.
  { intros p i k Hpi Hk. destruct (Hv p i k Hpi Hk) as (v & Hvi & Hn & _ & Hsl).
    rewrite Hl, list_lookup_fmap in Hvi.
    destruct (outs !! i) as [o|]; [|done]. simpl in Hvi.
    injection Hvi as Hvi. by exists v, o. }
  exists order, outs. rewrite E. simpl. split_and!; try done.
  - intros p i k Hpi Hk.
    destruct (Hfetch p i k Hpi Hk) as (v & o & -> & Ho & Hn & Hsl).
    f_equal. rewrite <- Hn, <- Hsl. by apply download_pdf_returned.
  - apply Forall2_same_length_lookup_2; [done|]. intros i k o Hk Ho.
    assert (i ∈ order) as Hin.
    { rewrite Hp. apply elem_of_seq. apply lookup_lt_Some in Hk. lia. }
    apply list_elem_of_lookup_1 in Hin as [p Hpi].
    destruct (Hfetch p i k Hpi Hk) as (v & o' & Ho' & Hres & _).
    rewrite Ho in Ho'. injection Ho' as <-.
    assert (fetched base_url dir k (Returned o)) as Hfe.
    { exists v, (download_pdf k base_url dir v).2. rewrite <- Hres.
      by destruct (download_pdf k base_url dir v). }
    split; [done|]. by apply (fetched_id base_url dir).
Qed.

(** The exception of a batch that raises. *)
Lemma download_fda_pdfs_raised (ks : list str) (dir : str) (m : Z)
    (w : world) (e : exn) :
  (download_fda_pdfs ks dir m w).1 = Raised e → raised_in_run ks dir m w e.
Proof.
  intros Hres.
  destruct (download_fda_pdfs_spec ks dir m w)
    as (r & w' & r1 & w1 & E & Emk & Hcases).
  pose proof Hres as Hres'. rewrite E in Hres'. simpl in Hres'. subst r.
  unfold raised_in_run. rewrite Emk. simpl.
  destruct r1 as [[]|e1]; [|left; by destruct Hcases as [[= ->] _]].
  right. case_bool_decide as Hm.
  { left. by destruct Hcases as [[= ->] _]. }
  right. split_and!; [done|lia|].
  destruct (download_fda_pdfs_fetches ks dir m w)
    as (order & Hp & _ & Hlen & Hv & Hr); [by rewrite Emk|lia|].
  rewrite Hres in Hr. symmetry in Hr.
  assert (∀ i k, ks !! i = Some k →
            ∃ p v, p < length ks
                   ∧ futures (download_fda_pdfs ks dir m w).2 !! i
                     = Some (Done (download_pdf k base_url dir v).1)
                   ∧ net v = net w ∧ denied v = denied w
                   ∧ length (sent v) = length (sent w) + p) as Hall.
  { intros i k Hk.
    assert (i ∈ order) as Hin.
    { rewrite Hp. apply elem_of_seq. apply lookup_lt_Some in Hk. lia. }
    apply list_elem_of_lookup_1 in Hin as [p Hpi].
    destruct (Hv p i k Hpi Hk) as (v & ? & ? & ? & ?).
    exists p, v. split_and!; try done.
    apply lookup_lt_Some in Hpi.
    by rewrite (Permutation_length Hp), length_seq in Hpi. }
  destruct (gather_raised _ _ _ Hr) as (i & Hi & _).
  { intros j f Hj.
    destruct (ks !! j) as [k|] eqn:Hk.
    - destruct (Hall j k Hk) as (p & v & _ & Hjv & _).
      rewrite Hjv in Hj. injection Hj as <-. by eexists.
    - apply lookup_lt_Some in Hj. apply lookup_ge_None in Hk. lia. }
  destruct (ks !! i) as [k|] eqn:Hk.
  - destruct (Hall i k Hk) as (p & v & Hpl & Hiv & Hn & Hd & Hs).
    rewrite Hiv in Hi. injection Hi as Hi. by exists p, i, k, v.
  - apply lookup_lt_Some in Hi. apply lookup_ge_None in Hk. lia.
Qed.
End Fetches.

(** ** The claims on what a fetch raises and on the report *)

(** C1, as stated, fails: a fetch whose file cannot be opened raises.
    With a server that has the document and an output directory that
    does not exist, [download_pdf] raises the [OSError] of [open]; and
    the coordinator, which does make the directory, raises it for an
    identifier with a slash in it. *)
Lemma download_pdf_raises :
  (@download_pdf latin1_library (py "K241380") base_url (py "missing")
     (fresh generous_server [])).1
  = Raised (OSError (py "[Errno 2] No such file or directory"))
  ∧ (@download_fda_pdfs latin1_library [py "a/b"] default_output_dir
       default_max_workers (fresh generous_server [])).1
    = Raised (OSError (py "[Errno 2] No such file or directory")).
Proof. split; vm_compute; reflexivity. Qed.

(** C1, amended: every failure of the network (no response, an error
    status, a body that breaks off) is turned into a returned failure
    that carries the normalised identifier and the error text, and no
    [RequestException] escapes, neither from the fetch nor from the
    batch.  What a fetch raises, it raises after a response with a good
    status, and it is the exception of opening or of writing the output
    file; conversely every exception of [open] and of [write] escapes
    the fetch, and a fetch that raises makes the batch raise. *)
Theorem download_pdf_captures `{Library} (k base dir : str) (w : world) :
  let nk := normalize k in
  let u := pdf_url base nk in
  let out := path_join dir (nk ++ py ".pdf") in
  let rep := net w (length (sent w)) u in
  let opened := open_wb out (log (EvGet u) w) in
  match (download_pdf k base dir w).1 with
  | Returned o =>
      (o = (nk, true, out) ∧ good_reply rep)
      ∨ (∃ msg, o = (nk, false, msg) ∧ network_failure rep msg)
  | Raised e =>
      is_RequestException e = false
      ∧ ∃ r, rep = Response r ∧ ¬ (400 ≤ status_code r < 600)%Z
             ∧ (opened.1 = Raised e
                ∨ ∃ f, opened.1 = Returned f
                       ∧ (write_chunks f (content r) opened.2).1 = Raised e)
  end
  ∧ (∀ msg, rep = NoResponse msg →
            (download_pdf k base dir w).1 = Returned (nk, false, msg))
  ∧ (∀ r, rep = Response r → (400 ≤ status_code r < 600)%Z →
          (download_pdf k base dir w).1
          = Returned (nk, false, http_error_text r))
  ∧ (∀ r e, rep = Response r → ¬ (400 ≤ status_code r < 600)%Z →
            opened.1 = Raised e →
            (download_pdf k base dir w).1 = Raised e)
  ∧ (∀ r f e, rep = Response r → ¬ (400 ≤ status_code r < 600)%Z →
              opened.1 = Returned f →
              (write_chunks f (content r) opened.2).1 = Raised e →
              (download_pdf k base dir w).1 = Raised e)
  ∧ (∀ ks m e, (download_fda_pdfs ks dir m w).1 = Raised e →
               is_RequestException e = false)
  ∧ (∀ ks m i e,
       (makedirs dir w).1 = Returned tt → (0 < m)%Z →
       futures (download_fda_pdfs ks dir m w).2 !! i = Some (Done (Raised e)) →
       ∃ e', (download_fda_pdfs ks dir m w).1 = Raised e')
  ∧ (∀ ks m k',
       (makedirs dir w).1 = Returned tt → (0 < m)%Z → k' ∈ ks →
       (∀ v, net v = net w → denied v = denied w →
             ∃ e, (download_pdf k' base_url dir v).1 = Raised e) →
       ∃ e', (download_fda_pdfs ks dir m w).1 = Raised e').
Proof.
  intros nk u out rep opened.
  assert (∀ ks m e, (download_fda_pdfs ks dir m w).1 = Raised e →
                    is_RequestException e = false) as Hbatch.
  { intros ks m e He. pose proof (batch_result ks dir m w) as Hb.
    rewrite He in Hb. destruct Hb as [Hmk|[[_ ->]|(k' & _ & Hf)]]; [|done|].
    - destruct (makedirs_spec dir w) as (r1 & w1 & Emk & _ & _ & Hr1).
      rewrite Emk in Hmk. simpl in Hmk. by subst r1.
    - by apply (fetched_raised _ _ _ _ Hf). }
  assert (∀ ks m i e,
            (makedirs dir w).1 = Returned tt → (0 < m)%Z →
            futures (download_fda_pdfs ks dir m w).2 !! i
            = Some (Done (Raised e)) →
            ∃ e', (download_fda_pdfs ks dir m w).1 = Raised e') as Hfut.
  { intros ks m i e Emk Hm Hi.
    destruct (download_fda_pdfs_fetches ks dir m w Emk Hm)
      as (order & _ & _ & _ & _ & ->).
    by apply (gather_raises _ _ i e). }
  destruct (download_pdf_spec k base dir w)
    as (r & w' & t & E & _ & _ & _ & _ & Hr).
  fold nk u out rep in Hr.
  pose proof (download_pdf_steps k base dir w) as Hsteps.
  unfold fetch_steps in Hsteps. fold nk u out rep opened in Hsteps.
  split_and!; [| | | | |done|done|].
  - rewrite E. simpl. destruct r as [o|e]; [done|].
    destruct Hr as (Hne & (resp & Hrep & Hok) & _). split; [done|].
    exists resp. split_and!; [done..|].
    rewrite E, Hrep, bool_decide_eq_false_2 in Hsteps by done.
    destruct opened as [[f|e'] w2]; simpl.
    + right. exists f. split; [done|].
      destruct (write_chunks f (content resp) w2) as [[[]|e''] w3];
        [by destruct (broken resp)|]. simpl. by injection Hsteps as -> _.
    + left. by injection Hsteps as -> _.
  - intros msg Hrep. by rewrite Hsteps, Hrep.
  - intros resp Hrep Hst. by rewrite Hsteps, Hrep, bool_decide_eq_true_2.
  - intros resp e Hrep Hok Ho.
    rewrite Hsteps, Hrep, bool_decide_eq_false_2 by done.
    destruct opened as [ro w2]. simpl in Ho. by subst ro.
  - intros resp f e Hrep Hok Ho Hw.
    rewrite Hsteps, Hrep, bool_decide_eq_false_2 by done.
    destruct opened as [ro w2]. simpl in Ho, Hw. subst ro.
    destruct (write_chunks f (content resp) w2) as [rw w3].
    simpl in Hw. by subst rw.
  - intros ks m k' Emk Hm Hin Hall.
    apply list_elem_of_lookup_1 in Hin as [i Hi].
    destruct (download_fda_pdfs_fetches ks dir m w Emk Hm)
      as (order & Hp & _ & _ & Hv & _).
    assert (i ∈ order) as Hio.
    { rewrite Hp. apply elem_of_seq. apply lookup_lt_Some in Hi. lia. }
    apply list_elem_of_lookup_1 in Hio as [p Hpi].
    destruct (Hv p i k' Hpi Hi) as (v & Hvi & Hn & Hd & _).
    destruct (Hall v Hn Hd) as [e He]. rewrite He in Hvi.
    by apply (Hfut ks m i e).
Qed.

(** C4: whatever the order in which the pool runs the fetches, a batch
    of N identifiers that returns its report has made one request for
    each identifier and has collected one outcome for each, the one
    that the reply to its own request leads to, and it has sorted them
    by their flag: the successes are the entries of the outcomes flagged
    true, the failures those of the outcomes flagged false, and together
    they are N.  The batch returns its report unless a fatal condition
    makes it raise. *)
Theorem report_partition `{Library} (ks : list str) (dir : str) (m : Z)
    (w : world) :
  match (download_fda_pdfs ks dir m w).1 with
  | Returned rep =>
      length (successful rep) + length (failed rep) = length ks
      ∧ ∃ order outs,
          order ≡ₚ seq 0 (length ks)
          ∧ sent (download_fda_pdfs ks dir m w).2
            = sent w
              ++ omap (λ i, (λ k, pdf_url base_url (normalize k)) <$> ks !! i)
                   order
          ∧ length outs = length ks
          ∧ (∀ p i k, order !! p = Some i → ks !! i = Some k →
               outs !! i
               = Some (reply_outcome (normalize k)
                         (path_join dir (normalize k ++ py ".pdf"))
                         (net w (length (sent w) + p)
                            (pdf_url base_url (normalize k)))))
          ∧ Forall2 (λ k o, fetched base_url dir k (Returned o)
                            ∧ outcome_id o = normalize k) ks outs
          ∧ successful rep = omap success_entry outs
          ∧ failed rep = omap failure_entry outs
          ∧ ∀ k res,
              ((k, true, res) ∈ outs ↔
               [("k_number"%string, k); ("filepath"%string, res)]
                 ∈ successful rep)
              ∧ ((k, false, res) ∈ outs ↔
                 [("k_number"%string, k); ("error"%string, res)]
                   ∈ failed rep)
  | Raised e => fatal ks dir m w e ∧ raised_in_run ks dir m w e
  end.
Proof.
  pose proof (batch_result ks dir m w) as Hb.
  pose proof (download_fda_pdfs_outcomes ks dir m w) as Ho.
  pose proof (download_fda_pdfs_raised ks dir m w) as Hra.
  destruct (download_fda_pdfs ks dir m w).1 as [rep|e]; [|by split; [|apply Hra]].
  destruct (Ho rep eq_refl)
    as (order & outs & Hp & Hsent & Hlen & Hrep & Hf2 & Hs & Hf).
  split.
  - by rewrite Hs, Hf, length_entries.
  - exists order, outs. split_and!; [done..|].
    intros k res. rewrite Hs, Hf, !list_elem_of_omap. split; split.
    + intros Hin. by exists (k, true, res).
    + intros ([[k' []] res'] & Hin & [=]). by subst.
    + intros Hin. by exists (k, false, res).
    + intros ([[k' []] res'] & Hin & [=]). by subst.
Qed.

(** C6: identifiers that occur several times are fetched several times:
    a request is made for every occurrence, every occurrence has the
    outcome that the reply to its own request leads to, and all these
    outcomes are in the report, so that the identifiers of its entries
    are, up to their order, the normalised identifiers of the batch,
    each as often as it was given; N identifiers make N entries. *)
Theorem duplicates_kept `{Library} (ks : list str) (dir : str) (m : Z)
    (w : world) :
  match (download_fda_pdfs ks dir m w).1 with
  | Returned rep =>
      (∃ new order outs,
         sent (download_fda_pdfs ks dir m w).2 = sent w ++ new
         ∧ new ≡ₚ (λ k, pdf_url base_url (normalize k)) <$> ks
         ∧ order ≡ₚ seq 0 (length ks)
         ∧ new = omap (λ i, (λ k, pdf_url base_url (normalize k)) <$> ks !! i)
                   order
         ∧ length outs = length ks
         ∧ (∀ p i k, order !! p = Some i → ks !! i = Some k →
              outs !! i
              = Some (reply_outcome (normalize k)
                        (path_join dir (normalize k ++ py ".pdf"))
                        (net w (length (sent w) + p)
                           (pdf_url base_url (normalize k)))))
         ∧ successful rep = omap success_entry outs
         ∧ failed rep = omap failure_entry outs)
      ∧ ids (successful rep ++ failed rep) ≡ₚ (Some ∘ normalize <$> ks)
      ∧ length (successful rep ++ failed rep) = length ks
  | Raised e => fatal ks dir m w e ∧ raised_in_run ks dir m w e
  end.
Proof.
  pose proof (batch_result ks dir m w) as Hb.
  pose proof (download_fda_pdfs_outcomes ks dir m w) as Ho.
  pose proof (download_fda_pdfs_raised ks dir m w) as Hra.
  destruct (download_fda_pdfs ks dir m w).1 as [rep|e]; [|by split; [|apply Hra]].
  destruct (Ho rep eq_refl)
    as (order & outs & Hp & Hsent & Hlen & Hrep & Hf2 & Hs & Hf).
  split_and!.
  - eexists _, order, outs. split_and!; [exact Hsent| |done..].
    rewrite Hp, <- list_fmap_omap. by rewrite omap_lookup_seq.
  - rewrite Hs, Hf, ids_entries.
    rewrite (fetched_ids base_url dir ks); [done|].
    eapply Forall2_impl; [exact Hf2|]. by intros k o [? _].
  - by rewrite length_app, Hs, Hf, length_entries.
Qed.

(** ** The output directory *)

(** Under its conditions [os.makedirs] returns, having made what was
    missing on the way and nothing else. *)
Lemma makedirs_creates (name : str) (w : world) :
  creatable w name →
  (makedirs name w).1 = Returned tt
  ∧ (∀ pre, pre ≠ [] → pre `prefix_of` components name →
            fs (makedirs name w).2 !! pre = Some Dir)
  ∧ (∀ p, ¬ (p ≠ [] ∧ p `prefix_of` components name) →
          fs (makedirs name w).2 !! p = fs w !! p).
Proof.
  intros (Hne & Hname & _ & Hall). unfold makedirs.
  rewrite bool_decide_eq_false_2 by done.
  change (denied (log (EvMakedirs name) w)) with (denied w).
  change (fs (log (EvMakedirs name) w)) with (fs w).
  pose proof (mkdirs_creates (denied w) (pieces name) [] (fs w)
                (proj1 (name_error_pieces name) Hname) Hall) as Hnone.
  destruct (mkdirs (denied w) [] (pieces name) (fs w)) as [f' r] eqn:Emk.
  simpl in Hnone. subst r.
  destruct (mkdirs_spec _ _ _ _ _ _ Emk) as (_ & Hoff & _ & Hon).
  simpl. split_and!; [done| |].
  - intros pre Hpre Hp. by apply (Hon pre).
  - intros p Hp. apply Hoff. intros pre Hpre Hpp ->. by apply Hp.
Qed.

Section OutputDir.
Context `{Library}.

Lemma download_fda_pdfs_denied (ks : list str) (dir : str) (m : Z)
    (w : world) :
  denied (download_fda_pdfs ks dir m w).2 = denied w.
Proof.
  destruct (download_fda_pdfs_spec ks dir m w)
    as (r & w' & r1 & w1 & E & Emk & Hcases).
  pose proof (makedirs_denied dir w) as Hd1. rewrite Emk in Hd1.
  simpl in Hd1. rewrite E. simpl.
  destruct r1 as [[]|e1]; [|by destruct Hcases as [_ ->]].
  case_bool_decide as Hm; [by destruct Hcases as [_ ->]|].
  destruct (download_fda_pdfs_sequence ks dir m w w1 Emk)
    as (order & _ & _ & _ & _ & Hd); [lia|].
  rewrite E in Hd. simpl in Hd. destruct Hd as (_ & _ & -> & _).
  destruct r; simpl; by rewrite run_in_order_denied.
Qed.
End OutputDir.

(** C8: when the output directory can be made (its name is one that
    Python and the system take, and no file is in the way), the batch
    makes it first, with the directories above it that are missing, and
    changes nothing else; the directory is there before the first
    request and after the call, however the fetches end, and making it
    again changes nothing. *)
Theorem output_dir_made `{Library} (ks : list str) (dir : str) (m : Z)
    (w : world) :
  creatable w dir →
  let run := download_fda_pdfs ks dir m w in
  let w1 := (makedirs dir w).2 in
  (makedirs dir w).1 = Returned tt
  ∧ (∀ pre, pre ≠ [] → pre `prefix_of` components dir →
            fs w1 !! pre = Some Dir)
  ∧ (∀ p, ¬ (p ≠ [] ∧ p `prefix_of` components dir) →
          fs w1 !! p = fs w !! p)
  ∧ isdir w1 dir = true
  ∧ sent w1 = sent w
  ∧ (∃ t, trace run.2 = trace w1 ++ t
          ∧ trace w1 = trace w ++ [EvMakedirs dir])
  ∧ isdir run.2 dir = true
  ∧ (∀ pre, pre `prefix_of` components dir → is_dir (fs run.2) pre = true)
  ∧ (makedirs dir w1).1 = Returned tt
  ∧ fs (makedirs dir w1).2 = fs w1.
Proof.
  intros Hc run w1. subst run w1.
  destruct (makedirs_creates dir w Hc) as (Hret & Hon & Hoff).
  destruct (download_fda_pdfs_spec ks dir m w)
    as (r & w' & r1 & w1 & E & Emk & Hr).
  destruct (makedirs_spec dir w) as (r1' & w1' & Emk' & Ht1 & _ & Hmk).
  rewrite Emk in Emk'. injection Emk' as <- <-.
  pose proof (download_fda_pdfs_denied ks dir m w) as Hden.
  pose proof (makedirs_denied dir w) as Hden1.
  rewrite E, Emk in *. simpl in *. subst r1.
  destruct Hmk as (_ & Hd & Hpre & Hidem).
  destruct Hc as (Hdir & Hname & _).
  assert (makedirs dir w1
          = (Returned tt, set_disk (fs w1) (free w1) (log (EvMakedirs dir) w1)))
    as E2.
  { unfold makedirs. rewrite bool_decide_eq_false_2 by done.
    simpl. by rewrite Hidem. }
  rewrite E2. simpl.
  assert (keeps_dirs w1 w' ∧ ∃ t, trace w' = trace w1 ++ t) as [Hk [t Ht]].
  { case_bool_decide.
    - destruct Hr as [_ ->]. split; [apply keeps_dirs_refl|].
      exists []. by rewrite app_nil_r.
    - by destruct Hr as (? & ? & _). }
  assert (∀ pre, pre `prefix_of` components dir → is_dir (fs w') pre = true)
    as Hpre'.
  { intros pre Hp. by apply Hk, Hpre. }
  split_and!; try done.
  - rewrite (sent_app w _ w1 Ht1). simpl. apply app_nil_r.
  - by exists t.
  - unfold isdir in *. rewrite Hname in *.
    apply andb_true_iff in Hd as [Hn Hd]. rewrite Hn. simpl.
    destruct (descend (denied w1) (fs w1) [] (components dir)) eqn:Hdesc;
      [done|].
    rewrite Hden, <- Hden1.
    rewrite (proj2 (descend_None (denied w1) (fs w') (components dir) []));
      [done|].
    intros pre Hne Hp.
    destruct (proj1 (descend_None _ _ _ _) Hdesc pre Hne Hp) as [_ Hdn].
    split; [|done]. simpl. apply is_dir_lookup; [done|]. by apply Hpre'.
Qed.

Lemma output_dir_made_witness :
  (makedirs (py "out/pdfs") (fresh dead_server [1])).1 = Returned tt
  ∧ fs (makedirs (py "out/pdfs") (fresh dead_server [1])).2 !! [py "out"]
    = Some Dir
  ∧ fs (makedirs (py "out/pdfs") (fresh dead_server [1])).2
      !! [py "out"; py "pdfs"]
    = Some Dir
  ∧ isdir (@download_fda_pdfs latin1_library [py "K241380"; py "K250001"]
             (py "out/pdfs") 2 (fresh dead_server [1])).2 (py "out/pdfs")
    = true.
Proof.
  destruct (@output_dir_made latin1_library [py "K241380"; py "K250001"]
              (py "out/pdfs") 2 (fresh dead_server [1]))
    as (Hret & Hon & _ & _ & _ & _ & Hafter & _).
  - split_and!.
    + done.
    + by vm_compute.
    + apply (bool_decide_eq_false_1 (_ ∈ _)). by vm_compute.
    + intros pre _ _. split; [done|]. intros data. simpl.
      by rewrite lookup_empty.
  - split_and!; [done| | |done].
    + apply Hon; [done|]. by exists [py "pdfs"].
    + by apply Hon.
Defined.

(** ** The listing of the script, line by line *)

(** X14: the script never stops on a missing key: it ends with the
    exception of the batch when the batch raises, and otherwise prints,
    after the summary, the heading of the successes, a line for each
    entry of the successes of the report, the heading of the failures
    and a line for each entry of its failures, the outcomes being those
    of the identifiers in the order in which they were given. *)
Theorem script_lists_outcomes `{Library} (ks : list str) (w : world) :
  match (script ks w).1 with
  | KeyError _ => False
  | Uncaught e =>
      (download_fda_pdfs ks default_output_dir default_max_workers w).1
      = Raised e
  | Finished =>
      ∃ rep outs,
        (download_fda_pdfs ks default_output_dir default_max_workers w).1
        = Returned rep
        ∧ successful rep = omap success_entry outs
        ∧ failed rep = omap failure_entry outs
        ∧ Forall2 (λ k o, fetched base_url default_output_dir k (Returned o)
                          ∧ outcome_id o = normalize k) ks outs
        ∧ stdout (script ks w).2
          = stdout w
            ++ [summary_line rep; 10%N :: py "Successful downloads:"]
            ++ omap (listed true) outs
            ++ [10%N :: py "Failed downloads:"]
            ++ omap (listed false) outs
  end.
Proof.
  pose proof (download_fda_pdfs_stdout ks default_output_dir
                default_max_workers w) as Ho.
  pose proof (download_fda_pdfs_outcomes ks default_output_dir
                default_max_workers w) as Hres.
  unfold script.
  destruct (download_fda_pdfs ks default_output_dir default_max_workers w)
    as [[rep|e] w'] eqn:E; simpl in *; [|done].
  destruct (Hres rep eq_refl) as (order & outs & _ & _ & _ & _ & Hf & Hsu & Hfa).
  rewrite Hsu, Hfa.
  rewrite print_items_successful, print_items_failed. simpl.
  exists rep, outs. split_and!; [done..|].
  rewrite stdout_print_all.
  set (w1 := print_all _ _).
  assert (stdout (log (EvPrint (10%N :: py "Failed downloads:")) w1)
          = stdout w1 ++ [10%N :: py "Failed downloads:"]) as ->.
  { unfold stdout. simpl. by rewrite omap_app. }
  unfold w1. rewrite stdout_print_all.
  set (w2 := log _ w').
  assert (stdout w2 = stdout w' ++ [10%N :: py "Successful downloads:"]) as ->.
  { unfold stdout. simpl. by rewrite omap_app. }
  rewrite Ho. by rewrite <- !app_assoc.
Qed.

(** ** More runs *)

(** The script on a machine with an empty working directory, the server
    having the document. *)
Example run_main :
  let run := @main latin1_library (fresh mock_server []) in
  run.1 = Finished
  ∧ stdout run.2
    = [py "Download complete: 1 successful, 0 failed";
       10%N :: py "Successful downloads:";
       py "  - K241380: fda_pdfs/K241380.pdf";
       10%N :: py "Failed downloads:"].
Proof. split; by vm_compute. Qed.

(** An identifier with a null character: the server answering, [open]
    refuses the name of the file, and the batch raises its
    [ValueError]. *)
Example run_null_identifier :
  (@download_fda_pdfs latin1_library [[0x4B; 0]%N] default_output_dir
     default_max_workers (fresh generous_server [])).1
  = Raised (ValueError (py "embedded null byte")).
Proof. by vm_compute. Qed.

(** A system that refuses every change: the directory is not made, no
    request is sent, and the batch raises the [OSError] of
    [os.makedirs]. *)
Example run_read_only :
  let run := @download_fda_pdfs latin1_library [py "K241380"]
               default_output_dir default_max_workers
               (read_only generous_server) in
  run.1 = Raised (OSError (py "[Errno 13] Permission denied"))
  ∧ sent run.2 = [].
Proof. split; by vm_compute. Qed.
